(** * sedpack: the FlatBuffers shard writer

    A shallow embedding of [src/sedpack/io/shard/shard_writer_flatbuffer.py]
    (class [ShardWriterFlatBuffer]) together with models of the two
    libraries it drives: the Python runtime of FlatBuffers
    ([flatbuffers.Builder]) and the handful of NumPy array operations the
    attribute encoder calls.

    Layout of the file:
    - exceptions and a state-and-exception monad (Python mutates objects
      and an exception leaves the mutations done so far in place);
    - bytes, [struct.pack_into], slice assignment;
    - [flatbuffers.Builder];
    - NumPy arrays as objects in a store;
    - the writer: [save_numpy_vector_as_bytearray], [_write], [close];
    - the read side (decoder), modelled from the specification;
    - the properties. *)

From Stdlib Require Import ZArith Lia List String Ascii Bool.
From coqutil Require Import Byte Word.LittleEndianList.
From stdpp Require Import base option list gmap.
Import ListNotations.
Local Open Scope Z_scope.

Abbreviation byte := Init.Byte.byte.

(** ** Exceptions *)

(** The exceptions the modelled code can raise.  The three [ValueError]s of
    [save_numpy_vector_as_bytearray] are kept apart by their message. *)
Inductive exn : Type :=
| ValueError_cannot_cast        (* "Cannot cast value of dtype ..." *)
| ValueError_sys_byteorder      (* "Unexpected sys.byteorder" *)
| ValueError_byteorder          (* "Unexpected value of byteorder ..." *)
| KeyError                      (* values[attribute.name] *)
| AssertionError
| AttributeError                (* a method called on None *)
| TypeError                     (* number_types.enforce_number, None used as int *)
| StructError                   (* struct.error of pack_into *)
| BuilderSizeError
| IsNestedError
| IsNotNestedError
| OffsetArithmeticError
| BuilderNotFinishedError
| LoopFuelExhausted.            (* never raised: see [Prep_grow_total] *)

(** ** State and exception monad *)

Inductive Res (S A : Type) : Type :=
| Ok (a : A) (s : S)
| Raise (e : exn) (s : S).
Arguments Ok {S A} a s.
Arguments Raise {S A} e s.

Definition M (S A : Type) : Type := S -> Res S A.

Definition ret {S A} (a : A) : M S A := fun s => Ok a s.

Definition bind {S A B} (m : M S A) (k : A -> M S B) : M S B :=
  fun s => match m s with
           | Ok a s' => k a s'
           | Raise e s' => Raise e s'
           end.

Definition raise {S A} (e : exn) : M S A := fun s => Raise e s.
Definition gets {S A} (f : S -> A) : M S A := fun s => Ok (f s) s.
Definition modify {S} (f : S -> S) : M S unit := fun s => Ok tt (f s).

Declare Scope M_scope.
Delimit Scope M_scope with M.
Notation "x <- c ;; k" := (bind c (fun x => k))
  (at level 100, c at next level, k at level 200, right associativity) : M_scope.
Notation "c ;; k" := (bind c (fun _ => k))
  (at level 100, k at level 200, right associativity) : M_scope.
Local Open Scope M_scope.

(** [when c m]: Python's [if c: m]. *)
Definition when {S} (c : bool) (m : M S unit) : M S unit :=
  if c then m else ret tt.

(** [for x in xs: body x]. *)
Fixpoint forM_ {S A} (xs : list A) (body : A -> M S unit) : M S unit :=
  match xs with
  | [] => ret tt
  | x :: xs' => body x ;; forM_ xs' body
  end.

(** [for _ in range(n): body]. *)
Fixpoint repeatM {S} (n : nat) (body : M S unit) : M S unit :=
  match n with
  | O => ret tt
  | S n' => body ;; repeatM n' body
  end.

(** A loop that appends one result per element to a Python list. *)
Fixpoint collectM {S A B} (xs : list A) (body : A -> M S B) (acc : list B)
  : M S (list B) :=
  match xs with
  | [] => ret acc
  | x :: xs' => y <- body x ;; collectM xs' body (acc ++ [y])
  end.

(** The state a computation stops in, whether it returned or raised. *)
Definition final_state {S A} (r : Res S A) : S :=
  match r with Ok _ s => s | Raise _ s => s end.

(** ** Bytes *)

Definition len {A} (l : list A) : Z := Z.of_nat (length l).

Definition zeros (n : nat) : list byte := replicate n Byte.x00.

(** Python slice assignment [buf[a:b] = data] on a bytearray: negative
    indices count from the end, both are clamped to [0, len], and an empty
    or reversed range inserts at its start. *)
Definition slice_index (n i : Z) : Z :=
  if i <? 0 then Z.max 0 (i + n) else Z.min i n.

Definition slice_assign (buf : list byte) (a b : Z) (data : list byte)
  : list byte :=
  let a' := slice_index (len buf) a in
  let b' := Z.max a' (slice_index (len buf) b) in
  take (Z.to_nat a') buf ++ data ++ drop (Z.to_nat b') buf.

(** [flatbuffers.number_types]: the flags of the four number types the
    builder writes. *)
Record NumFlags : Type := mkFlags
  { bytewidth : Z; min_val : Z; max_val : Z }.

Definition Uint8Flags : NumFlags := mkFlags 1 0 255.
Definition Uint16Flags : NumFlags := mkFlags 2 0 65535.
Definition Uint32Flags : NumFlags := mkFlags 4 0 4294967295.
Definition Int32Flags : NumFlags := mkFlags 4 (-2147483648) 2147483647.
Definition UOffsetTFlags : NumFlags := Uint32Flags.
Definition SOffsetTFlags : NumFlags := Int32Flags.
Definition VOffsetTFlags : NumFlags := Uint16Flags.

Definition in_range (fl : NumFlags) (x : Z) : bool :=
  (min_val fl <=? x) && (x <=? max_val fl).

(** Little-endian image of [x] on the width of [fl] (two's complement for
    negative [x]). *)
Definition pack (fl : NumFlags) (x : Z) : list byte :=
  le_split (Z.to_nat (bytewidth fl)) x.

(** [struct.Struct("<fmt").pack_into(buf, offset, x)]: [None] stands for
    [struct.error] (value out of range, or no room at [offset]; a negative
    offset counts from the end of the buffer). *)
Definition pack_into (fl : NumFlags) (buf : list byte) (offset x : Z)
  : option (list byte) :=
  if negb (in_range fl x) then None
  else
    let size := bytewidth fl in
    if offset <? 0 then
      if (0 <? offset + size) || (offset + len buf <? 0) then None
      else
        let o := offset + len buf in
        Some (take (Z.to_nat o) buf ++ pack fl x
                ++ drop (Z.to_nat (o + size)) buf)
    else if len buf - offset <? size then None
    else Some (take (Z.to_nat offset) buf ++ pack fl x
                 ++ drop (Z.to_nat (offset + size)) buf).

(** ** flatbuffers.Builder

    The builder of the FlatBuffers Python runtime, with the fields the
    writer reads or assigns ([Bytes], [head], [vectorNumElems]) and the ones
    its own methods need.  Python integers are unbounded, so they are [Z];
    the range checks of the runtime are the explicit [TypeError] and
    [StructError] below. *)

Module Builder.

Record t : Type := mk
  { Bytes : list byte;
    current_vtable : option (list Z);
    head : Z;
    minalign : Z;
    objectEnd : option Z;
    vtables : gmap (list Z) Z;
    nested : bool;
    forceDefaults : bool;
    finished : bool;
    vectorNumElems : option Z }.

Definition MAX_BUFFER_SIZE : Z := 2 ^ 31.
Definition VtableMetadataFields : Z := 2.

Definition with_Bytes (v : list byte) (b : t) : t :=
  mk v (current_vtable b) (head b) (minalign b) (objectEnd b) (vtables b)
     (nested b) (forceDefaults b) (finished b) (vectorNumElems b).
Definition with_current_vtable (v : option (list Z)) (b : t) : t :=
  mk (Bytes b) v (head b) (minalign b) (objectEnd b) (vtables b)
     (nested b) (forceDefaults b) (finished b) (vectorNumElems b).
Definition with_head (v : Z) (b : t) : t :=
  mk (Bytes b) (current_vtable b) v (minalign b) (objectEnd b) (vtables b)
     (nested b) (forceDefaults b) (finished b) (vectorNumElems b).
Definition with_minalign (v : Z) (b : t) : t :=
  mk (Bytes b) (current_vtable b) (head b) v (objectEnd b) (vtables b)
     (nested b) (forceDefaults b) (finished b) (vectorNumElems b).
Definition with_objectEnd (v : option Z) (b : t) : t :=
  mk (Bytes b) (current_vtable b) (head b) (minalign b) v (vtables b)
     (nested b) (forceDefaults b) (finished b) (vectorNumElems b).
Definition with_vtables (v : gmap (list Z) Z) (b : t) : t :=
  mk (Bytes b) (current_vtable b) (head b) (minalign b) (objectEnd b) v
     (nested b) (forceDefaults b) (finished b) (vectorNumElems b).
Definition with_nested (v : bool) (b : t) : t :=
  mk (Bytes b) (current_vtable b) (head b) (minalign b) (objectEnd b)
     (vtables b) v (forceDefaults b) (finished b) (vectorNumElems b).
Definition with_finished (v : bool) (b : t) : t :=
  mk (Bytes b) (current_vtable b) (head b) (minalign b) (objectEnd b)
     (vtables b) (nested b) (forceDefaults b) v (vectorNumElems b).
Definition with_vectorNumElems (v : option Z) (b : t) : t :=
  mk (Bytes b) (current_vtable b) (head b) (minalign b) (objectEnd b)
     (vtables b) (nested b) (forceDefaults b) (finished b) v.

(** [Builder(initialSize)]; the writer only calls [Builder(0)].
    [vectorNumElems] is not assigned by [__init__]. *)
Definition init (initialSize : Z) : t :=
  mk (zeros (Z.to_nat initialSize)) None initialSize 1 None ∅
     false false false None.

Definition Head : M t Z := gets head.

(** [Offset]: the position of the cursor counted from the end of the
    buffer. *)
Definition offset_of (b : t) : Z := len (Bytes b) - head b.
Definition Offset : M t Z := gets offset_of.

Definition assertNested : M t unit :=
  fun b => if nested b then Ok tt b else Raise IsNotNestedError b.
Definition assertNotNested : M t unit :=
  fun b => if nested b then Raise IsNestedError b else Ok tt b.

(** [number_types.enforce_number]. *)
Definition enforce_number (x : Z) (fl : NumFlags) : M t unit :=
  fun b => if in_range fl x then Ok tt b else Raise TypeError b.

(** [encode.Write(packer, self.Bytes, pos, x)]. *)
Definition Write (fl : NumFlags) (pos x : Z) : M t unit :=
  fun b => match pack_into fl (Bytes b) pos x with
           | Some bytes' => Ok tt (with_Bytes bytes' b)
           | None => Raise StructError b
           end.

(** [Place]: prepend a value without checking for available space. *)
Definition Place (x : Z) (fl : NumFlags) : M t unit :=
  enforce_number x fl ;;
  modify (fun b => with_head (head b - bytewidth fl) b) ;;
  h <- Head ;;
  Write fl h x.

Definition PlaceUOffsetT (x : Z) : M t unit := Place x UOffsetTFlags.
Definition PlaceSOffsetT (x : Z) : M t unit := Place x SOffsetTFlags.
Definition PlaceVOffsetT (x : Z) : M t unit := Place x VOffsetTFlags.

(** [Pad]: [n] zero bytes at the cursor. *)
Definition Pad (n : Z) : M t unit :=
  repeatM (Z.to_nat n) (Place 0 Uint8Flags).

(** [growByteBuffer]: double the buffer, the old content at the end. *)
Definition growByteBuffer : M t unit :=
  fun b =>
    if len (Bytes b) =? MAX_BUFFER_SIZE then Raise BuilderSizeError b
    else
      let newSize := Z.min (len (Bytes b) * 2) MAX_BUFFER_SIZE in
      let newSize := if newSize =? 0 then 1 else newSize in
      let bytes2 := zeros (Z.to_nat newSize) in
      Ok tt (with_Bytes
               (slice_assign bytes2 (newSize - len (Bytes b)) (len bytes2)
                             (Bytes b)) b).

(** The [while self.Head() < alignSize+size+additionalBytes] loop of
    [Prep].  Every round doubles the buffer up to [MAX_BUFFER_SIZE] and the
    round after that raises, so the loop makes at most 33 rounds; the model
    runs it on [Prep_fuel] rounds and [Prep_grow_total] shows that this is
    never too few. *)
Fixpoint Prep_grow (fuel : nat) (need : Z) : M t unit :=
  fun b =>
    if head b <? need then
      match fuel with
      | O => Raise LoopFuelExhausted b
      | S fuel' =>
          let oldBufSize := len (Bytes b) in
          (growByteBuffer ;;
           modify (fun b1 =>
                     with_head (head b1 + len (Bytes b1) - oldBufSize) b1) ;;
           Prep_grow fuel' need) b
      end
    else Ok tt b.

Definition Prep_fuel : nat := 40.

(** [Prep]: make room to write [size] bytes after [additionalBytes] more
    bytes, and pad so that that write is aligned to [size]. *)
Definition Prep (size additionalBytes : Z) : M t unit :=
  ma <- gets minalign ;;
  when (ma <? size) (modify (with_minalign size)) ;;
  off <- Offset ;;
  let alignSize := Z.lnot (off + additionalBytes) + 1 in
  let alignSize := Z.land alignSize (size - 1) in
  Prep_grow Prep_fuel (alignSize + size + additionalBytes) ;;
  Pad alignSize.

Definition Prepend (fl : NumFlags) (x : Z) : M t unit :=
  Prep (bytewidth fl) 0 ;; Place x fl.
Definition PrependVOffsetT (x : Z) : M t unit := Prepend VOffsetTFlags x.

(** [PrependUOffsetTRelative]: prepend the distance from the slot being
    written to the object at offset [off]. *)
Definition PrependUOffsetTRelative (off : Z) : M t unit :=
  Prep (bytewidth UOffsetTFlags) 0 ;;
  o <- Offset ;;
  if negb (off <=? o) then raise OffsetArithmeticError
  else PlaceUOffsetT (o - off + bytewidth UOffsetTFlags).

Definition PrependSOffsetTRelative (off : Z) : M t unit :=
  Prep (bytewidth SOffsetTFlags) 0 ;;
  o <- Offset ;;
  if negb (off <=? o) then raise OffsetArithmeticError
  else PlaceSOffsetT (o - off + bytewidth SOffsetTFlags).

(** [StartVector(elemSize, numElems, alignment)]. *)
Definition StartVector (elemSize numElems alignment : Z) : M t Z :=
  assertNotNested ;;
  modify (with_nested true) ;;
  modify (with_vectorNumElems (Some numElems)) ;;
  Prep (bytewidth Uint32Flags) (elemSize * numElems) ;;
  Prep alignment (elemSize * numElems) ;;
  Offset.

(** [EndVector()]: write the element count in front of the data. *)
Definition EndVector : M t Z :=
  assertNested ;;
  modify (with_nested false) ;;
  n <- gets vectorNumElems ;;
  match n with
  | None => raise TypeError
  | Some n =>
      PlaceUOffsetT n ;;
      modify (with_vectorNumElems None) ;;
      Offset
  end.

(** [StartObject(numfields)]. *)
Definition StartObject (numfields : Z) : M t unit :=
  assertNotNested ;;
  modify (with_current_vtable (Some (replicate (Z.to_nat numfields) 0))) ;;
  o <- Offset ;;
  modify (with_objectEnd (Some o)) ;;
  modify (with_nested true).

(** [Slot(slotnum)]: [self.current_vtable[slotnum] = self.Offset()]. *)
Definition Slot (slotnum : Z) : M t unit :=
  assertNested ;;
  o <- Offset ;;
  vt <- gets current_vtable ;;
  match vt with
  | None => raise TypeError
  | Some vt =>
      if (0 <=? slotnum) && (slotnum <? len vt)
      then modify (with_current_vtable
                     (Some (<[Z.to_nat slotnum := o]> vt)))
      else if (- len vt <=? slotnum) && (slotnum <? 0)
      then modify (with_current_vtable
                     (Some (<[Z.to_nat (slotnum + len vt) := o]> vt)))
      else raise TypeError  (* IndexError *)
  end.

Definition PrependUOffsetTRelativeSlot (o x d : Z) : M t unit :=
  fd <- gets forceDefaults ;;
  when (negb (x =? d) || fd)
       (PrependUOffsetTRelative x ;; Slot o).

(** The key under which [WriteVtable] looks a vtable up: the field
    offsets from last to first, trailing unset fields dropped. *)
Fixpoint vtKey_loop (objectOffset : Z) (rev_vt : list Z) (trim : bool)
  : list Z :=
  match rev_vt with
  | [] => []
  | elem :: rest =>
      if elem =? 0 then
        if trim then vtKey_loop objectOffset rest trim
        else 0 :: vtKey_loop objectOffset rest trim
      else (objectOffset - elem) :: vtKey_loop objectOffset rest false
  end.

(** The [while i >= 0] loop of [WriteVtable]; returns [trailing]. *)
Fixpoint write_vtable_loop (objectOffset : Z) (rev_vt : list Z)
         (trim : bool) (trailing : Z) : M t Z :=
  match rev_vt with
  | [] => ret trailing
  | elem :: rest =>
      if elem =? 0 then
        if trim then write_vtable_loop objectOffset rest trim (trailing + 1)
        else PrependVOffsetT 0 ;;
             write_vtable_loop objectOffset rest trim trailing
      else PrependVOffsetT (objectOffset - elem) ;;
           write_vtable_loop objectOffset rest false trailing
  end.

(** [WriteVtable]: finish the object under construction, sharing its
    vtable with an earlier object when one with the same key exists. *)
Definition WriteVtable : M t Z :=
  PrependSOffsetTRelative 0 ;;
  objectOffset <- Offset ;;
  cvt <- gets current_vtable ;;
  match cvt with
  | None => raise TypeError
  | Some cvt =>
      let vtKey := vtKey_loop objectOffset (rev cvt) true in
      vts <- gets vtables ;;
      match vts !! vtKey with
      | None =>
          trailing <- write_vtable_loop objectOffset (rev cvt) true 0 ;;
          oe <- gets objectEnd ;;
          match oe with
          | None => raise TypeError
          | Some oe =>
              let objectSize := objectOffset - oe in
              PrependVOffsetT objectSize ;;
              let vBytes := (len cvt - trailing + VtableMetadataFields)
                            * bytewidth VOffsetTFlags in
              PrependVOffsetT vBytes ;;
              n <- gets (fun b => len (Bytes b)) ;;
              let objectStart := n - objectOffset in
              o <- Offset ;;
              Write SOffsetTFlags objectStart (o - objectOffset) ;;
              o' <- Offset ;;
              modify (fun b => with_vtables (<[vtKey := o']> (vtables b)) b)
          end
      | Some vt2Offset =>
          n <- gets (fun b => len (Bytes b)) ;;
          let objectStart := n - objectOffset in
          modify (with_head objectStart) ;;
          h <- Head ;;
          Write SOffsetTFlags h (vt2Offset - objectOffset)
      end ;;
      modify (with_current_vtable None) ;;
      ret objectOffset
  end.

Definition EndObject : M t Z :=
  assertNested ;;
  modify (with_nested false) ;;
  WriteVtable.

(** [Finish(rootTable)] (no size prefix, no file identifier). *)
Definition Finish (rootTable : Z) : M t Z :=
  enforce_number rootTable UOffsetTFlags ;;
  let prepSize := bytewidth UOffsetTFlags in
  ma <- gets minalign ;;
  Prep ma prepSize ;;
  PrependUOffsetTRelative rootTable ;;
  modify (with_finished true) ;;
  Head.

(** [Output()]: the bytes from the cursor to the end of the buffer. *)
Definition Output : M t (list byte) :=
  fun b => if finished b
           then Ok (drop (Z.to_nat (slice_index (len (Bytes b)) (head b)))
                         (Bytes b)) b
           else Raise BuilderNotFinishedError b.

End Builder.

(** ** NumPy arrays

    An array object is its dtype, its shape and its elements in row-major
    (C) order, each element being the [itemsize] bytes it occupies in
    memory.  What the bytes of an element mean depends on the byte order of
    the dtype and, for the native order, on the host. *)

Inductive Platform : Type := LittleEndianHost | BigEndianHost.

(** [sys.byteorder]. *)
Definition sys_byteorder (host : Platform) : string :=
  match host with
  | LittleEndianHost => "little"
  | BigEndianHost => "big"
  end.

Module np.

(** [kind] is NumPy's kind character ("b", "i", "u", "f", "c"), [byteorder]
    its byte-order character ("=", "<", ">" or "|"). *)
Record dtype : Type := mk_dtype
  { kind : string; itemsize : nat; byteorder : string }.

Record ndarray : Type := mk_ndarray
  { arr_dtype : dtype; shape : list nat; data : list (list byte) }.

Definition empty_array : ndarray := mk_ndarray (mk_dtype "V" 0 "|") [0%nat] [].

(** Whether elements of this dtype are stored most significant byte
    first on this host. *)
Definition is_big_endian (host : Platform) (dt : dtype) : bool :=
  String.eqb (byteorder dt) ">"
  || (String.eqb (byteorder dt) "="
      && match host with BigEndianHost => true | LittleEndianHost => false end).

(** Byte swap of one element: the bytes are reversed; a complex number is
    two floats, each reversed on its own. *)
Definition byteswap_item (k : string) (item : list byte) : list byte :=
  if String.eqb k "c" then
    let h := (length item / 2)%nat in
    rev (take h item) ++ rev (drop h item)
  else rev item.

(** The bit pattern of an element (little-endian first), read from and
    written to memory. *)
Definition from_mem (host : Platform) (dt : dtype) (item : list byte) : Z :=
  le_combine (if is_big_endian host dt then byteswap_item (kind dt) item
              else item).

Definition to_mem (host : Platform) (dt : dtype) (z : Z) : list byte :=
  let le := le_split (itemsize dt) z in
  if is_big_endian host dt then byteswap_item (kind dt) le else le.

(** The elements of an array as bit patterns, in row-major order. *)
Definition values (host : Platform) (a : ndarray) : list Z :=
  map (from_mem host (arr_dtype a)) (data a).

Definition size (a : ndarray) : nat := fold_right Nat.mul 1%nat (shape a).

(** [np.copy(a)]. *)
Definition copy (a : ndarray) : ndarray :=
  mk_ndarray (arr_dtype a) (shape a) (data a).

(** [a.flatten()]: one dimension, row-major order. *)
Definition flatten (a : ndarray) : ndarray :=
  mk_ndarray (arr_dtype a) [size a] (data a).

(** [a.byteswap()]: the bytes of every element swapped, the dtype kept. *)
Definition byteswap (a : ndarray) : ndarray :=
  mk_ndarray (arr_dtype a) (shape a)
             (map (byteswap_item (kind (arr_dtype a))) (data a)).

(** [a.tobytes(order="C")]. *)
Definition tobytes (a : ndarray) : list byte := concat (data a).

Section Casting.
(** NumPy's casting tables are taken as given: [cast_bits src dst] maps
    the bit pattern of an element of dtype [src] to the bit pattern of
    the converted element. *)
Variable cast_bits : dtype -> dtype -> Z -> Z.
Variable host : Platform.

(** [np.array(a, dtype=dt)]: a new array of dtype [dt]. *)
Definition array (a : ndarray) (dt : dtype) : ndarray :=
  mk_ndarray dt (shape a)
    (map (fun item =>
            to_mem host dt (cast_bits (arr_dtype a) dt
                                      (from_mem host (arr_dtype a) item)))
         (data a)).
End Casting.

End np.

(** ** The schema *)

(** [sedpack.io.metadata.Attribute]: the fields the writer reads. *)
Record Attribute : Type := mkAttribute
  { name : string; dtype : np.dtype; attr_shape : list nat }.

(** [sedpack.io.metadata.DatasetStructure]: the fields the writer reads. *)
Record DatasetStructure : Type := mkDatasetStructure
  { saved_data_description : list Attribute; compression : string }.

(** An example ([ExampleT]): a dict from attribute names to arrays, kept in
    insertion order; the arrays are references into the store. *)
Definition ExampleT : Type := list (string * nat).

Fixpoint dict_get (d : ExampleT) (k : string) : option nat :=
  match d with
  | [] => None
  | (k', v) :: d' => if String.eqb k' k then Some v else dict_get d' k
  end.

(** ** The world of one writer

    [arrays] is the store of NumPy array objects (a reference is an index;
    the store only grows, and a new object gets the next index);
    [_examples] and [_builder] are the writer's fields; [shard_file] is what
    the file system holds at [self._shard_file] ([None]: no file). *)
Record World : Type := mkWorld
  { arrays : list np.ndarray;
    _examples : list Z;
    _builder : option Builder.t;
    shard_file : option (list byte) }.

Definition with_arrays (v : list np.ndarray) (w : World) : World :=
  mkWorld v (_examples w) (_builder w) (shard_file w).
Definition with_examples (v : list Z) (w : World) : World :=
  mkWorld (arrays w) v (_builder w) (shard_file w).
Definition with_builder (v : option Builder.t) (w : World) : World :=
  mkWorld (arrays w) (_examples w) v (shard_file w).
Definition with_shard_file (v : option (list byte)) (w : World) : World :=
  mkWorld (arrays w) (_examples w) (_builder w) v.

(** [ShardWriterFlatBuffer.__init__]: no example, no builder. *)
Definition init_writer (arrays0 : list np.ndarray)
           (file0 : option (list byte)) : World :=
  mkWorld arrays0 [] None file0.

(** The array object behind a reference. *)
Definition deref (w : World) (l : nat) : np.ndarray :=
  nth l (arrays w) np.empty_array.

(** A new array object; returns its reference. *)
Definition alloc (a : np.ndarray) : M World nat :=
  fun w => Ok (length (arrays w)) (with_arrays (arrays w ++ [a]) w).

(** A method of the builder object, run on the builder the writer holds. *)
Definition onB {A} (m : M Builder.t A) : M World A :=
  fun w => match _builder w with
           | None => Raise AttributeError w
           | Some b =>
               match m b with
               | Ok a b' => Ok a (with_builder (Some b') w)
               | Raise e b' => Raise e (with_builder (Some b') w)
               end
           end.

(** NumPy calls on references. *)
Definition np_copy (l : nat) : M World nat :=
  a <- gets (fun w => deref w l) ;; alloc (np.copy a).
Definition ndarray_flatten (l : nat) : M World nat :=
  a <- gets (fun w => deref w l) ;; alloc (np.flatten a).
(** [a.byteswap(inplace)]: in place, the object itself is overwritten and
    returned. *)
Definition ndarray_byteswap (l : nat) (inplace : bool) : M World nat :=
  a <- gets (fun w => deref w l) ;;
  if inplace
  then modify (fun w => with_arrays (<[l := np.byteswap a]> (arrays w)) w) ;;
       ret l
  else alloc (np.byteswap a).
Definition ndarray_tobytes (l : nat) : M World (list byte) :=
  gets (fun w => np.tobytes (deref w l)).
Definition ndarray_dtype (l : nat) : M World np.dtype :=
  gets (fun w => np.arr_dtype (deref w l)).

(** ** The generated builder API (sedpack.io.flatbuffer.shardfile) *)

(** Modelled from the spec: the modules generated from [shard.fbs]
    ([shardfile.Attribute], [shardfile.Example], [shardfile.Shard]) are not
    in the sources at hand.  By the on-disk format of the specification a
    shard is one record holding a vector of example records, an example one
    record holding a vector of attribute records, and an attribute one
    record holding one byte vector: each table has a single field, an
    offset in slot 0, and the two vectors of records hold 4-byte
    offsets. *)
Module fbapi.
Definition AttributeStart : M Builder.t unit := Builder.StartObject 1.
Definition AttributeAddAttributeBytes (attributeBytes : Z)
  : M Builder.t unit :=
  Builder.PrependUOffsetTRelativeSlot 0 attributeBytes 0.
Definition AttributeEnd : M Builder.t Z := Builder.EndObject.

Definition ExampleStart : M Builder.t unit := Builder.StartObject 1.
Definition ExampleAddAttributes (attributes : Z) : M Builder.t unit :=
  Builder.PrependUOffsetTRelativeSlot 0 attributes 0.
Definition ExampleStartAttributesVector (numElems : Z) : M Builder.t Z :=
  Builder.StartVector 4 numElems 4.
Definition ExampleEnd : M Builder.t Z := Builder.EndObject.

Definition ShardStart : M Builder.t unit := Builder.StartObject 1.
Definition ShardAddExamples (examples : Z) : M Builder.t unit :=
  Builder.PrependUOffsetTRelativeSlot 0 examples 0.
Definition ShardStartExamplesVector (numElems : Z) : M Builder.t Z :=
  Builder.StartVector 4 numElems 4.
Definition ShardEnd : M Builder.t Z := Builder.EndObject.
End fbapi.

(** ** ShardWriterFlatBuffer *)

Section Writer.
(** The host ([sys.byteorder]), NumPy's casting rules ([np.can_cast] with
    [casting="safe"], and the conversion itself), and the compression
    collaborator ([CompressedFile]: what a file holds once the given
    bytes were written through it). *)
Variable host : Platform.
Variable can_cast : np.dtype -> np.dtype -> bool.
Variable cast_bits : np.dtype -> np.dtype -> Z -> Z.
Variable compress : string -> list byte -> list byte.
(** [self.dataset_structure], never assigned after [__init__]. *)
Variable dataset_structure : DatasetStructure.

(** [np.can_cast(value, to=dt, casting="safe")] on an array of one
    dimension: decided by the dtypes. *)
Definition np_can_cast (l : nat) (dt : np.dtype) : M World bool :=
  gets (fun w => can_cast (np.arr_dtype (deref w l)) dt).

(** [np.array(value, dtype=dt)]. *)
Definition np_array (l : nat) (dt : np.dtype) : M World nat :=
  a <- gets (fun w => deref w l) ;; alloc (np.array cast_bits host a dt).

(** [save_numpy_vector_as_bytearray(builder, attribute, value)], lines
    102-198.  [builder] is the object the writer holds in [_builder];
    [value] is a reference to the caller's array. *)
Definition save_numpy_vector_as_bytearray (attribute : Attribute)
           (value : nat) : M World Z :=
  builder <- gets _builder ;;
  (if builder is None then raise AssertionError else ret tt) ;;
  value <- np_copy value ;;
  value <- ndarray_flatten value ;;
  castable <- np_can_cast value (dtype attribute) ;;
  if negb castable then raise ValueError_cannot_cast
  else
    value <- np_array value (dtype attribute) ;;
    value_dtype <- ndarray_dtype value ;;
    value <-
      (if String.eqb (np.byteorder value_dtype) "=" then
         if String.eqb (sys_byteorder host) "big" then
           ndarray_byteswap value false
         else if String.eqb (sys_byteorder host) "little" then
           ret value
         else raise ValueError_sys_byteorder
       else if String.eqb (np.byteorder value_dtype) ">" then
         ndarray_byteswap value false
       else if String.eqb (np.byteorder value_dtype) "<"
               || String.eqb (np.byteorder value_dtype) "|" then
         ret value
       else raise ValueError_byteorder) ;;
    byte_representation <- ndarray_tobytes value ;;
    let length := len byte_representation in
    value_dtype <- ndarray_dtype value ;;
    onB (Builder.StartVector 1 length (Z.of_nat (np.itemsize value_dtype))) ;;
    onB (h <- Builder.Head ;; modify (Builder.with_head (h - length))) ;;
    onB (h <- Builder.Head ;;
         modify (fun b => Builder.with_Bytes
                            (slice_assign (Builder.Bytes b) h (h + length)
                                          byte_representation) b)) ;;
    onB (modify (Builder.with_vectorNumElems (Some length))) ;;
    onB Builder.EndVector.

(** The same encoder without the second assignment of [vectorNumElems]
    (line 195), the reading the specification's design notes propose. *)
Definition save_numpy_vector_as_bytearray_without_reassignment
           (attribute : Attribute) (value : nat) : M World Z :=
  builder <- gets _builder ;;
  (if builder is None then raise AssertionError else ret tt) ;;
  value <- np_copy value ;;
  value <- ndarray_flatten value ;;
  castable <- np_can_cast value (dtype attribute) ;;
  if negb castable then raise ValueError_cannot_cast
  else
    value <- np_array value (dtype attribute) ;;
    value_dtype <- ndarray_dtype value ;;
    value <-
      (if String.eqb (np.byteorder value_dtype) "=" then
         if String.eqb (sys_byteorder host) "big" then
           ndarray_byteswap value false
         else if String.eqb (sys_byteorder host) "little" then
           ret value
         else raise ValueError_sys_byteorder
       else if String.eqb (np.byteorder value_dtype) ">" then
         ndarray_byteswap value false
       else if String.eqb (np.byteorder value_dtype) "<"
               || String.eqb (np.byteorder value_dtype) "|" then
         ret value
       else raise ValueError_byteorder) ;;
    byte_representation <- ndarray_tobytes value ;;
    let length := len byte_representation in
    value_dtype <- ndarray_dtype value ;;
    onB (Builder.StartVector 1 length (Z.of_nat (np.itemsize value_dtype))) ;;
    onB (h <- Builder.Head ;; modify (Builder.with_head (h - length))) ;;
    onB (h <- Builder.Head ;;
         modify (fun b => Builder.with_Bytes
                            (slice_assign (Builder.Bytes b) h (h + length)
                                          byte_representation) b)) ;;
    onB Builder.EndVector.

(** [values[attribute.name]]. *)
Definition dict_getitem (values : ExampleT) (k : string) : M World nat :=
  match dict_get values k with
  | Some v => ret v
  | None => raise KeyError
  end.

(** The body of the loop over the schema in [_write], lines 75-86. *)
Definition save_attribute (values : ExampleT) (attribute : Attribute)
  : M World Z :=
  value <- dict_getitem values (name attribute) ;;
  attribute_bytes <- save_numpy_vector_as_bytearray attribute value ;;
  onB fbapi.AttributeStart ;;
  onB (fbapi.AttributeAddAttributeBytes attribute_bytes) ;;
  onB fbapi.AttributeEnd.

(** [_write(values)], lines 62-99. *)
Definition _write (values : ExampleT) : M World unit :=
  builder <- gets _builder ;;
  when (if builder is None then true else false)
       (modify (with_builder (Some (Builder.init 0)))) ;;
  saved_attributes <-
    collectM (saved_data_description dataset_structure)
             (save_attribute values) [] ;;
  onB (fbapi.ExampleStartAttributesVector (len saved_attributes)) ;;
  forM_ (rev saved_attributes)
        (fun offset => onB (Builder.PrependUOffsetTRelative offset)) ;;
  attributes_vector_offset <- onB Builder.EndVector ;;
  onB fbapi.ExampleStart ;;
  onB (fbapi.ExampleAddAttributes attributes_vector_offset) ;;
  example <- onB fbapi.ExampleEnd ;;
  modify (fun w => with_examples (_examples w ++ [example]) w).

(** [close()], lines 200-229.  Opening the file for writing creates or
    truncates it before [Output()] is evaluated. *)
Definition close : M World unit :=
  examples <- gets _examples ;;
  if (if examples is [] then true else false) then
    file <- gets shard_file ;;
    if file is Some _ then raise AssertionError else ret tt
  else
    onB (fbapi.ShardStartExamplesVector (len examples)) ;;
    forM_ (rev examples)
          (fun offset => onB (Builder.PrependUOffsetTRelative offset)) ;;
    examples_vector_offset <- onB Builder.EndVector ;;
    onB fbapi.ShardStart ;;
    onB (fbapi.ShardAddExamples examples_vector_offset) ;;
    shard <- onB fbapi.ShardEnd ;;
    onB (Builder.Finish shard) ;;
    modify (with_shard_file
              (Some (compress (compression dataset_structure) []))) ;;
    output <- onB Builder.Output ;;
    modify (with_shard_file
              (Some (compress (compression dataset_structure) output))) ;;
    modify (with_builder None) ;;
    file <- gets shard_file ;;
    if file is Some _ then ret tt else raise AssertionError.

End Writer.

(** ** The read side *)

(** Modelled from the spec: the decoder
    ([sedpack.io.flatbuffer.iterate.IterateShardFlatBuffer] and the readers
    generated from [shard.fbs]) is not in the sources at hand.  The
    specification requires of it: the file is one record holding a vector
    of example records, each holding a vector of attribute records, each
    holding one byte vector; the j-th attribute of the i-th example is read
    by position.  Records and vectors are located the FlatBuffers way: a
    buffer starts with the offset of its root table; a table starts with
    the signed distance to its vtable, whose entries give the position of
    each field inside the table; a vector is reached through a relative
    offset and starts with its element count. *)
Module Reader.

Definition get_bytes (buf : list byte) (pos : Z) (n : nat)
  : option (list byte) :=
  if (0 <=? pos) && (pos + Z.of_nat n <=? len buf)
  then Some (take n (drop (Z.to_nat pos) buf))
  else None.

Definition unpack (fl : NumFlags) (bs : list byte) : Z :=
  let u := le_combine bs in
  if (min_val fl <? 0) && (max_val fl <? u)
  then u - 2 ^ (8 * bytewidth fl) else u.

Definition Get (fl : NumFlags) (buf : list byte) (pos : Z) : option Z :=
  bs ← get_bytes buf pos (Z.to_nat (bytewidth fl)); Some (unpack fl bs).

(** [Table.Offset]: where the field with vtable slot [vtableOffset]
    lies inside the table at [pos]; 0 when the field is absent. *)
Definition Offset (buf : list byte) (pos vtableOffset : Z) : option Z :=
  so ← Get SOffsetTFlags buf pos;
  let vtable := pos - so in
  vtableEnd ← Get VOffsetTFlags buf vtable;
  if vtableOffset <? vtableEnd
  then Get VOffsetTFlags buf (vtable + vtableOffset)
  else Some 0.

Definition Indirect (buf : list byte) (off : Z) : option Z :=
  d ← Get UOffsetTFlags buf off; Some (off + d).

Definition VectorLen (buf : list byte) (pos off : Z) : option Z :=
  v ← Indirect buf (off + pos); Get UOffsetTFlags buf v.

Definition Vector (buf : list byte) (pos off : Z) : option Z :=
  v ← Indirect buf (off + pos);
  Some (v + bytewidth UOffsetTFlags).

(** The byte vector of the attribute record at [pos]. *)
Definition attribute_bytes (buf : list byte) (pos : Z)
  : option (list byte) :=
  o ← Offset buf pos 4;
  if o =? 0 then Some []
  else n ← VectorLen buf pos o;
       start ← Vector buf pos o;
       get_bytes buf start (Z.to_nat n).

(** The records a vector of offsets points to, each read by [read]. *)
Definition table_vector {A} (read : list byte -> Z -> option A)
           (buf : list byte) (pos : Z) : option (list A) :=
  o ← Offset buf pos 4;
  if o =? 0 then Some []
  else n ← VectorLen buf pos o;
       start ← Vector buf pos o;
       mapM (fun j : nat => x ← Indirect buf (start + 4 * Z.of_nat j);
                            read buf x)
            (seq 0 (Z.to_nat n)).

(** The attributes of the example record at [pos], in order. *)
Definition example_attributes : list byte -> Z -> option (list (list byte))
  := table_vector attribute_bytes.

(** The examples of the shard record at [pos], in order. *)
Definition shard_examples
  : list byte -> Z -> option (list (list (list byte)))
  := table_vector example_attributes.

(** The whole buffer: the root is a shard record. *)
Definition decode_shard (buf : list byte)
  : option (list (list (list byte))) :=
  root ← Indirect buf 0; shard_examples buf root.

(** Cut a byte string into elements of [n] bytes. *)
Fixpoint chunks (fuel n : nat) (bs : list byte) : list (list byte) :=
  match fuel with
  | O => []
  | S fuel' => take n bs :: chunks fuel' n (drop n bs)
  end.

(** [decode_array]: the bytes of an attribute as little-endian elements
    of the declared dtype in the declared shape; [None] when the number
    of bytes does not fit the shape. *)
Definition decode_array (attribute : Attribute) (bs : list byte)
  : option np.ndarray :=
  let dt := dtype attribute in
  let count := fold_right Nat.mul 1%nat (attr_shape attribute) in
  if Nat.eqb (length bs) (count * np.itemsize dt)
  then Some (np.mk_ndarray (np.mk_dtype (np.kind dt) (np.itemsize dt) "<")
                           (attr_shape attribute)
                           (chunks count (np.itemsize dt) bs))
  else None.

End Reader.

(** A small instance to run the model on: integers, where a safe cast
    widens within one signedness and the conversion extends the sign. *)
Module Example_int.
Definition can_cast (src dst : np.dtype) : bool :=
  String.eqb (np.kind src) (np.kind dst)
  && (np.itemsize src <=? np.itemsize dst)%nat.
Definition cast_bits (src dst : np.dtype) (z : Z) : Z :=
  if String.eqb (np.kind src) "i"
     && (2 ^ (8 * Z.of_nat (np.itemsize src) - 1) <=? z)
  then z - 2 ^ (8 * Z.of_nat (np.itemsize src)) else z.
Definition compress (c : string) (bs : list byte) : list byte := bs.
Definition int32 : np.dtype := np.mk_dtype "i" 4 "=".
Definition int16_be : np.dtype := np.mk_dtype "i" 2 ">".
Definition float64 : np.dtype := np.mk_dtype "f" 8 "=".
Definition arr (dt : np.dtype) (zs : list Z) : np.ndarray :=
  np.mk_ndarray dt [length zs] (map (np.to_mem LittleEndianHost dt) zs).

(** Two attributes, and a schema with the first and one with both. *)
Definition x : Attribute := mkAttribute "x" int32 [2%nat].
Definition y : Attribute := mkAttribute "y" int32 [1%nat].
Definition schema : DatasetStructure := mkDatasetStructure [x] "".
Definition schema_xy : DatasetStructure := mkDatasetStructure [x; y] "".

(** The caller's arrays: big-endian int16 [[1, -2]], float64 [[0.0]] and
    native int32 [[7]]; a writer that was just made, and one that holds a
    builder. *)
Definition store : list np.ndarray :=
  [arr int16_be [1; 65534]; arr float64 [0]; arr int32 [7]].
Definition fresh : World := init_writer store None.
Definition ready : World := with_builder (Some (Builder.init 0)) fresh.

(** Examples: [good] and [other] fit [schema]; [good_xy] fits
    [schema_xy]; [bad_xy] gives a float64 array for the int32 attribute
    [y]. *)
Definition good : ExampleT := [("x"%string, 0%nat)].
Definition other : ExampleT := [("x"%string, 2%nat)].
Definition good_xy : ExampleT := [("x"%string, 0%nat); ("y"%string, 2%nat)].
Definition bad_xy : ExampleT := [("x"%string, 0%nat); ("y"%string, 1%nat)].
End Example_int.


(** * Vocabulary of the properties *)

(** ** The builder seen from its cursor *)

Module BuilderSpec.
Import Builder.

(** The part of the buffer written so far: from the cursor to the end.
    It is what [Output] returns, and an offset [o] handed out by the
    builder names the position [len (written b) - o] in it. *)
Definition written (b : t) : list byte :=
  drop (Z.to_nat (head b)) (Bytes b).

(** The cursor lies inside the buffer, the buffer within its bound. *)
Definition wf (b : t) : Prop :=
  0 <= head b <= len (Bytes b)
  /\ len (Bytes b) <= MAX_BUFFER_SIZE
  /\ 1 <= minalign b.

(** The bookkeeping fields, apart from buffer, cursor and [minalign]. *)
Definition meta (b : t) :=
  (current_vtable b, objectEnd b, vtables b, nested b, forceDefaults b,
   finished b, vectorNumElems b).

(** [b'] is [b] with [pre] written in front and nothing else changed. *)
Definition grows (pre : list byte) (b b' : t) : Prop :=
  wf b' /\ written b' = pre ++ written b /\ meta b' = meta b.

(** The padding [Prep size additionalBytes] inserts at offset [o]. *)
Definition prep_pad (o additionalBytes size : Z) : Z :=
  Z.land (Z.lnot (o + additionalBytes) + 1) (size - 1).

(** The position in the written part that an offset names. *)
Definition pos_of (w : list byte) (o : Z) : Z := len w - o.

(** At offset [o] lies a vtable whose first field sits 4 bytes into its
    table. *)
Definition vt_ok (w : list byte) (o : Z) : Prop :=
  exists vsize,
    Reader.Get VOffsetTFlags w (pos_of w o) = Some vsize
    /\ 4 < vsize
    /\ Reader.Get VOffsetTFlags w (pos_of w o + 4) = Some 4.

(** The builder between two calls of the writer: nothing is under
    construction, and the vtable kept for sharing is in the buffer. *)
Definition idle (b : t) : Prop :=
  wf b /\ nested b = false /\ forceDefaults b = false
  /\ forall o, vtables b !! [4] = Some o -> vt_ok (written b) o.

(** Only prepending happened between [b] and [b']. *)
Definition extends (b b' : t) : Prop :=
  exists pre, written b' = pre ++ written b.

(** At offset [o] lies a byte vector holding [bs]. *)
Definition bytes_at (w : list byte) (o : Z) (bs : list byte) : Prop :=
  0 < o
  /\ Reader.Get UOffsetTFlags w (pos_of w o) = Some (len bs)
  /\ Reader.get_bytes w (pos_of w o + 4) (length bs) = Some bs.

(** At offset [o] lies a vector of offsets to the objects [offs]. *)
Definition offsets_at (w : list byte) (o : Z) (offs : list Z) : Prop :=
  0 < o
  /\ Reader.Get UOffsetTFlags w (pos_of w o) = Some (len offs)
  /\ forall (j : nat) x, offs !! j = Some x ->
       Reader.Indirect w (pos_of w o + 4 + 4 * Z.of_nat j)
       = Some (pos_of w x).

(** At offset [o] lies a table whose only field points to the object at
    offset [child]. *)
Definition table_at (w : list byte) (o child : Z) : Prop :=
  0 < o
  /\ Reader.Offset w (pos_of w o) 4 = Some 4
  /\ Reader.Indirect w (pos_of w o + 4) = Some (pos_of w child).
End BuilderSpec.

(** ** What the encoder has to produce *)

(** The little-endian image of elements of dtype [dt], one after the
    other. *)
Definition le_bytes (dt : np.dtype) (zs : list Z) : list byte :=
  concat (map (le_split (np.itemsize dt)) zs).

(** The elements of [a] converted to dtype [dt], in row-major order. *)
Definition cast_values (cast_bits : np.dtype -> np.dtype -> Z -> Z)
           (host : Platform) (a : np.ndarray) (dt : np.dtype) : list Z :=
  map (cast_bits (np.arr_dtype a) dt) (np.values host a).

(** The little-endian, row-major bytes of [a] converted to [dt]. *)
Definition expected_bytes (cast_bits : np.dtype -> np.dtype -> Z -> Z)
           (host : Platform) (a : np.ndarray) (dt : np.dtype) : list byte :=
  le_bytes dt (cast_values cast_bits host a dt).

(** The byte-order characters NumPy documents for [dtype.byteorder]. *)
Definition numpy_byteorder (bo : string) : Prop :=
  bo = "="%string \/ bo = "<"%string \/ bo = ">"%string \/ bo = "|"%string.

(** ** What a shard has to hold *)

(** At offset [o] lies an attribute record holding the bytes [bs]. *)
Definition attribute_at (w : list byte) (o : Z) (bs : list byte) : Prop :=
  0 < o /\ Reader.attribute_bytes w (BuilderSpec.pos_of w o) = Some bs.

(** At offset [o] lies an example record holding the attributes [bss]. *)
Definition example_at (w : list byte) (o : Z) (bss : list (list byte))
  : Prop :=
  0 < o /\ Reader.example_attributes w (BuilderSpec.pos_of w o) = Some bss.

(** The array an example gives for an attribute. *)
Definition example_value (w : World) (values : ExampleT)
           (attribute : Attribute) : np.ndarray :=
  match dict_get values (name attribute) with
  | Some l => deref w l
  | None => np.empty_array
  end.

(** What an example has to decode to: for every attribute of the schema,
    in schema order, the little-endian bytes of its value converted to the
    declared dtype. *)
Definition example_content (cast_bits : np.dtype -> np.dtype -> Z -> Z)
           (host : Platform) (ds : DatasetStructure) (w : World)
           (values : ExampleT) : list (list byte) :=
  map (fun attribute =>
         expected_bytes cast_bits host (example_value w values attribute)
                        (dtype attribute))
      (saved_data_description ds).

(** The references of an example point to arrays of the store. *)
Definition valid_example (w : World) (values : ExampleT) : Prop :=
  Forall (fun kv => (snd kv < length (arrays w))%nat) values.

(** The example gives the attribute a value that the encoder accepts: the
    name is there, the dtype of the value casts safely to the declared
    dtype, and the byte order of the declared dtype is one of NumPy's. *)
Definition encodable (can_cast : np.dtype -> np.dtype -> bool) (w : World)
           (values : ExampleT) (attribute : Attribute) : Prop :=
  is_Some (dict_get values (name attribute))
  /\ can_cast (np.arr_dtype (example_value w values attribute))
               (dtype attribute) = true
  /\ numpy_byteorder (np.byteorder (dtype attribute)).

(** The writer between two calls: either nothing was written yet, or the
    builder is idle and every handle of [_examples] names an example
    record in the buffer; [contents] lists what they hold. *)
Definition consistent (w : World) (contents : list (list (list byte)))
  : Prop :=
  match _builder w with
  | None => _examples w = [] /\ contents = []
  | Some b =>
      BuilderSpec.idle b
      /\ Forall2 (example_at (BuilderSpec.written b)) (_examples w) contents
  end.

(** ** Steps of the writer *)

(** Between [w] and [w'] the store only gained new arrays; in
    [allocated], moreover, the writer's fields, the builder and the file
    are the same. *)
Definition store_extends (w w' : World) : Prop :=
  exists new, arrays w' = arrays w ++ new.

Definition allocated (w w' : World) : Prop :=
  store_extends w w'
  /\ _examples w' = _examples w
  /\ _builder w' = _builder w
  /\ shard_file w' = shard_file w.

(** The byte vector of [bs], its length and its bytes, lies inside
    [pre]. *)
Definition embedded (pre bs : list byte) : Prop :=
  exists p q, pre = p ++ pack UOffsetTFlags (len bs) ++ bs ++ q.

(** [w'] is [w] with new arrays in the store and [b'] for its builder. *)
Definition builder_step (w w' : World) (b' : Builder.t) : Prop :=
  store_extends w w'
  /\ _examples w' = _examples w
  /\ shard_file w' = shard_file w
  /\ _builder w' = Some b'.

(** However [m] ends, returning or raising, the world it leaves is
    related by [R] to the world it started in. *)
Definition frames {A} (R : World -> World -> Prop) (m : M World A) : Prop :=
  forall w, R w (final_state (m w)).

(** The same for the runs of [m] that raise. *)
Definition frames_on_raise {A} (R : World -> World -> Prop) (m : M World A)
  : Prop :=
  forall w e w', m w = Raise e w' -> R w w'.

(** The store has only gained arrays and the file is as it was. *)
Definition kept_store_and_file (w w' : World) : Prop :=
  store_extends w w' /\ shard_file w' = shard_file w.

(** The same, and the list of example handles is as it was. *)
Definition kept_examples (w w' : World) : Prop :=
  store_extends w w' /\ shard_file w' = shard_file w
  /\ _examples w' = _examples w.

(** Only the builder may differ: the store, the list of examples and the
    file are the same. *)
Definition kept_all_but_builder (w w' : World) : Prop :=
  arrays w' = arrays w /\ _examples w' = _examples w
  /\ shard_file w' = shard_file w.

(** [m], run on a writer that holds a builder, leaves it holding one and
    does not fail for the lack of one: neither with the [AttributeError]
    of a method called on [None] nor with the [AssertionError] of the
    encoder's first line. *)
Definition keeps_builder {A} (m : M World A) : Prop :=
  forall w, is_Some (_builder w) ->
    is_Some (_builder (final_state (m w)))
    /\ forall e w', m w = Raise e w' ->
         e <> AttributeError /\ e <> AssertionError.

(** ** Exceptions by origin *)

(** The exceptions raised by the builder's own checks. *)
Definition builder_error (e : exn) : bool :=
  match e with
  | TypeError | StructError | BuilderSizeError | IsNestedError
  | IsNotNestedError | OffsetArithmeticError | BuilderNotFinishedError
  | LoopFuelExhausted => true
  | _ => false
  end.

(** The exceptions a caller of [write] can provoke with its input: the
    three [ValueError]s of the encoder and the [KeyError] of a missing
    attribute. *)
Definition caller_error (e : exn) : bool :=
  match e with
  | ValueError_cannot_cast | ValueError_sys_byteorder | ValueError_byteorder
  | KeyError => true
  | _ => false
  end.

(** The exceptions that do not depend on the caller's input. *)
Definition internal_error (e : exn) : bool :=
  builder_error e
  || match e with AttributeError | AssertionError => true | _ => false end.

(** The exceptions by which the builder gives up at its size limit: the
    error of [growByteBuffer], and the [TypeError] of an offset or a length
    that no longer fits its field. *)
Definition limit_error (e : exn) : bool :=
  match e with
  | BuilderSizeError | TypeError => true
  | _ => false
  end.

(** [m] raises only exceptions that satisfy [P]. *)
Definition raises {S A} (m : M S A) (P : exn -> bool) : Prop :=
  forall s e s', m s = Raise e s' -> P e = true.

(** * Properties *)

Arguments pack : simpl never.
Arguments zeros : simpl never.
Arguments le_split : simpl never.
Arguments le_combine : simpl never.
Arguments Builder.offset_of : simpl never.
Arguments BuilderSpec.written : simpl never.
Arguments BuilderSpec.prep_pad : simpl never.
Arguments BuilderSpec.pos_of : simpl never.

(** ** Inversion of monadic computations *)

Lemma bind_Ok_inv {S A B} (m : M S A) (k : A -> M S B) s b s' :
  bind m k s = Ok b s' -> exists a s1, m s = Ok a s1 /\ k a s1 = Ok b s'.
Proof.
  unfold bind. destruct (m s) as [a s1|e s1]; [eauto|discriminate].
Qed.

Lemma bind_Raise_inv {S A B} (m : M S A) (k : A -> M S B) s e s' :
  bind m k s = Raise e s' ->
  m s = Raise e s' \/ exists a s1, m s = Ok a s1 /\ k a s1 = Raise e s'.
Proof.
  unfold bind. destruct (m s) as [a s1|e1 s1]; [eauto|].
  intros [= -> ->]. by left.
Qed.

Lemma bind_Ok_intro {S A B} (m : M S A) (k : A -> M S B) s a s1 :
  m s = Ok a s1 -> bind m k s = k a s1.
Proof. unfold bind. by intros ->. Qed.

(** Unfold the monad operations in [H] and split on the first step. *)
Ltac msimpl H :=
  cbv beta iota delta [bind ret gets modify raise when] in H.
Ltac innermost x :=
  lazymatch x with
  | match ?y with _ => _ end => innermost y
  | _ => x
  end.
Ltac mcase H :=
  lazymatch type of H with
  | match ?x with _ => _ end = _ =>
      let y := innermost x in
      let E := fresh "E" in
      destruct y eqn:E; cbv beta iota in H; try discriminate H
  | (match ?x with _ => _ end) _ = _ =>
      let y := innermost x in
      let E := fresh "E" in
      destruct y eqn:E; cbv beta iota in H; try discriminate H
  end.

(** The same, naming the result and the state of the first step. *)
Ltac mres H E a s :=
  lazymatch type of H with
  | match ?x with _ => _ end = _ =>
      let y := innermost x in
      destruct y as [a s|? ?] eqn:E; cbv beta iota in H; try discriminate H
  | (match ?x with _ => _ end) _ = _ =>
      let y := innermost x in
      destruct y as [a s|? ?] eqn:E; cbv beta iota in H; try discriminate H
  end.

(** Split a successful [bind], naming the result and the state of its
    first computation. *)
Ltac mbind H E a s :=
  apply bind_Ok_inv in H as (a & s & E & H).

(** Split a [bind] that raised: either its first computation raised, or
    it returned and the rest raised. *)
Ltac rbind H E a s :=
  apply bind_Raise_inv in H as [H|(a & s & E & H)].

(** ** Lists of bytes *)

Lemma len_app {A} (l1 l2 : list A) : len (l1 ++ l2) = len l1 + len l2.
Proof. unfold len. rewrite length_app. lia. Qed.

Lemma len_nonneg {A} (l : list A) : 0 <= len l.
Proof. unfold len. lia. Qed.

Lemma len_zeros n : len (zeros n) = Z.of_nat n.
Proof. unfold len, zeros. by rewrite length_replicate. Qed.

Lemma length_pack fl x : length (pack fl x) = Z.to_nat (bytewidth fl).
Proof. apply length_le_split. Qed.

Lemma len_pack fl x : 0 <= bytewidth fl -> len (pack fl x) = bytewidth fl.
Proof. intros. unfold len. rewrite length_pack. lia. Qed.

Lemma drop_app_exact {A} (l1 l2 : list A) n :
  n = length l1 -> drop n (l1 ++ l2) = l2.
Proof. intros ->. apply drop_app_length. Qed.

Lemma take_app_exact {A} (l1 l2 : list A) n :
  n = length l1 -> take n (l1 ++ l2) = l1.
Proof. intros ->. apply take_app_length. Qed.

(** [pack_into] inside the buffer overwrites [bytewidth] bytes in place. *)
Lemma pack_into_Some fl buf pos x buf' :
  pack_into fl buf pos x = Some buf' ->
  0 <= bytewidth fl -> 0 <= pos -> pos + bytewidth fl <= len buf ->
  in_range fl x = true /\
  buf' = take (Z.to_nat pos) buf ++ pack fl x
           ++ drop (Z.to_nat (pos + bytewidth fl)) buf.
Proof.
  unfold pack_into. intros H Hw Hp Hl.
  destruct (in_range fl x); [|discriminate]. simpl in H.
  destruct (pos <? 0) eqn:E; [lia|].
  destruct (len buf - pos <? bytewidth fl) eqn:E2; [lia|].
  by injection H as <-.
Qed.

Lemma slice_assign_inside buf a n data :
  0 <= a -> 0 <= n -> a + n <= len buf ->
  slice_assign buf a (a + n) data
  = take (Z.to_nat a) buf ++ data ++ drop (Z.to_nat (a + n)) buf.
Proof.
  intros. unfold slice_assign, slice_index.
  destruct (a <? 0) eqn:E1; [lia|].
  destruct (a + n <? 0) eqn:E2; [lia|].
  repeat f_equal; lia.
Qed.

(** ** The builder: primitives *)

Import Builder BuilderSpec.

Lemma offset_written b : wf b -> offset_of b = len (written b).
Proof.
  unfold wf, offset_of, written, len. intros (H & _).
  rewrite length_drop. unfold len in H. lia.
Qed.

Lemma grows_refl b : wf b -> grows [] b b.
Proof. intros W. by split; [|split]. Qed.

Lemma grows_trans p1 p2 b b1 b2 :
  grows p1 b b1 -> grows p2 b1 b2 -> grows (p2 ++ p1) b b2.
Proof.
  intros (_ & E1 & M1) (W2 & E2 & M2). repeat split; try apply W2.
  - by rewrite E2, E1, app_assoc.
  - congruence.
Qed.

Lemma grows_offset p b b' :
  wf b -> grows p b b' -> offset_of b' = offset_of b + len p.
Proof.
  intros W (W' & E & _). rewrite !offset_written by done.
  rewrite E, len_app. lia.
Qed.


Lemma Place_grows x fl b b' :
  Place x fl b = Ok tt b' ->
  wf b -> 0 <= bytewidth fl <= head b ->
  grows (pack fl x) b b'
  /\ head b' = head b - bytewidth fl
  /\ len (Bytes b') = len (Bytes b)
  /\ minalign b' = minalign b
  /\ in_range fl x = true.
Proof.
  unfold Place, Head, enforce_number, Write. intros H (Hh & Hm & Ha) Hw.
  msimpl H. mcase H. simpl in H. mcase H. simplify_eq.
  apply pack_into_Some in E0 as [_ ->]; [|lia..].
  replace (head b - bytewidth fl + bytewidth fl) with (head b) by lia.
  assert (Hl : len (take (Z.to_nat (head b - bytewidth fl)) (Bytes b)
                      ++ pack fl x ++ drop (Z.to_nat (head b)) (Bytes b))
               = len (Bytes b)).
  { rewrite !len_app, len_pack by lia. unfold len in *.
    rewrite length_take, length_drop. lia. }
  repeat split; simpl; try lia.
  unfold written. simpl. apply drop_app_exact.
  rewrite length_take. unfold len in *. lia.
Qed.

Lemma pack_Uint8_0 : pack Uint8Flags 0 = [Byte.x00].
Proof. reflexivity. Qed.

Lemma zeros_S k : zeros (S k) = zeros k ++ [Byte.x00].
Proof.
  unfold zeros. change [Byte.x00] with (replicate 1 Byte.x00).
  rewrite <- replicate_add. f_equal. lia.
Qed.

Lemma repeat_Place_grows k b b' :
  repeatM k (Place 0 Uint8Flags) b = Ok tt b' ->
  wf b -> Z.of_nat k <= head b ->
  grows (zeros k) b b'
  /\ head b' = head b - Z.of_nat k
  /\ len (Bytes b') = len (Bytes b)
  /\ minalign b' = minalign b.
Proof.
  revert b. induction k as [|k IH]; intros b H W Hn; simpl in H.
  - msimpl H. simplify_eq. split; [by apply grows_refl|lia].
  - msimpl H. mcase H. destruct a.
    apply Place_grows in E as (G & Hh & Hl & Hm & _);
      [|done|simpl; lia].
    simpl in Hh.
    apply IH in H as (G' & Hh' & Hl' & Hm'); [|apply G|lia].
    split; [|lia].
    rewrite zeros_S, <- pack_Uint8_0. eapply grows_trans; eauto.
Qed.

Lemma Pad_grows n b b' :
  Pad n b = Ok tt b' ->
  wf b -> n <= head b ->
  grows (zeros (Z.to_nat n)) b b'
  /\ head b' = head b - Z.max 0 n
  /\ len (Bytes b') = len (Bytes b)
  /\ minalign b' = minalign b.
Proof.
  unfold Pad. intros H W Hn.
  apply repeat_Place_grows in H as (G & Hh & Hl & Hm); [|done|].
  - repeat split; try apply G; lia.
  - destruct W. lia.
Qed.

(** One round of the loop of [Prep]: the buffer doubles, the written
    part stays. *)
Lemma growByteBuffer_spec b b1 :
  growByteBuffer b = Ok tt b1 ->
  wf b ->
  let b' := with_head (head b1 + len (Bytes b1) - len (Bytes b)) b1 in
  wf b' /\ written b' = written b /\ meta b' = meta b
  /\ minalign b' = minalign b
  /\ head b <= head b'
  /\ len (Bytes b) < MAX_BUFFER_SIZE
  /\ len (Bytes b') = Z.max 1 (Z.min (2 * len (Bytes b)) MAX_BUFFER_SIZE).
Proof.
  unfold growByteBuffer. intros H (Hh & Hm & Ha).
  mcase H. simplify_eq. apply Z.eqb_neq in E.
  set (n := len (Bytes b)) in *.
  set (newSize := if Z.min (n * 2) MAX_BUFFER_SIZE =? 0 then 1
                  else Z.min (n * 2) MAX_BUFFER_SIZE).
  assert (HN : newSize = Z.max 1 (Z.min (2 * n) MAX_BUFFER_SIZE)).
  { unfold newSize. unfold MAX_BUFFER_SIZE in *.
    destruct (Z.eqb_spec (Z.min (n * 2) (2 ^ 31)) 0); lia. }
  assert (Hn : 0 <= n) by apply len_nonneg.
  assert (Hge : n <= newSize) by (unfold MAX_BUFFER_SIZE in *; lia).
  replace (len (zeros (Z.to_nat newSize))) with (newSize - n + n)
    by (rewrite len_zeros; lia).
  rewrite slice_assign_inside
    by (rewrite ?len_zeros; unfold MAX_BUFFER_SIZE in *; lia).
  replace (newSize - n + n) with newSize by lia.
  rewrite (drop_ge (zeros _))
    by (unfold zeros; rewrite length_replicate; lia).
  rewrite app_nil_r.
  assert (Ht : take (Z.to_nat (newSize - n)) (zeros (Z.to_nat newSize))
               = zeros (Z.to_nat (newSize - n))).
  { unfold zeros. rewrite take_replicate. f_equal. lia. }
  rewrite Ht. simpl.
  assert (Hl : len (zeros (Z.to_nat (newSize - n)) ++ Bytes b) = newSize).
  { rewrite len_app, len_zeros. fold n. lia. }
  rewrite Hl. unfold wf, written, meta. simpl. rewrite Hl.
  repeat split; try lia.
  replace (Z.to_nat (head b + newSize - n))
    with (length (zeros (Z.to_nat (newSize - n))) + Z.to_nat (head b))%nat.
  - by rewrite drop_app_add.
  - unfold zeros. rewrite length_replicate. lia.
Qed.

Lemma Prep_grow_spec fuel need b b' :
  Prep_grow fuel need b = Ok tt b' ->
  wf b ->
  wf b' /\ written b' = written b /\ meta b' = meta b
  /\ minalign b' = minalign b
  /\ head b <= head b' /\ need <= head b'.
Proof.
  revert b. induction fuel as [|fuel IH]; intros b H W; simpl in H.
  - mcase H. simplify_eq. apply Z.ltb_ge in E. split_and!; (done || lia).
  - mcase H.
    + msimpl H. mcase H. destruct a.
      apply growByteBuffer_spec in E0 as (W1 & E1 & M1 & A1 & H1 & _);
        [|done].
      apply IH in H as (W2 & E2 & M2 & A2 & H2 & N2); [|done].
      repeat split; try apply W2; try congruence; lia.
    + simplify_eq. apply Z.ltb_ge in E. split_and!; (done || lia).
Qed.

(** The loop of [Prep] never needs more rounds than the model grants. *)
Lemma Prep_grow_rounds fuel need b :
  wf b ->
  2 ^ 32 <= 2 ^ (Z.of_nat fuel - 2)
            * (if len (Bytes b) =? 0 then 1 else 2 * len (Bytes b)) ->
  forall b', Prep_grow fuel need b <> Raise LoopFuelExhausted b'.
Proof.
  revert b. induction fuel as [|fuel IH]; intros b W Hf b' H; simpl in H.
  - change (2 ^ (Z.of_nat 0 - 2)) with 0 in Hf. lia.
  - mcase H.
    msimpl H. mcase H;
      [destruct a
      |unfold growByteBuffer in E0; mcase E0; congruence].
    pose proof (growByteBuffer_spec _ _ E0 W) as (W1 & _ & _ & _ & _ & Hlt & Hl).
    revert H. apply IH; [done|].
    rewrite Hl. clear IH E0 W1 Hl.
    assert (Hn := len_nonneg (Bytes b)).
    set (n := len (Bytes b)) in *. unfold MAX_BUFFER_SIZE in *.
    destruct fuel as [|[|fuel]].
    + change (2 ^ (Z.of_nat 1 - 2)) with 0 in Hf. lia.
    + change (2 ^ (Z.of_nat 2 - 2)) with 1 in Hf.
      destruct (n =? 0); lia.
    + replace (Z.of_nat (S (S (S fuel))) - 2)
        with (Z.succ (Z.of_nat (S (S fuel)) - 2)) in Hf by lia.
      rewrite Z.pow_succ_r in Hf by lia.
      set (p := 2 ^ (Z.of_nat (S (S fuel)) - 2)) in *.
      assert (0 < p) by (unfold p; apply Z.pow_pos_nonneg; lia).
      destruct (Z.eqb_spec n 0) as [->|Hn0].
      * change (Z.max 1 (Z.min (2 * 0) (2 ^ 31)) =? 0) with false.
        cbv iota. change (Z.max 1 (Z.min (2 * 0) (2 ^ 31))) with 1. lia.
      * destruct (Z.eqb_spec (Z.max 1 (Z.min (2 * n) (2 ^ 31))) 0); [lia|].
        destruct (Z_le_gt_dec (2 ^ 31) (2 * n)).
        -- replace (Z.max 1 (Z.min (2 * n) (2 ^ 31))) with (2 ^ 31) by lia.
           nia.
        -- replace (Z.max 1 (Z.min (2 * n) (2 ^ 31))) with (2 * n) by lia.
           nia.
Qed.

Lemma Prep_grow_total need b :
  wf b -> forall b', Prep_grow Prep_fuel need b <> Raise LoopFuelExhausted b'.
Proof.
  intros W. apply Prep_grow_rounds; [done|].
  assert (Hn := len_nonneg (Bytes b)).
  change (2 ^ (Z.of_nat Prep_fuel - 2)) with (2 ^ 38).
  destruct (len (Bytes b) =? 0) eqn:E; [lia|].
  apply Z.eqb_neq in E. lia.
Qed.

(** ** Alignment arithmetic *)

Lemma land_upper a b : 0 <= b -> 0 <= Z.land a b <= b.
Proof.
  intros Hb. split; [apply Z.land_nonneg; auto|].
  assert (E : b = Z.ldiff b a + Z.land b a).
  { assert (Z.land (Z.ldiff b a) (Z.land b a) = 0)
      by (by rewrite (Z.land_comm b a), Z.land_assoc, Z.land_ldiff,
             Z.land_0_l).
    by rewrite Z.add_nocarry_lxor, Z.lxor_lor, Z.lor_ldiff_and. }
  assert (0 <= Z.ldiff b a) by (apply Z.ldiff_nonneg; auto).
  rewrite (Z.land_comm a b). lia.
Qed.

Lemma prep_pad_bounds o add size :
  1 <= size -> 0 <= prep_pad o add size <= size - 1.
Proof. intros. apply land_upper. lia. Qed.

Lemma prep_pad_size0 o add : 0 <= o + add -> prep_pad o add 0 <= 0.
Proof.
  intros. unfold prep_pad. rewrite Z.succ_lnot. simpl.
  rewrite Z.land_m1_r. lia.
Qed.

Lemma prep_pad_4 o add : prep_pad o add 4 = (- (o + add)) mod 4.
Proof.
  unfold prep_pad. rewrite Z.succ_lnot. change (4 - 1) with (Z.ones 2).
  by rewrite Z.land_ones.
Qed.

Lemma prep_pad_2 o add : prep_pad o add 2 = (- (o + add)) mod 2.
Proof.
  unfold prep_pad. rewrite Z.succ_lnot. change (2 - 1) with (Z.ones 1).
  by rewrite Z.land_ones.
Qed.

Lemma prep_pad_mod4 o add size :
  (o + add) mod 4 = 0 -> prep_pad o add size mod 4 = 0.
Proof.
  intros H. unfold prep_pad. rewrite Z.succ_lnot.
  change 4 with (2 ^ 2). rewrite <- Z.land_ones by lia.
  rewrite <- Z.land_assoc, (Z.land_comm (size - 1)), Z.land_assoc.
  rewrite Z.land_ones by lia. change (2 ^ 2) with 4.
  replace ((- (o + add)) mod 4) with 0.
  - apply Z.land_0_l.
  - symmetry. apply Z.mod_divide; [lia|]. apply Z.divide_opp_r.
    apply Z.mod_divide; [lia|done].
Qed.

(** [Prep]: padding in front, room for [size + additionalBytes] more. *)
Lemma Prep_spec size add b b' :
  Prep size add b = Ok tt b' ->
  wf b -> 0 <= size -> 0 <= add ->
  let pad := Z.to_nat (prep_pad (offset_of b) add size) in
  grows (zeros pad) b b'
  /\ minalign b' = Z.max (minalign b) size
  /\ (1 <= size -> size + add <= head b')
  /\ head b - Z.of_nat pad <= head b'.
Proof.
  unfold Prep, Offset. intros H W Hs Ha. msimpl H.
  fold (prep_pad (offset_of b) add size).
  assert (Hadd : 0 <= offset_of b + add).
  { rewrite offset_written by done. pose proof (len_nonneg (written b)). lia. }
  set (b0 := if minalign b <? size then with_minalign size b else b).
  assert (W0 : wf b0 /\ written b0 = written b /\ meta b0 = meta b
               /\ minalign b0 = Z.max (minalign b) size
               /\ head b0 = head b /\ offset_of b0 = offset_of b).
  { unfold b0. destruct W as (? & ? & ?).
    destruct (Z.ltb_spec (minalign b) size); unfold wf; simpl;
      split_and!; (done || lia). }
  destruct W0 as (W0 & Ew0 & M0 & A0 & H0 & O0).
  assert (H' : match Prep_grow Prep_fuel
                       (prep_pad (offset_of b) add size + size + add) b0 with
               | Ok _ s' => Pad (prep_pad (offset_of b) add size) s'
               | Raise e s' => Raise e s'
               end = Ok tt b').
  { unfold b0. destruct (minalign b <? size); simpl in *; exact H. }
  clear H. mcase H'. destruct a.
  apply Prep_grow_spec in E as (W1 & E1 & M1 & A1 & H1 & N1); [|done].
  assert (Hp : size = 0 /\ prep_pad (offset_of b) add size <= 0
               \/ 0 <= prep_pad (offset_of b) add size <= size - 1).
  { destruct (Z.eq_dec size 0) as [->|].
    - left. split; [done|]. by apply prep_pad_size0.
    - right. apply prep_pad_bounds. lia. }
  apply Pad_grows in H' as (G & Hh & Hl & Hm); [|done|lia].
  split_and!.
  - destruct G as (W2 & E2 & M2). split_and!; [done| |congruence].
    rewrite E2. congruence.
  - congruence.
  - lia.
  - lia.
Qed.

Lemma Prep_offset size add b b' :
  Prep size add b = Ok tt b' ->
  wf b -> 0 <= size -> 0 <= add ->
  offset_of b'
  = offset_of b + Z.max 0 (prep_pad (offset_of b) add size).
Proof.
  intros H W Hs Ha. apply Prep_spec in H as (G & _); try done.
  rewrite (grows_offset _ _ _ W G), len_zeros. lia.
Qed.

(** ** The read side: prefixes do not disturb what was written *)

Lemma pos_of_app pre w o : pos_of (pre ++ w) o = len pre + pos_of w o.
Proof. unfold pos_of. rewrite len_app. lia. Qed.

Lemma get_bytes_shift pre w p n x :
  Reader.get_bytes w p n = Some x ->
  Reader.get_bytes (pre ++ w) (len pre + p) n = Some x.
Proof.
  unfold Reader.get_bytes. intros H.
  destruct (andb _ _) eqn:E in H; [|done]. simplify_eq.
  apply andb_true_iff in E as [E1 E2].
  apply Z.leb_le in E1, E2.
  pose proof (len_nonneg pre). rewrite len_app.
  destruct (andb _ _) eqn:E'.
  - f_equal. f_equal.
    replace (Z.to_nat (len pre + p)) with (length pre + Z.to_nat p)%nat
      by (unfold len; lia).
    by rewrite drop_app_add.
  - apply andb_false_iff in E' as [E'|E'];
      [apply Z.leb_gt in E'|apply Z.leb_gt in E']; lia.
Qed.

Lemma get_bytes_here x rest :
  Reader.get_bytes (x ++ rest) 0 (length x) = Some x.
Proof.
  unfold Reader.get_bytes. rewrite len_app. unfold len.
  destruct (andb _ _) eqn:E.
  - change (Z.to_nat 0) with 0%nat. by rewrite drop_0, take_app_length.
  - apply andb_false_iff in E as [E|E]; apply Z.leb_gt in E; lia.
Qed.

Lemma get_bytes_at pre x rest p :
  p = len pre ->
  Reader.get_bytes (pre ++ x ++ rest) p (length x) = Some x.
Proof.
  intros ->. replace (len pre) with (len pre + 0) by lia.
  apply get_bytes_shift, get_bytes_here.
Qed.

Lemma Get_shift fl pre w p x :
  Reader.Get fl w p = Some x ->
  Reader.Get fl (pre ++ w) (len pre + p) = Some x.
Proof.
  unfold Reader.Get. intros H.
  destruct (Reader.get_bytes w p _) as [bs|] eqn:E; [|done].
  by rewrite (get_bytes_shift _ _ _ _ _ E).
Qed.

Lemma unpack_pack fl x :
  fl = Uint16Flags \/ fl = Uint32Flags \/ fl = Int32Flags ->
  in_range fl x = true -> Reader.unpack fl (pack fl x) = x.
Proof.
  unfold Reader.unpack, pack, in_range. intros Hfl Hr.
  apply andb_true_iff in Hr as [H1 H2]. apply Z.leb_le in H1, H2.
  rewrite le_combine_split.
  destruct Hfl as [->|[->| ->]]; simpl in *.
  - change (2 ^ (Z.of_nat (Z.to_nat 2) * 8)) with 65536.
    rewrite Z.mod_small; lia.
  - change (2 ^ (Z.of_nat (Z.to_nat 4) * 8)) with 4294967296.
    rewrite Z.mod_small; lia.
  - change (2 ^ (8 * 4)) with 4294967296.
    change (2 ^ (Z.of_nat (Z.to_nat 4) * 8)) with 4294967296.
    destruct (Z_lt_ge_dec x 0).
    + replace (x mod 4294967296) with (x + 4294967296).
      * destruct (Z.ltb_spec 2147483647 (x + 4294967296)); lia.
      * apply Z.mod_unique with (q := -1); lia.
    + rewrite Z.mod_small by lia.
      destruct (Z.ltb_spec 2147483647 x); lia.
Qed.

Lemma Get_pack_at fl pre x rest p :
  fl = Uint16Flags \/ fl = Uint32Flags \/ fl = Int32Flags ->
  in_range fl x = true -> p = len pre ->
  Reader.Get fl (pre ++ pack fl x ++ rest) p = Some x.
Proof.
  intros Hfl Hr ->. unfold Reader.Get.
  rewrite <- (length_pack fl x), get_bytes_at by done. simpl.
  by rewrite unpack_pack.
Qed.

Lemma Offset_shift pre w p vo x :
  Reader.Offset w p vo = Some x ->
  Reader.Offset (pre ++ w) (len pre + p) vo = Some x.
Proof.
  unfold Reader.Offset. intros H.
  destruct (Reader.Get SOffsetTFlags w p) as [so|] eqn:E1; [|done].
  simpl in H. rewrite (Get_shift _ _ _ _ _ E1). simpl.
  destruct (Reader.Get VOffsetTFlags w (p - so)) as [ve|] eqn:E2; [|done].
  simpl in H.
  replace (len pre + p - so) with (len pre + (p - so)) by lia.
  rewrite (Get_shift _ _ _ _ _ E2). simpl.
  destruct (vo <? ve); [|done].
  replace (len pre + (p - so) + vo) with (len pre + (p - so + vo)) by lia.
  by apply Get_shift.
Qed.

Lemma Indirect_shift pre w p q :
  Reader.Indirect w p = Some q ->
  Reader.Indirect (pre ++ w) (len pre + p) = Some (len pre + q).
Proof.
  unfold Reader.Indirect. intros H.
  destruct (Reader.Get UOffsetTFlags w p) as [d|] eqn:E; [|done].
  simpl in H. simplify_eq. rewrite (Get_shift _ _ _ _ _ E). simpl.
  f_equal. lia.
Qed.

Lemma VectorLen_shift pre w p o n :
  Reader.VectorLen w p o = Some n ->
  Reader.VectorLen (pre ++ w) (len pre + p) o = Some n.
Proof.
  unfold Reader.VectorLen. intros H.
  destruct (Reader.Indirect w (o + p)) as [v|] eqn:E; [|done].
  simpl in H.
  replace (o + (len pre + p)) with (len pre + (o + p)) by lia.
  rewrite (Indirect_shift _ _ _ _ E). simpl. by apply Get_shift.
Qed.

Lemma Vector_shift pre w p o q :
  Reader.Vector w p o = Some q ->
  Reader.Vector (pre ++ w) (len pre + p) o = Some (len pre + q).
Proof.
  unfold Reader.Vector. intros H.
  destruct (Reader.Indirect w (o + p)) as [v|] eqn:E; [|done].
  simpl in H. simplify_eq.
  replace (o + (len pre + p)) with (len pre + (o + p)) by lia.
  rewrite (Indirect_shift _ _ _ _ E). simpl. f_equal. lia.
Qed.

Lemma attribute_bytes_shift pre w p bs :
  Reader.attribute_bytes w p = Some bs ->
  Reader.attribute_bytes (pre ++ w) (len pre + p) = Some bs.
Proof.
  unfold Reader.attribute_bytes. intros H.
  destruct (Reader.Offset w p 4) as [o|] eqn:E; [|done].
  simpl in H. rewrite (Offset_shift _ _ _ _ _ E). simpl.
  destruct (o =? 0); [done|].
  destruct (Reader.VectorLen w p o) as [n|] eqn:E1; [|done].
  simpl in H. rewrite (VectorLen_shift _ _ _ _ _ E1). simpl.
  destruct (Reader.Vector w p o) as [st|] eqn:E2; [|done].
  simpl in H. rewrite (Vector_shift _ _ _ _ _ E2). simpl.
  by apply get_bytes_shift.
Qed.

Lemma table_vector_shift {A} (read : list byte -> Z -> option A) pre w p xs :
  (forall q x, read w q = Some x -> read (pre ++ w) (len pre + q) = Some x) ->
  Reader.table_vector read w p = Some xs ->
  Reader.table_vector read (pre ++ w) (len pre + p) = Some xs.
Proof.
  unfold Reader.table_vector. intros Hread H.
  destruct (Reader.Offset w p 4) as [o|] eqn:E; [|done].
  simpl in H. rewrite (Offset_shift _ _ _ _ _ E). simpl.
  destruct (o =? 0); [done|].
  destruct (Reader.VectorLen w p o) as [n|] eqn:E1; [|done].
  simpl in H. rewrite (VectorLen_shift _ _ _ _ _ E1). simpl.
  destruct (Reader.Vector w p o) as [st|] eqn:E2; [|done].
  simpl in H. rewrite (Vector_shift _ _ _ _ _ E2). simpl.
  apply mapM_Some in H. apply mapM_Some.
  eapply Forall2_impl; [exact H|]. intros j x Hj. simpl in *.
  destruct (Reader.Indirect w (st + 4 * Z.of_nat j)) as [t|] eqn:E3; [|done].
  simpl in Hj.
  replace (len pre + st + 4 * Z.of_nat j)
    with (len pre + (st + 4 * Z.of_nat j)) by lia.
  rewrite (Indirect_shift _ _ _ _ E3). simpl. by apply Hread.
Qed.

Lemma example_attributes_shift pre w p bss :
  Reader.example_attributes w p = Some bss ->
  Reader.example_attributes (pre ++ w) (len pre + p) = Some bss.
Proof. apply table_vector_shift. intros. by apply attribute_bytes_shift. Qed.

Lemma shard_examples_shift pre w p xs :
  Reader.shard_examples w p = Some xs ->
  Reader.shard_examples (pre ++ w) (len pre + p) = Some xs.
Proof.
  apply table_vector_shift. intros. by apply example_attributes_shift.
Qed.

(** ** The builder: composite operations *)

Lemma PrependUOffsetTRelative_spec off b b' :
  PrependUOffsetTRelative off b = Ok tt b' ->
  wf b ->
  let pad := Z.to_nat (prep_pad (offset_of b) 0 4) in
  let s := offset_of b + Z.of_nat pad + 4 in
  grows (pack UOffsetTFlags (s - off) ++ zeros pad) b b'
  /\ minalign b' = Z.max (minalign b) 4
  /\ off <= s - 4
  /\ in_range UOffsetTFlags (s - off) = true
  /\ head b - Z.of_nat pad - 4 <= head b'.
Proof.
  unfold PrependUOffsetTRelative, PlaceUOffsetT, Offset. intros H W.
  msimpl H. mcase H. destruct a.
  change (bytewidth UOffsetTFlags) with 4 in *.
  pose proof (Prep_spec _ _ _ _ E W) as (G & Hm & Hroom & Hhd); [lia..|].
  specialize (Hroom ltac:(lia)).
  pose proof (grows_offset _ _ _ W G) as Ho. rewrite len_zeros in Ho.
  mcase H.
  apply negb_false_iff, Z.leb_le in E0.
  apply Place_grows in H as (G' & Hh' & _ & Hm' & Hr);
    [|apply G|simpl; lia].
  change (bytewidth UOffsetTFlags) with 4 in *. rewrite Ho in *.
  split_and!; try done; try lia.
  - replace (offset_of b + Z.of_nat (Z.to_nat (prep_pad (offset_of b) 0 4))
             + 4 - off)
      with (offset_of b + Z.of_nat (Z.to_nat (prep_pad (offset_of b) 0 4))
            - off + 4) by lia.
    eapply grows_trans; eauto.
  - replace (offset_of b + Z.of_nat (Z.to_nat (prep_pad (offset_of b) 0 4))
             + 4 - off)
      with (offset_of b + Z.of_nat (Z.to_nat (prep_pad (offset_of b) 0 4))
            - off + 4) by lia.
    done.
Qed.

Lemma Prepend_spec fl x b b' :
  Prepend fl x b = Ok tt b' ->
  wf b -> 1 <= bytewidth fl ->
  let pad := Z.to_nat (prep_pad (offset_of b) 0 (bytewidth fl)) in
  grows (pack fl x ++ zeros pad) b b'
  /\ minalign b' = Z.max (minalign b) (bytewidth fl)
  /\ in_range fl x = true.
Proof.
  unfold Prepend. intros H W Hw. msimpl H. mcase H. destruct a.
  pose proof (Prep_spec _ _ _ _ E W) as (G & Hm & Hroom & _); [lia..|].
  specialize (Hroom Hw).
  apply Place_grows in H as (G' & Hh' & _ & Hm' & Hr); [|apply G|lia].
  split_and!; try done; try lia. eapply grows_trans; eauto.
Qed.

(** An aligned cursor needs no padding. *)
Lemma prep_pad_4_aligned o : o mod 4 = 0 -> prep_pad o 0 4 = 0.
Proof.
  intros H. rewrite prep_pad_4, Z.add_0_r.
  apply Z.mod_divide; [lia|]. apply Z.divide_opp_r. by apply Z.mod_divide.
Qed.

Lemma prep_pad_2_aligned o : o mod 2 = 0 -> prep_pad o 0 2 = 0.
Proof.
  intros H. rewrite prep_pad_2, Z.add_0_r.
  apply Z.mod_divide; [lia|]. apply Z.divide_opp_r. by apply Z.mod_divide.
Qed.

Lemma prep_pad_4_makes_aligned o add :
  (o + Z.of_nat (Z.to_nat (prep_pad o add 4)) + add) mod 4 = 0.
Proof.
  rewrite prep_pad_4.
  assert (0 <= (- (o + add)) mod 4 < 4) by (apply Z.mod_pos_bound; lia).
  rewrite Z2Nat.id by lia.
  replace (o + (- (o + add)) mod 4 + add)
    with ((o + add) + (- (o + add)) mod 4) by lia.
  rewrite Z.add_mod_idemp_r by lia.
  replace (o + add + - (o + add)) with 0 by lia. done.
Qed.

Lemma vt_ok_app pre w o : vt_ok w o -> vt_ok (pre ++ w) o.
Proof.
  intros (vs & H1 & Hv & H2). exists vs. rewrite pos_of_app.
  split_and!; [by apply Get_shift|done|].
  rewrite <- Z.add_assoc. by apply Get_shift.
Qed.

Lemma bytes_at_app pre w o bs : bytes_at w o bs -> bytes_at (pre ++ w) o bs.
Proof.
  intros (Ho & H1 & H2). unfold bytes_at. rewrite pos_of_app.
  split_and!; [done|by apply Get_shift|].
  rewrite <- Z.add_assoc. by apply get_bytes_shift.
Qed.

Lemma table_at_app pre w o c : table_at w o c -> table_at (pre ++ w) o c.
Proof.
  intros (Ho & H1 & H2). unfold table_at. rewrite !pos_of_app.
  split_and!; [done|by apply Offset_shift|].
  rewrite <- Z.add_assoc. by apply Indirect_shift.
Qed.

Lemma offsets_at_app pre w o offs :
  offsets_at w o offs -> offsets_at (pre ++ w) o offs.
Proof.
  intros (Ho & H1 & H2). unfold offsets_at. rewrite !pos_of_app.
  split_and!; [done|by apply Get_shift|].
  intros j x Hj. rewrite pos_of_app, <- !Z.add_assoc.
  apply Indirect_shift. rewrite !Z.add_assoc. by apply H2.
Qed.

Lemma zeros_app n m : zeros n ++ zeros m = zeros (n + m).
Proof. unfold zeros. by rewrite replicate_add. Qed.

(** The byte vector of the encoder: [StartVector(1, n, alignment)], the
    cursor moved back by [n], the bytes copied at the cursor, and
    [EndVector()]. *)
Lemma prep_pad_pow2 o add k :
  0 <= k -> prep_pad o add (2 ^ k) = (- (o + add)) mod 2 ^ k.
Proof.
  intros Hk. unfold prep_pad. rewrite Z.succ_lnot.
  replace (2 ^ k - 1) with (Z.ones k) by (rewrite Z.ones_equiv; lia).
  by rewrite Z.land_ones.
Qed.

Lemma prep_pad_makes_aligned o add k :
  0 <= k ->
  (o + Z.of_nat (Z.to_nat (prep_pad o add (2 ^ k))) + add) mod 2 ^ k = 0.
Proof.
  intros Hk. rewrite prep_pad_pow2 by done.
  assert (0 < 2 ^ k) by (apply Z.pow_pos_nonneg; lia).
  assert (0 <= (- (o + add)) mod 2 ^ k < 2 ^ k)
    by (apply Z.mod_pos_bound; lia).
  rewrite Z2Nat.id by lia.
  replace (o + (- (o + add)) mod 2 ^ k + add)
    with ((o + add) + (- (o + add)) mod 2 ^ k) by lia.
  rewrite Z.add_mod_idemp_r by lia.
  replace (o + add + - (o + add)) with 0 by lia. by apply Z.mod_0_l; lia.
Qed.

(** The byte vector the encoder builds: [StartVector], the cursor moved
    back over the payload, the payload copied, [EndVector].  The payload
    starts at a multiple of the requested alignment, counted from the end
    of the buffer, when that alignment is a power of two. *)
Lemma byte_vector_spec_aligned a bs b r b1 off b4 :
  let n := len bs in
  StartVector 1 n a b = Ok r b1 ->
  EndVector
    (with_vectorNumElems (Some n)
       (with_Bytes (slice_assign (Bytes b1) (head b1 - n) (head b1 - n + n) bs)
          (with_head (head b1 - n) b1))) = Ok off b4 ->
  idle b -> 0 <= a ->
  exists pad,
    written b4 = pack UOffsetTFlags n ++ bs ++ zeros pad ++ written b
    /\ idle b4 /\ off = offset_of b4
    /\ vtables b4 = vtables b
    /\ vectorNumElems b1 = Some n
    /\ minalign b4 = Z.max (Z.max (minalign b) 4) a
    /\ in_range UOffsetTFlags n = true
    /\ (forall k, 0 <= k -> a = 2 ^ k -> (off - 4) mod a = 0)
    /\ written b4 = pack UOffsetTFlags n ++ bs ++ written b1
    /\ head b4 = head b1 - n - 4.
Proof.
  intros n HS HE (W & Hnest & Hfd & Hvt) Ha.
  assert (Hn : 0 <= n) by apply len_nonneg.
  unfold StartVector, assertNotNested, Offset in HS. msimpl HS.
  rewrite Hnest in HS. cbv beta iota in HS.
  change (bytewidth Uint32Flags) with 4 in HS. rewrite Z.mul_1_l in HS.
  mres HS E1 u1 s1. mres HS E2 u2 s2.
  injection HS as _ Hs2. subst s2. destruct u1, u2.
  set (b0 := with_vectorNumElems (Some n) (with_nested true b)) in *.
  assert (W0 : wf b0) by done.
  pose proof (Prep_spec _ _ _ _ E1 W0) as (G1 & Hm1 & Hr1 & _); [lia..|].
  specialize (Hr1 ltac:(lia)).
  pose proof (grows_offset _ _ _ W0 G1) as Ho1. rewrite len_zeros in Ho1.
  assert (Hal : (offset_of s1 + n) mod 4 = 0).
  { rewrite Ho1. apply prep_pad_4_makes_aligned. }
  assert (W1 : wf s1) by apply G1.
  pose proof (Prep_spec _ _ _ _ E2 W1) as (G2 & Hm2 & Hr2 & Hh2); [lia..|].
  pose proof (prep_pad_mod4 _ _ a Hal) as Hp4.
  assert (Hroom : 4 + n <= head b1).
  { destruct (Z.eq_dec a 0) as [->|Hne].
    - pose proof (prep_pad_size0 (offset_of s1) n).
      assert (0 <= offset_of s1 + n).
      { rewrite offset_written by done.
        pose proof (len_nonneg (written s1)). lia. }
      lia.
    - pose proof (prep_pad_bounds (offset_of s1) n a ltac:(lia)) as Hb.
      specialize (Hr2 ltac:(lia)).
      destruct (Z.eq_dec (prep_pad (offset_of s1) n a) 0) as [Hz|Hnz].
      + rewrite Hz in Hh2. simpl in Hh2. lia.
      + assert (4 <= prep_pad (offset_of s1) n a).
        { apply Z.mod_divide in Hp4; [|lia]. destruct Hp4 as [k Hk]. lia. }
        lia. }
  destruct G2 as (W2 & Ew2 & M2). destruct G1 as (_ & Ew1 & M1).
  assert (Hl1 : head b1 <= len (Bytes b1)) by apply W2.
  set (b3 := with_vectorNumElems _ _) in HE.
  assert (Hb3 : Bytes b3
                = take (Z.to_nat (head b1 - n)) (Bytes b1) ++ bs
                    ++ drop (Z.to_nat (head b1)) (Bytes b1)).
  { unfold b3. simpl. rewrite slice_assign_inside by lia.
    by replace (head b1 - n + n) with (head b1) by lia. }
  assert (Hlen3 : len (Bytes b3) = len (Bytes b1)).
  { rewrite Hb3, !len_app. unfold len, n, len in *.
    rewrite length_take, length_drop. lia. }
  assert (W3 : wf b3).
  { destruct W2 as (? & ? & ?). unfold wf. rewrite Hlen3.
    unfold b3; simpl. lia. }
  assert (Ew3 : written b3 = bs ++ written b1).
  { unfold written at 1. rewrite Hb3. unfold b3; simpl.
    apply drop_app_exact. rewrite length_take. unfold len, n, len in *. lia. }
  assert (Hmeta : nested b1 = true /\ vectorNumElems b1 = Some n
                  /\ vtables b1 = vtables b
                  /\ forceDefaults b1 = forceDefaults b).
  { unfold meta in M1, M2. unfold b0 in M1. simpl in M1.
    injection M1 as ? ? ? ? ? ? ?. injection M2 as ? ? ? ? ? ? ?.
    split_and!; congruence. }
  destruct Hmeta as (Hn1 & Hv1 & Hvt1 & Hfd1).
  unfold EndVector, assertNested, Offset, PlaceUOffsetT in HE. msimpl HE.
  replace (nested b3) with true in HE by (unfold b3; simpl; congruence).
  cbv beta iota in HE.
  replace (vectorNumElems (with_nested false b3)) with (Some n) in HE
    by done.
  cbv beta iota in HE. mres HE E4 u4 s4.
  injection HE as Hoff Hb4. subst off b4. destruct u4.
  apply Place_grows in E4 as (G4 & Hh4 & Hl4 & Hm4 & Hr4);
    [|done|unfold b3; simpl; lia].
  destruct G4 as (W4 & Ew4 & M4).
  exists (Z.to_nat (prep_pad (offset_of s1) n a)
          + Z.to_nat (prep_pad (offset_of b0) n 4))%nat.
  assert (Ew : written (with_vectorNumElems None s4)
               = pack UOffsetTFlags n ++ bs
                   ++ zeros (Z.to_nat (prep_pad (offset_of s1) n a)
                             + Z.to_nat (prep_pad (offset_of b0) n 4))
                   ++ written b).
  { change (written (with_vectorNumElems None s4)) with (written s4).
    rewrite Ew4.
    change (written (with_nested false b3)) with (written b3).
    rewrite Ew3, Ew2, Ew1, <- zeros_app, <- !app_assoc. done. }
  unfold meta in M4. injection M4 as ? ? ? ? ? ? ?.
  split_and!; try done.
  - unfold idle. split_and!; try done.
    + simpl. unfold b3 in *. simpl in *. congruence.
    + intros o Ho. rewrite Ew, !app_assoc. apply vt_ok_app.
      apply Hvt. simpl in Ho. unfold b3 in *. simpl in *. congruence.
  - simpl. unfold b3 in *. simpl in *. congruence.
  - simpl. rewrite Hm4. unfold b3. simpl. rewrite Hm2, Hm1. done.
  - intros k Hk ->.
    assert (W5 : wf (with_vectorNumElems None s4)) by done.
    rewrite (offset_written _ W5).
    change (written (with_vectorNumElems None s4)) with (written s4).
    rewrite Ew4.
    change (written (with_nested false b3)) with (written b3).
    rewrite Ew3, Ew2, !len_app, len_pack, len_zeros by done.
    change (bytewidth UOffsetTFlags) with 4.
    rewrite <- (offset_written _ W1). fold n.
    replace (4 + (n + (Z.of_nat (Z.to_nat (prep_pad (offset_of s1) n (2 ^ k)))
                       + offset_of s1)) - 4)
      with (offset_of s1
            + Z.of_nat (Z.to_nat (prep_pad (offset_of s1) n (2 ^ k))) + n)
      by lia.
    by apply prep_pad_makes_aligned.
  - change (written (with_vectorNumElems None s4)) with (written s4).
    rewrite Ew4.
    change (written (with_nested false b3)) with (written b3).
    by rewrite Ew3.
Qed.

Lemma byte_vector_spec a bs b r b1 off b4 :
  let n := len bs in
  StartVector 1 n a b = Ok r b1 ->
  EndVector
    (with_vectorNumElems (Some n)
       (with_Bytes (slice_assign (Bytes b1) (head b1 - n) (head b1 - n + n) bs)
          (with_head (head b1 - n) b1))) = Ok off b4 ->
  idle b -> 0 <= a ->
  exists pad,
    written b4 = pack UOffsetTFlags n ++ bs ++ zeros pad ++ written b
    /\ idle b4 /\ off = offset_of b4
    /\ vtables b4 = vtables b
    /\ vectorNumElems b1 = Some n
    /\ minalign b4 = Z.max (Z.max (minalign b) 4) a
    /\ in_range UOffsetTFlags n = true.
Proof.
  intros n HS HE Hidle Ha.
  destruct (byte_vector_spec_aligned _ _ _ _ _ _ _ HS HE Hidle Ha)
    as (pad & ? & ? & ? & ? & ? & ? & ? & _).
  exists pad. by split_and!.
Qed.

Lemma bytes_at_front bs rest :
  in_range UOffsetTFlags (len bs) = true ->
  let w := pack UOffsetTFlags (len bs) ++ bs ++ rest in
  bytes_at w (len w) bs.
Proof.
  intros Hr w. unfold bytes_at, pos_of.
  assert (0 <= len rest) by apply len_nonneg.
  assert (0 <= len bs) by apply len_nonneg.
  split_and!.
  - unfold w. rewrite !len_app, len_pack by done. simpl. lia.
  - replace (len w - len w) with (len (@nil byte)) by (unfold len; simpl; lia).
    change w with ([] ++ w). apply Get_pack_at; auto.
  - unfold w. apply get_bytes_at. rewrite len_pack by done. simpl. lia.
Qed.

(** [Write] at a position inside the written part. *)
Lemma Write_spec fl pos x b b' :
  Write fl pos x b = Ok tt b' ->
  wf b -> 0 <= bytewidth fl -> head b <= pos ->
  pos + bytewidth fl <= len (Bytes b) ->
  wf b' /\ head b' = head b /\ meta b' = meta b
  /\ minalign b' = minalign b /\ in_range fl x = true
  /\ written b'
     = take (Z.to_nat (pos - head b)) (written b) ++ pack fl x
         ++ drop (Z.to_nat (pos - head b + bytewidth fl)) (written b).
Proof.
  unfold Write. intros H (Hh & Hm & Ha) Hw Hp Hl.
  mcase H. injection H as <-.
  apply pack_into_Some in E as [Hr ->]; [|lia..].
  assert (Hlen : len (take (Z.to_nat pos) (Bytes b) ++ pack fl x
                        ++ drop (Z.to_nat (pos + bytewidth fl)) (Bytes b))
                 = len (Bytes b)).
  { rewrite !len_app, len_pack by lia. unfold len in *.
    rewrite length_take, length_drop. lia. }
  unfold wf, written. simpl. rewrite Hlen. split_and!; try done; try lia.
  rewrite drop_app_le by (rewrite length_take; unfold len in *; lia).
  f_equal.
  - rewrite take_drop_commute. do 2 f_equal. lia.
  - f_equal. rewrite drop_drop. f_equal. lia.
Qed.

Lemma StartObject_inv b b1 :
  StartObject 1 b = Ok tt b1 -> nested b = false ->
  b1 = with_nested true
         (with_objectEnd (Some (offset_of b))
            (with_current_vtable (Some [0]) b)).
Proof.
  unfold StartObject, assertNotNested, Offset. intros H Hn. msimpl H.
  rewrite Hn in H. cbv beta iota in H. by injection H as <-.
Qed.

Lemma PrependSOffsetTRelative_spec off b b' :
  PrependSOffsetTRelative off b = Ok tt b' ->
  wf b ->
  let pad := Z.to_nat (prep_pad (offset_of b) 0 4) in
  let s := offset_of b + Z.of_nat pad + 4 in
  grows (pack SOffsetTFlags (s - off) ++ zeros pad) b b'
  /\ minalign b' = Z.max (minalign b) 4
  /\ in_range SOffsetTFlags (s - off) = true.
Proof.
  unfold PrependSOffsetTRelative, PlaceSOffsetT, Offset. intros H W.
  msimpl H. mres H E u s1. destruct u.
  change (bytewidth SOffsetTFlags) with 4 in *.
  pose proof (Prep_spec _ _ _ _ E W) as (G & Hm & Hroom & _); [lia..|].
  specialize (Hroom ltac:(lia)).
  pose proof (grows_offset _ _ _ W G) as Ho. rewrite len_zeros in Ho.
  mcase H.
  apply Place_grows in H as (G' & Hh' & _ & Hm' & Hr);
    [|apply G|simpl; lia].
  rewrite Ho in *.
  replace (offset_of b + Z.of_nat (Z.to_nat (prep_pad (offset_of b) 0 4))
           + 4 - off)
    with (offset_of b + Z.of_nat (Z.to_nat (prep_pad (offset_of b) 0 4))
          - off + 4) by lia.
  split_and!; try done; try lia.
  eapply grows_trans; eauto.
Qed.

(** The field of a one-field table: the offset is prepended and recorded
    in slot 0. *)
Lemma slot_step child b1 b2 :
  PrependUOffsetTRelativeSlot 0 child 0 b1 = Ok tt b2 ->
  wf b1 -> nested b1 = true -> forceDefaults b1 = false ->
  current_vtable b1 = Some [0] -> child <> 0 ->
  let pad := Z.to_nat (prep_pad (offset_of b1) 0 4) in
  let s := offset_of b1 + Z.of_nat pad + 4 in
  wf b2
  /\ written b2 = pack UOffsetTFlags (s - child) ++ zeros pad ++ written b1
  /\ meta b2 = meta (with_current_vtable (Some [s]) b1)
  /\ in_range UOffsetTFlags (s - child) = true
  /\ child <= s - 4 /\ s mod 4 = 0 /\ offset_of b2 = s.
Proof.
  unfold PrependUOffsetTRelativeSlot, Slot, assertNested, Offset.
  intros H W Hn Hfd Hcv Hc. msimpl H. rewrite Hfd in H.
  destruct (Z.eqb_spec child 0) as [|_]; [done|].
  cbv beta iota in H. change (negb false || false) with true in H.
  cbv beta iota in H. mres H E u s1. destruct u.
  pose proof (PrependUOffsetTRelative_spec _ _ _ E W)
    as (G & Hm & Hle & Hr & _).
  pose proof (grows_offset _ _ _ W G) as Ho.
  rewrite len_app, len_pack, len_zeros in Ho by done.
  change (bytewidth UOffsetTFlags) with 4 in Ho.
  destruct G as (W1 & Ew & M1).
  unfold meta in M1. injection M1 as ? ? ? ? ? ? ?.
  replace (nested s1) with true in H by congruence.
  cbv beta iota in H.
  replace (current_vtable s1) with (Some [0]) in H by congruence.
  cbv beta iota in H. change (len [0]) with 1 in H.
  change ((0 <=? 0) && (0 <? 1)) with true in H. cbv beta iota in H.
  injection H as <-.
  split_and!; try done.
  - unfold meta. simpl. rewrite Ho, H1, H2, H3, H4, H5, H6.
    by rewrite (Z.add_comm 4), Z.add_assoc.
  - pose proof (prep_pad_4_makes_aligned (offset_of b1) 0) as Hal.
    rewrite Z.add_0_r in Hal. 
    rewrite <- Z.add_mod_idemp_l by lia. rewrite Hal. done.
  - change (offset_of (with_current_vtable _ s1)) with (offset_of s1). lia.
Qed.

Lemma Prepend_V_aligned x b b' :
  Prepend VOffsetTFlags x b = Ok tt b' ->
  wf b -> offset_of b mod 2 = 0 ->
  grows (pack VOffsetTFlags x) b b'
  /\ offset_of b' = offset_of b + 2
  /\ in_range VOffsetTFlags x = true.
Proof.
  intros H W Hal.
  apply Prepend_spec in H as (G & _ & Hr); [|done|simpl; lia].
  change (bytewidth VOffsetTFlags) with 2 in G.
  rewrite prep_pad_2_aligned in G by done.
  change (zeros (Z.to_nat 0)) with (@nil byte) in G.
  rewrite app_nil_r in G.
  pose proof (grows_offset _ _ _ W G) as Ho.
  rewrite len_pack in Ho by done. done.
Qed.

Lemma mod4_mod2 x : x mod 4 = 0 -> x mod 2 = 0.
Proof.
  intros H. apply Z.mod_divide in H; [|lia]. destruct H as [k ->].
  replace (k * 4) with (k * 2 * 2) by lia. apply Z.mod_mul. lia.
Qed.

Lemma mod2_add2 x : x mod 2 = 0 -> (x + 2) mod 2 = 0.
Proof.
  intros H. replace (x + 2) with (x + 1 * 2) by lia.
  by rewrite Z.mod_add by lia.
Qed.

Lemma mod4_add4 x : x mod 4 = 0 -> (x + 4) mod 4 = 0.
Proof.
  intros H. replace (x + 4) with (x + 1 * 4) by lia.
  by rewrite Z.mod_add by lia.
Qed.

Lemma Get_pack_front fl x rest :
  fl = Uint16Flags \/ fl = Uint32Flags \/ fl = Int32Flags ->
  in_range fl x = true ->
  Reader.Get fl (pack fl x ++ rest) 0 = Some x.
Proof. intros. by apply (Get_pack_at fl []). Qed.

(** [WriteVtable] for a table whose single field was written at offset
    [s]: either a new vtable is written in front of the table, or the
    table points to the vtable kept from an earlier table. *)
Lemma WriteVtable_one_field s oe b2 t b3 :
  WriteVtable b2 = Ok t b3 ->
  wf b2 -> offset_of b2 = s -> s mod 4 = 0 -> 0 < s ->
  current_vtable b2 = Some [s] -> objectEnd b2 = Some oe ->
  (forall o, vtables b2 !! [4] = Some o -> vt_ok (written b2) o) ->
  t = s + 4 /\ wf b3
  /\ (exists pre, written b3 = pre ++ written b2
                  /\ pos_of (written b3) t + 4 = len pre)
  /\ Reader.Offset (written b3) (pos_of (written b3) t) 4 = Some 4
  /\ (forall o, vtables b3 !! [4] = Some o -> vt_ok (written b3) o)
  /\ nested b3 = nested b2 /\ forceDefaults b3 = forceDefaults b2.
Proof.
  intros H W Hs Hal Hpos Hcv Hoe Hvt.
  unfold WriteVtable, Offset in H. msimpl H.
  mres H E1 u1 s1. destruct u1.
  pose proof (PrependSOffsetTRelative_spec _ _ _ E1 W) as (G1 & _ & Hr1).
  rewrite Hs, prep_pad_4_aligned in G1, Hr1 by done.
  change (zeros (Z.to_nat 0)) with (@nil byte) in G1.
  rewrite app_nil_r in G1.
  change (Z.of_nat (Z.to_nat 0)) with 0 in G1, Hr1.
  replace (s + 0 + 4 - 0) with (s + 4) in G1, Hr1 by lia.
  pose proof (grows_offset _ _ _ W G1) as Ho1.
  rewrite len_pack, Hs in Ho1 by done.
  change (bytewidth SOffsetTFlags) with 4 in Ho1.
  destruct G1 as (W1 & Ew1 & M1).
  unfold meta in M1. injection M1 as Hcv1 Hoe1 Hvt1 Hn1 Hfd1 Hfin1 Hvn1.
  rewrite Hcv1, Hcv, Ho1, Hvt1 in H. cbv beta iota in H.
  change (rev [s]) with [s] in H.
  assert (Hkey : vtKey_loop (s + 4) [s] true = [4]).
  { simpl. destruct (Z.eqb_spec s 0) as [|_]; [lia|]. f_equal. lia. }
  rewrite Hkey in H. unfold Head in H.
  destruct (vtables b2 !! [4]) as [vt2|] eqn:Hlook.
  - (* an equal vtable exists *)
    msimpl H.
    assert (Hhs : len (Bytes s1) - (s + 4) = head s1).
    { unfold offset_of in Ho1. lia. }
    rewrite Hhs in H.
    change (head (with_head (head s1) s1)) with (head s1) in H.
    mres H E2 u2 s2. destruct u2. injection H as <- <-.
    assert (W1' : wf (with_head (head s1) s1)) by done.
    pose proof (Write_spec _ _ _ _ _ E2 W1') as (W2 & Hh2 & M2 & _ & Hr2 & Ew2).
    { simpl. lia. }
    { simpl. lia. }
    { change (bytewidth SOffsetTFlags) with 4. simpl.
      unfold offset_of in Ho1. lia. }
    change (head (with_head (head s1) s1)) with (head s1) in Ew2.
    change (written (with_head (head s1) s1)) with (written s1) in Ew2.
    rewrite Z.sub_diag in Ew2. change (Z.to_nat 0) with 0%nat in Ew2.
    rewrite take_0 in Ew2. change (bytewidth SOffsetTFlags) with 4 in Ew2.
    rewrite Ew1 in Ew2. change (Z.to_nat (0 + 4)) with 4%nat in Ew2.
    rewrite drop_app_exact, app_nil_l in Ew2 by (by rewrite length_pack).
    unfold meta in M2. injection M2 as Hcv2 Hoe2 Hvt2 Hn2 Hfd2 Hfin2 Hvn2.
    simpl in Hvt2, Hn2, Hfd2.
    change (written (with_current_vtable None s2)) with (written s2).
    assert (Hlw : len (written s2) = s + 4).
    { rewrite Ew2, len_app, len_pack by done.
      rewrite <- offset_written, Hs by done. simpl. lia. }
    split_and!; try done.
    + exists (pack SOffsetTFlags (vt2 - (s + 4))). split; [done|].
      unfold pos_of. rewrite Hlw, len_pack by done. simpl. lia.
    + unfold pos_of. rewrite Hlw, Z.sub_diag.
      unfold Reader.Offset. rewrite Ew2.
      rewrite Get_pack_front by auto. cbn.
      destruct (Hvt vt2 eq_refl) as (vs & Hg1 & Hvs & Hg2).
      assert (Hp : 0 - (vt2 - (s + 4))
                   = len (pack SOffsetTFlags (vt2 - (s + 4)))
                     + pos_of (written b2) vt2).
      { rewrite len_pack by done. unfold pos_of.
        rewrite <- offset_written, Hs by done. simpl. lia. }
      rewrite Hp, (Get_shift _ _ _ _ _ Hg1). cbn.
      destruct (Z.ltb_spec 4 vs); [|lia].
      rewrite <- Z.add_assoc. by apply Get_shift.
    + simpl. intros o Ho. rewrite Ew2. apply vt_ok_app, Hvt.
      by rewrite Hvt2, Hvt1, Hlook in Ho.
    + simpl. congruence.
    + simpl. congruence.
  - (* a new vtable is written *)
    assert (Hloop : write_vtable_loop (s + 4) [s] true 0
                    = bind (PrependVOffsetT 4) (fun _ => ret 0)).
    { cbn. destruct (Z.eqb_spec s 0) as [|_]; [lia|].
      by replace (s + 4 - s) with 4 by lia. }
    rewrite Hloop in H. clear Hloop. msimpl H.
    unfold PrependVOffsetT in H.
    mres H E2 u2 s2. destruct u2.
    pose proof (Prepend_V_aligned _ _ _ E2 W1) as (G2 & Ho2 & Hr2).
    { rewrite Ho1. by apply mod4_mod2, mod4_add4. }
    destruct G2 as (W2 & Ew2 & M2).
    unfold meta in M2. injection M2 as Hcv2 Hoe2 Hvt2 Hn2 Hfd2 Hfin2 Hvn2.
    rewrite Hoe2, Hoe1, Hoe in H. cbv beta iota in H.
    mres H E3 u3 s3. destruct u3.
    pose proof (Prepend_V_aligned _ _ _ E3 W2) as (G3 & Ho3 & Hr3).
    { rewrite Ho2, Ho1. by apply mod2_add2, mod4_mod2, mod4_add4. }
    destruct G3 as (W3 & Ew3 & M3).
    unfold meta in M3. injection M3 as Hcv3 Hoe3 Hvt3 Hn3 Hfd3 Hfin3 Hvn3.
    change ((len [s] - 0 + VtableMetadataFields) * bytewidth VOffsetTFlags)
      with 6 in H.
    mres H E4 u4 s4. destruct u4.
    pose proof (Prepend_V_aligned _ _ _ E4 W3) as (G4 & Ho4 & Hr4).
    { rewrite Ho3, Ho2, Ho1.
      by apply mod2_add2, mod2_add2, mod4_mod2, mod4_add4. }
    destruct G4 as (W4 & Ew4 & M4).
    unfold meta in M4. injection M4 as Hcv4 Hoe4 Hvt4 Hn4 Hfd4 Hfin4 Hvn4.
    assert (Ho4' : offset_of s4 = s + 10) by lia.
    rewrite Ho4' in H. replace (s + 10 - (s + 4)) with 6 in H by lia.
    mres H E5 u5 s5. destruct u5. injection H as <- <-.
    pose proof (Write_spec _ _ _ _ _ E5 W4)
      as (W5 & Hh5 & M5 & _ & Hr5 & Ew5).
    { cbn. lia. }
    { unfold offset_of in Ho4'. lia. }
    { change (bytewidth SOffsetTFlags) with 4.
      pose proof (len_nonneg (written b2)).
      rewrite <- offset_written, Hs in * by done. lia. }
    replace (len (Bytes s4) - (s + 4) - head s4) with 6 in Ew5
      by (unfold offset_of in Ho4'; lia).
    change (bytewidth SOffsetTFlags) with 4 in Ew5.
    change (Z.to_nat 6) with 6%nat in Ew5.
    change (Z.to_nat (6 + 4)) with 10%nat in Ew5.
    set (V := pack VOffsetTFlags 6 ++ pack VOffsetTFlags (s + 4 - oe)
                ++ pack VOffsetTFlags 4) in *.
    assert (HlV : length V = 6%nat).
    { unfold V. rewrite !length_app, !length_pack. done. }
    assert (Ew4' : written s4
                   = V ++ pack SOffsetTFlags (s + 4) ++ written b2).
    { rewrite Ew4, Ew3, Ew2, Ew1. unfold V. by rewrite <- !app_assoc. }
    rewrite Ew4' in Ew5.
    rewrite take_app_exact in Ew5 by done.
    rewrite (app_assoc V (pack SOffsetTFlags (s + 4))), drop_app_exact in Ew5
      by (rewrite length_app, length_pack, HlV; done).
    unfold meta in M5. injection M5 as Hcv5 Hoe5 Hvt5 Hn5 Hfd5 Hfin5 Hvn5.
    set (s6 := with_current_vtable None _).
    assert (Ew6 : written s6 = V ++ pack SOffsetTFlags 6 ++ written b2)
      by done.
    assert (Hlw : len (written s6) = s + 10).
    { rewrite Ew6, !len_app, len_pack by done. unfold len at 1.
      rewrite HlV. rewrite <- offset_written, Hs by done. cbn. lia. }
    assert (Hvt_new : vt_ok (written s6) (s + 10)).
    { exists 6. unfold pos_of. rewrite Hlw, Z.sub_diag, Ew6. unfold V.
      rewrite <- !app_assoc. split_and!; [|lia|].
      - apply Get_pack_front; auto.
      - rewrite (app_assoc (pack VOffsetTFlags 6)).
        apply (Get_pack_at VOffsetTFlags); auto. }
    split_and!; try done.
    + exists (V ++ pack SOffsetTFlags 6). split.
      * by rewrite <- app_assoc.
      * unfold pos_of. rewrite Hlw, len_app, len_pack by done.
        unfold len. rewrite HlV. cbn. lia.
    + unfold pos_of. rewrite Hlw.
      replace (s + 10 - (s + 4)) with 6 by lia.
      unfold Reader.Offset.
      assert (Hg : Reader.Get SOffsetTFlags (written s6) 6 = Some 6).
      { rewrite Ew6. apply Get_pack_at; auto. }
      rewrite Hg. cbn. change (6 - 6) with 0.
      destruct Hvt_new as (vs & Hg1 & Hvs & Hg2).
      unfold pos_of in Hg1, Hg2. rewrite Hlw, Z.sub_diag in Hg1, Hg2.
      rewrite Hg1. cbn. destruct (Z.ltb_spec 4 vs); [done|lia].
    + intros o Ho. unfold s6 in Ho. cbn in Ho.
      rewrite lookup_insert_eq in Ho. injection Ho as <-.
      replace (offset_of s5) with (s + 10); [done|].
      rewrite <- Hlw. change (written s6) with (written s5).
      by rewrite <- offset_written.
    + unfold s6. cbn. congruence.
    + unfold s6. cbn. congruence.
Qed.

Lemma Indirect_front x rest :
  in_range UOffsetTFlags x = true ->
  Reader.Indirect (pack UOffsetTFlags x ++ rest) 0 = Some x.
Proof.
  intros Hr. unfold Reader.Indirect.
  rewrite Get_pack_front by auto. cbn. f_equal.
Qed.

Lemma Offset_pos_nonneg w p vo x : Reader.Offset w p vo = Some x -> 0 <= p.
Proof.
  unfold Reader.Offset, Reader.Get, Reader.get_bytes. intros H.
  destruct (Z.leb_spec 0 p); [done|]. cbn in H. done.
Qed.

(** A table with one field, the offset of [child]: [StartObject(1)],
    [PrependUOffsetTRelativeSlot(0, child, 0)], [EndObject()]. *)
Lemma table_spec child b b1 b2 t b3 :
  StartObject 1 b = Ok tt b1 ->
  PrependUOffsetTRelativeSlot 0 child 0 b1 = Ok tt b2 ->
  EndObject b2 = Ok t b3 ->
  idle b -> 0 < child ->
  idle b3 /\ extends b b3 /\ table_at (written b3) t child
  /\ 0 < t <= offset_of b3.
Proof.
  intros H1 H2 H3 (W & Hn & Hfd & Hvt) Hc.
  apply StartObject_inv in H1; [|done]. subst b1.
  set (b1 := with_nested true _) in *.
  assert (W1 : wf b1) by done.
  pose proof (slot_step _ _ _ H2 W1 eq_refl Hfd eq_refl ltac:(lia))
    as (W2 & Ew2 & M2 & Hr2 & Hle & Hal & Ho2).
  change (offset_of b1) with (offset_of b) in *.
  change (written b1) with (written b) in *.
  set (pad := Z.to_nat (prep_pad (offset_of b) 0 4)) in *.
  set (s := offset_of b + Z.of_nat pad + 4) in *.
  unfold meta in M2. cbn in M2.
  injection M2 as Hcv2 Hoe2 Hvt2 Hn2 Hfd2 Hfin2 Hvn2.
  unfold EndObject, assertNested in H3. msimpl H3.
  rewrite Hn2 in H3. cbv beta iota in H3.
  assert (Hs0 : 0 < s).
  { unfold s. rewrite offset_written by done.
    pose proof (len_nonneg (written b)). lia. }
  pose proof (WriteVtable_one_field s (offset_of b) _ _ _ H3)
    as (-> & W3 & (pre & Ew3 & Hpre) & Hoff & Hvt3 & Hn3 & Hfd3);
    try done.
  { intros o Ho. change (written (with_nested false b2)) with (written b2).
    rewrite Ew2, app_assoc. apply vt_ok_app, Hvt.
    cbn in Ho. congruence. }
  change (written (with_nested false b2)) with (written b2) in *.
  split_and!.
  - split_and!; try done. cbn in Hfd3. congruence.
  - exists (pre ++ pack UOffsetTFlags (s - child) ++ zeros pad).
    by rewrite Ew3, Ew2, <- !app_assoc.
  - split_and!; [lia|done|].
    rewrite Hpre, Ew3. replace (len pre) with (len pre + 0) at 1 by lia.
    rewrite (Indirect_shift _ _ _ _ (Indirect_front _ _ Hr2) : _ = _)
      || (rewrite Ew2; erewrite Indirect_shift;
          [|by apply Indirect_front]).
    f_equal. rewrite pos_of_app. unfold pos_of.
    rewrite <- Ew2, <- offset_written, Ho2 by done. lia.
  - lia.
  - rewrite offset_written by done.
    apply Offset_pos_nonneg in Hoff. unfold pos_of in Hoff. lia.
Qed.

(** The loop that prepends the offsets of a vector, last element first. *)
Lemma offsets_loop_spec ros b b' :
  forM_ ros PrependUOffsetTRelative b = Ok tt b' ->
  wf b -> offset_of b mod 4 = 0 ->
  wf b' /\ meta b' = meta b
  /\ head b - 4 * len ros <= head b'
  /\ minalign b' = (if ros is [] then minalign b else Z.max (minalign b) 4)
  /\ exists pre,
      written b' = pre ++ written b /\ len pre = 4 * len ros
      /\ forall (j : nat) x,
          rev ros !! j = Some x ->
          Reader.Indirect (written b') (4 * Z.of_nat j)
          = Some (pos_of (written b') x).
Proof.
  revert b. induction ros as [|o ros IH]; intros b H W Hal; cbn in H.
  - msimpl H. injection H as <-.
    split_and!; try done; [unfold len; cbn; lia|].
    exists []. split_and!; try done.
  - msimpl H. mres H E u s1. destruct u.
    pose proof (PrependUOffsetTRelative_spec _ _ _ E W)
      as (G & Hm & Hle & Hr & Hh).
    rewrite prep_pad_4_aligned in G, Hle, Hr, Hh by done.
    change (Z.to_nat 0) with 0%nat in *. change (Z.of_nat 0) with 0 in *.
    change (zeros 0) with (@nil byte) in G. rewrite app_nil_r in G.
    pose proof (grows_offset _ _ _ W G) as Ho.
    rewrite len_pack in Ho by done. change (bytewidth _) with 4 in Ho.
    destruct G as (W1 & Ew1 & M1).
    apply IH in H as (W' & M' & Hh' & Hm' & pre & Ew' & Hlp & Hidx);
      [|done|rewrite Ho; by apply mod4_add4].
    assert (Hlen : len (o :: ros) = len ros + 1) by (unfold len; cbn; lia).
    split_and!; try done.
    + congruence.
    + lia.
    + rewrite Hm'. destruct ros; lia.
    + exists (pre ++ pack UOffsetTFlags (offset_of b + 0 + 4 - o)).
      split_and!.
      * by rewrite Ew', Ew1, <- app_assoc.
      * rewrite len_app, len_pack by done. cbn. lia.
      * intros j x Hj. cbn in Hj.
        destruct (decide (j < length (rev ros))%nat) as [Hlt|Hge].
        -- rewrite lookup_app_l in Hj by done. by apply Hidx.
        -- rewrite lookup_app_r in Hj by lia.
           rewrite length_rev in *.
           destruct (j - length ros)%nat as [|k] eqn:Hk; [|by destruct k].
           cbn in Hj. injection Hj as <-.
           assert (Hjl : Z.of_nat j = len ros) by (unfold len; lia).
           replace (4 * Z.of_nat j) with (len pre + 0) by lia.
           rewrite Ew'. erewrite Indirect_shift;
             [|rewrite Ew1; by apply Indirect_front].
           f_equal. rewrite pos_of_app. unfold pos_of.
           rewrite <- offset_written, Ho by done. lia.
Qed.

Lemma len_rev {A} (l : list A) : len (rev l) = len l.
Proof. unfold len. by rewrite length_rev. Qed.

(** A vector of offsets: [StartVector(4, n, 4)], the offsets prepended
    last first, [EndVector()]. *)
Lemma offsets_vector_spec offs b r b1 b2 v b3 :
  StartVector 4 (len offs) 4 b = Ok r b1 ->
  forM_ (rev offs) PrependUOffsetTRelative b1 = Ok tt b2 ->
  EndVector b2 = Ok v b3 ->
  idle b ->
  idle b3 /\ extends b b3 /\ offsets_at (written b3) v offs
  /\ 0 < v <= offset_of b3.
Proof.
  intros HS HL HE (W & Hnest & Hfd & Hvt).
  assert (Hn : 0 <= len offs) by apply len_nonneg.
  set (n := len offs) in *.
  unfold StartVector, assertNotNested, Offset in HS. msimpl HS.
  rewrite Hnest in HS. cbv beta iota in HS.
  change (bytewidth Uint32Flags) with 4 in HS.
  mres HS E1 u1 s1. mres HS E2 u2 s2.
  injection HS as _ Hs2. subst s2. destruct u1, u2.
  set (b0 := with_vectorNumElems (Some n) (with_nested true b)) in *.
  assert (W0 : wf b0) by done.
  pose proof (Prep_spec _ _ _ _ E1 W0) as (G1 & Hm1 & Hr1 & _); [lia..|].
  specialize (Hr1 ltac:(lia)).
  pose proof (grows_offset _ _ _ W0 G1) as Ho1. rewrite len_zeros in Ho1.
  assert (Hal : (offset_of s1 + 4 * n) mod 4 = 0).
  { rewrite Ho1. apply prep_pad_4_makes_aligned. }
  assert (Hal1 : offset_of s1 mod 4 = 0).
  { rewrite <- Hal. rewrite (Z.mul_comm 4 n), Z.mod_add by lia. done. }
  assert (W1 : wf s1) by apply G1.
  pose proof (Prep_spec _ _ _ _ E2 W1) as (G2 & Hm2 & _ & Hh2); [lia..|].
  assert (Hp0 : prep_pad (offset_of s1) (4 * n) 4 = 0).
  { rewrite prep_pad_4. apply Z.mod_divide; [lia|].
    apply Z.divide_opp_r. by apply Z.mod_divide. }
  rewrite Hp0 in G2, Hh2. change (zeros (Z.to_nat 0)) with (@nil byte) in G2.
  change (Z.of_nat (Z.to_nat 0)) with 0 in Hh2.
  pose proof (grows_offset _ _ _ W1 G2) as Ho2.
  change (len []) with 0 in Ho2.
  destruct G2 as (W2 & Ew2 & M2). destruct G1 as (_ & Ew1 & M1).
  rewrite app_nil_l in Ew2.
  pose proof (offsets_loop_spec _ _ _ HL W2)
    as (W3 & M3 & Hh3 & Hm3 & pre & Ew3 & Hlp & Hidx).
  { rewrite Ho2, Z.add_0_r. done. }
  rewrite len_rev in Hh3, Hlp. fold n in Hh3, Hlp.
  assert (Hmeta : nested b2 = true /\ vectorNumElems b2 = Some n
                  /\ vtables b2 = vtables b
                  /\ forceDefaults b2 = forceDefaults b).
  { unfold meta in M1, M2, M3. unfold b0 in M1. cbn in M1.
    injection M1 as ? ? ? ? ? ? ?. injection M2 as ? ? ? ? ? ? ?.
    injection M3 as ? ? ? ? ? ? ?.
    split_and!; congruence. }
  destruct Hmeta as (Hn2 & Hv2 & Hvt2 & Hfd2).
  unfold EndVector, assertNested, Offset, PlaceUOffsetT in HE. msimpl HE.
  rewrite Hn2 in HE. cbv beta iota in HE.
  replace (vectorNumElems (with_nested false b2)) with (Some n) in HE
    by done.
  cbv beta iota in HE. mres HE E4 u4 s4.
  injection HE as Hoff Hb4. subst v b3. destruct u4.
  apply Place_grows in E4 as (G4 & Hh4 & Hl4 & Hm4 & Hr4);
    [|done|cbn; lia].
  destruct G4 as (W4 & Ew4 & M4).
  change (written (with_nested false b2)) with (written b2) in Ew4.
  set (b5 := with_vectorNumElems None s4).
  assert (Ew5 : written b5 = pack UOffsetTFlags n ++ written b2) by done.
  assert (W5 : wf b5) by done.
  unfold meta in M4. injection M4 as ? ? ? ? ? ? ?.
  assert (Hext : written b5
                 = (pack UOffsetTFlags n ++ pre
                      ++ zeros (Z.to_nat (prep_pad (offset_of b0) (4 * n) 4)))
                     ++ written b).
  { rewrite Ew5, Ew3, Ew2, Ew1, <- !app_assoc. done. }
  assert (Hlw : 4 <= len (written b5)).
  { rewrite Ew5, len_app, len_pack by done.
    pose proof (len_nonneg (written b2)). cbn. lia. }
  split_and!.
  - unfold idle. split_and!; try done.
    + cbn in *. congruence.
    + intros o Ho. rewrite Hext. apply vt_ok_app, Hvt.
      cbn in *. congruence.
  - by eexists.
  - unfold offsets_at. rewrite offset_written by done.
    unfold pos_of. rewrite Z.sub_diag. split_and!; [lia| |].
    + rewrite Ew5. apply Get_pack_front; auto.
    + intros j x Hj. rewrite <- (rev_involutive offs) in Hj.
      rewrite <- rev_alt in Hj || idtac.
      apply Hidx in Hj. rewrite Ew5.
      replace (0 + 4 + 4 * Z.of_nat j)
        with (len (pack UOffsetTFlags n) + 4 * Z.of_nat j)
        by (rewrite len_pack by done; cbn; lia).
      rewrite (Indirect_shift _ _ _ _ Hj). f_equal.
      unfold pos_of. rewrite len_app. lia.
  - rewrite offset_written by done. lia.
  - lia.
Qed.

(** ** Reading back what the builder wrote *)

Lemma attribute_bytes_of_table w t c bs :
  table_at w t c -> bytes_at w c bs ->
  Reader.attribute_bytes w (pos_of w t) = Some bs.
Proof.
  intros (_ & Hoff & Hind) (_ & Hlen & Hbs).
  unfold Reader.attribute_bytes, Reader.VectorLen, Reader.Vector.
  rewrite Hoff. cbn. rewrite (Z.add_comm 4), Hind. cbn.
  rewrite Hlen. cbn. change (bytewidth UOffsetTFlags) with 4.
  unfold len. by rewrite Nat2Z.id.
Qed.

Lemma table_vector_of_table {A} (read : list byte -> Z -> option A)
      w t v offs xs :
  table_at w t v -> offsets_at w v offs ->
  Forall2 (fun o x => read w (pos_of w o) = Some x) offs xs ->
  Reader.table_vector read w (pos_of w t) = Some xs.
Proof.
  intros (_ & Hoff & Hind) (_ & Hlen & Hidx) Hall.
  unfold Reader.table_vector, Reader.VectorLen, Reader.Vector.
  rewrite Hoff. cbn. rewrite (Z.add_comm 4), Hind. cbn.
  rewrite Hlen. cbn. change (bytewidth UOffsetTFlags) with 4.
  unfold len. rewrite Nat2Z.id.
  apply mapM_Some. apply Forall2_same_length_lookup_2.
  - rewrite length_seq. by eapply Forall2_length.
  - intros j i x Hi Hx. apply lookup_seq in Hi as [-> Hlt]. cbn.
    destruct (offs !! j) as [o|] eqn:Ho.
    + rewrite (Hidx _ _ Ho). cbn.
      eapply Forall2_lookup_lr in Hall; eauto.
    + apply lookup_ge_None in Ho. lia.
Qed.

(** ** Which exceptions the builder raises *)

Lemma raises_ret {S A} (a : A) P : raises (@ret S A a) P.
Proof. by intros s e s' H. Qed.

Lemma raises_gets {S A} (f : S -> A) P : raises (gets f) P.
Proof. by intros s e s' H. Qed.

Lemma raises_modify {S} (f : S -> S) P : raises (modify f) P.
Proof. by intros s e s' H. Qed.

Lemma raises_raise {S A} e (P : exn -> bool) :
  P e = true -> raises (@raise S A e) P.
Proof. intros HP s e' s' H. unfold raise in H. congruence. Qed.

Lemma raises_bind {S A B} (m : M S A) (k : A -> M S B) P :
  raises m P -> (forall a, raises (k a) P) -> raises (bind m k) P.
Proof.
  intros Hm Hk s e s' H. apply bind_Raise_inv in H as [H|(a & s1 & _ & H)].
  - eapply Hm; eauto.
  - eapply Hk; eauto.
Qed.

Lemma raises_when {S} c (m : M S unit) P : raises m P -> raises (when c m) P.
Proof. intros Hm. destruct c; [done|apply raises_ret]. Qed.

Lemma raises_if {S A} (c : bool) (m1 m2 : M S A) P :
  raises m1 P -> raises m2 P -> raises (if c then m1 else m2) P.
Proof. by destruct c. Qed.

Lemma raises_forM_ {S A} (xs : list A) (body : A -> M S unit) P :
  (forall x, raises (body x) P) -> raises (forM_ xs body) P.
Proof.
  intros Hb. induction xs as [|x xs IH]; cbn.
  - apply raises_ret.
  - apply raises_bind; auto.
Qed.

Lemma raises_repeatM {S} n (body : M S unit) P :
  raises body P -> raises (repeatM n body) P.
Proof.
  intros Hb. induction n as [|n IH]; cbn.
  - apply raises_ret.
  - apply raises_bind; auto.
Qed.

Lemma raises_collectM {S A B} (xs : list A) (body : A -> M S B) acc P :
  (forall x, raises (body x) P) -> raises (collectM xs body acc) P.
Proof.
  intros Hb. revert acc. induction xs as [|x xs IH]; intros acc; cbn.
  - apply raises_ret.
  - apply raises_bind; auto.
Qed.

Create HintDb raises.

Ltac raises_step :=
  first
    [ apply raises_ret | apply raises_gets | apply raises_modify
    | apply raises_raise; reflexivity
    | apply raises_bind; [|intros ?]
    | apply raises_when | apply raises_forM_; intros ?
    | apply raises_repeatM
    | apply raises_if
    | match goal with
      | |- raises (match ?x with _ => _ end) _ => destruct x
      end ].

Ltac solve_raises := repeat raises_step; eauto with raises.

Lemma raises_assertNested : raises assertNested builder_error.
Proof. intros b e b' H. unfold assertNested in H. mcase H. by simplify_eq. Qed.
#[export] Hint Resolve raises_assertNested : raises.

Lemma raises_assertNotNested : raises assertNotNested builder_error.
Proof. intros b e b' H. unfold assertNotNested in H. mcase H. by simplify_eq. Qed.
#[export] Hint Resolve raises_assertNotNested : raises.

Lemma raises_enforce_number x fl : raises (enforce_number x fl) builder_error.
Proof. intros b e b' H. unfold enforce_number in H. mcase H. by simplify_eq. Qed.
#[export] Hint Resolve raises_enforce_number : raises.

Lemma raises_Write fl pos x : raises (Write fl pos x) builder_error.
Proof. intros b e b' H. unfold Write in H. mcase H. by simplify_eq. Qed.
#[export] Hint Resolve raises_Write : raises.

Lemma raises_growByteBuffer : raises growByteBuffer builder_error.
Proof. intros b e b' H. unfold growByteBuffer in H. mcase H. by simplify_eq. Qed.
#[export] Hint Resolve raises_growByteBuffer : raises.

Lemma raises_Place x fl : raises (Place x fl) builder_error.
Proof.
  unfold Place, Head. solve_raises.
Qed.
#[export] Hint Resolve raises_Place : raises.

Lemma raises_Prep_grow fuel need : raises (Prep_grow fuel need) builder_error.
Proof.
  induction fuel as [|fuel IH]; intros b e b' H; cbn in H.
  - mcase H. by simplify_eq.
  - mcase H. revert H. apply raises_bind; [apply raises_growByteBuffer|].
    intros _. apply raises_bind; [apply raises_modify|]. intros _. apply IH.
Qed.
#[export] Hint Resolve raises_Prep_grow : raises.

Lemma raises_Prep size add : raises (Prep size add) builder_error.
Proof.
  unfold Prep, Pad, Offset. solve_raises.
Qed.
#[export] Hint Resolve raises_Prep : raises.

Lemma raises_Prepend fl x : raises (Prepend fl x) builder_error.
Proof.
  unfold Prepend. solve_raises.
Qed.
#[export] Hint Resolve raises_Prepend : raises.

Lemma raises_PrependUOffsetTRelative off :
  raises (PrependUOffsetTRelative off) builder_error.
Proof.
  unfold PrependUOffsetTRelative, PlaceUOffsetT, Offset.
  solve_raises.
Qed.
#[export] Hint Resolve raises_PrependUOffsetTRelative : raises.

Lemma raises_PrependSOffsetTRelative off :
  raises (PrependSOffsetTRelative off) builder_error.
Proof.
  unfold PrependSOffsetTRelative, PlaceSOffsetT, Offset.
  solve_raises.
Qed.
#[export] Hint Resolve raises_PrependSOffsetTRelative : raises.

Lemma raises_StartVector e n a : raises (StartVector e n a) builder_error.
Proof.
  unfold StartVector, Offset.
  solve_raises.
Qed.
#[export] Hint Resolve raises_StartVector : raises.

Lemma raises_EndVector : raises EndVector builder_error.
Proof.
  unfold EndVector, Offset, PlaceUOffsetT.
  solve_raises.
Qed.
#[export] Hint Resolve raises_EndVector : raises.

Lemma raises_StartObject n : raises (StartObject n) builder_error.
Proof.
  unfold StartObject, Offset.
  solve_raises.
Qed.
#[export] Hint Resolve raises_StartObject : raises.

Lemma raises_Slot n : raises (Slot n) builder_error.
Proof.
  unfold Slot, Offset.
  solve_raises.
Qed.
#[export] Hint Resolve raises_Slot : raises.

Lemma raises_PrependUOffsetTRelativeSlot o x d :
  raises (PrependUOffsetTRelativeSlot o x d) builder_error.
Proof.
  unfold PrependUOffsetTRelativeSlot.
  solve_raises.
Qed.
#[export] Hint Resolve raises_PrependUOffsetTRelativeSlot : raises.

Lemma raises_write_vtable_loop oo rvt trim tr :
  raises (write_vtable_loop oo rvt trim tr) builder_error.
Proof.
  revert trim tr. induction rvt as [|x rvt IH]; intros trim tr; cbn.
  - apply raises_ret.
  - unfold PrependVOffsetT. solve_raises.
Qed.
#[export] Hint Resolve raises_write_vtable_loop : raises.

Lemma raises_WriteVtable : raises WriteVtable builder_error.
Proof.
  unfold WriteVtable, Offset, Head, PrependVOffsetT.
  solve_raises.
Qed.
#[export] Hint Resolve raises_WriteVtable : raises.

Lemma raises_EndObject : raises EndObject builder_error.
Proof.
  unfold EndObject.
  solve_raises.
Qed.
#[export] Hint Resolve raises_EndObject : raises.

Lemma raises_Finish root : raises (Finish root) builder_error.
Proof.
  unfold Finish, Head.
  solve_raises.
Qed.
#[export] Hint Resolve raises_Finish : raises.

Lemma raises_Output : raises Output builder_error.
Proof. intros b e b' H. unfold Output in H. mcase H. by simplify_eq. Qed.
#[export] Hint Resolve raises_Output : raises.

(** ** NumPy: byte order *)

Lemma byteswap_item_involutive k item :
  np.byteswap_item k (np.byteswap_item k item) = item.
Proof.
  unfold np.byteswap_item. destruct (String.eqb k "c").
  - set (h := (length item / 2)%nat).
    assert (Hh : (h <= length item)%nat).
    { unfold h. apply Nat.Div0.div_le_upper_bound. lia. }
    rewrite length_app, !length_rev, length_take, length_drop.
    replace (h `min` length item + (length item - h))%nat
      with (length item) by lia.
    fold h.
    rewrite take_app_exact by (rewrite length_rev, length_take; lia).
    rewrite drop_app_exact by (rewrite length_rev, length_take; lia).
    rewrite !rev_involutive. apply take_drop.
  - apply rev_involutive.
Qed.

Lemma tobytes_array_little cast_bits host a dt :
  np.is_big_endian host dt = false ->
  np.tobytes (np.array cast_bits host a dt)
  = expected_bytes cast_bits host a dt.
Proof.
  intros Hb. unfold np.tobytes, np.array, expected_bytes, le_bytes,
    cast_values, np.values, np.to_mem. cbn. rewrite Hb.
  by rewrite !map_map.
Qed.

Lemma tobytes_byteswap_array_big cast_bits host a dt :
  np.is_big_endian host dt = true ->
  np.tobytes (np.byteswap (np.array cast_bits host a dt))
  = expected_bytes cast_bits host a dt.
Proof.
  intros Hb. unfold np.tobytes, np.byteswap, np.array, expected_bytes,
    le_bytes, cast_values, np.values, np.to_mem. cbn. rewrite Hb.
  rewrite !map_map. f_equal. apply map_ext. intros item.
  apply byteswap_item_involutive.
Qed.

Lemma values_flatten_copy host a :
  np.values host (np.flatten (np.copy a)) = np.values host a.
Proof. done. Qed.

Lemma expected_bytes_flatten_copy cast_bits host a dt :
  expected_bytes cast_bits host (np.flatten (np.copy a)) dt
  = expected_bytes cast_bits host a dt.
Proof. done. Qed.

(** ** The store of arrays *)

Lemma deref_alloc w a :
  deref (with_arrays (arrays w ++ [a]) w) (length (arrays w)) = a.
Proof. unfold deref. cbn. by rewrite nth_middle. Qed.

Lemma deref_old w a l :
  (l < length (arrays w))%nat ->
  deref (with_arrays (arrays w ++ [a]) w) l = deref w l.
Proof. intros. unfold deref. cbn. by rewrite app_nth1. Qed.


Lemma allocated_refl w : allocated w w.
Proof. split_and!; try done. exists []. by rewrite app_nil_r. Qed.

Lemma allocated_trans w1 w2 w3 :
  allocated w1 w2 -> allocated w2 w3 -> allocated w1 w3.
Proof.
  intros ((n1 & E1) & ? & ? & ?) ((n2 & E2) & ? & ? & ?).
  split_and!; try congruence.
  exists (n1 ++ n2). by rewrite E2, E1, app_assoc.
Qed.

Lemma alloc_inv a w l w' :
  alloc a w = Ok l w' -> allocated w w' /\ deref w' l = a.
Proof.
  unfold alloc. intros [= <- <-]. split; [|apply deref_alloc].
  split_and!; try done. by exists [a].
Qed.

(** Reading a reference that was valid before the store grew. *)
Lemma store_extends_deref w w' l :
  store_extends w w' -> (l < length (arrays w))%nat ->
  deref w' l = deref w l.
Proof. intros (new & E) Hl. unfold deref. rewrite E. by apply app_nth1. Qed.

Lemma store_extends_refl w : store_extends w w.
Proof. exists []. by rewrite app_nil_r. Qed.

Lemma store_extends_trans w1 w2 w3 :
  store_extends w1 w2 -> store_extends w2 w3 -> store_extends w1 w3.
Proof.
  intros (n1 & E1) (n2 & E2). exists (n1 ++ n2).
  by rewrite E2, E1, app_assoc.
Qed.

Lemma np_copy_inv l w l' w' :
  np_copy l w = Ok l' w' ->
  allocated w w' /\ deref w' l' = np.copy (deref w l).
Proof.
  unfold np_copy. intros H. mbind H E a s. unfold gets in E.
  injection E as <- <-. by apply alloc_inv.
Qed.

Lemma ndarray_flatten_inv l w l' w' :
  ndarray_flatten l w = Ok l' w' ->
  allocated w w' /\ deref w' l' = np.flatten (deref w l).
Proof.
  unfold ndarray_flatten. intros H. mbind H E a s. unfold gets in E.
  injection E as <- <-. by apply alloc_inv.
Qed.

Lemma ndarray_byteswap_inv l w l' w' :
  ndarray_byteswap l false w = Ok l' w' ->
  allocated w w' /\ deref w' l' = np.byteswap (deref w l).
Proof.
  unfold ndarray_byteswap. intros H. mbind H E a s. unfold gets in E.
  injection E as <- <-. by apply alloc_inv.
Qed.

Lemma onB_Ok_inv {A} (m : M Builder.t A) w a w' :
  onB m w = Ok a w' ->
  exists b b', _builder w = Some b /\ m b = Ok a b'
               /\ w' = with_builder (Some b') w.
Proof.
  unfold onB. intros H. destruct (_builder w) as [b|]; [|done].
  destruct (m b) as [a' b'|] eqn:E; [|done].
  injection H as <- <-. eauto.
Qed.

Lemma onB_Raise_inv {A} (m : M Builder.t A) w e w' :
  onB m w = Raise e w' ->
  (_builder w = None /\ e = AttributeError /\ w' = w)
  \/ exists b b', _builder w = Some b /\ m b = Raise e b'
                  /\ w' = with_builder (Some b') w.
Proof.
  unfold onB. intros H. destruct (_builder w) as [b|].
  - destruct (m b) as [a' b'|e' b'] eqn:E; [done|].
    injection H as <- <-. right. eauto.
  - injection H as <- <-. by left.
Qed.

Section Encoder.
Variable host : Platform.
Variable can_cast : np.dtype -> np.dtype -> bool.
Variable cast_bits : np.dtype -> np.dtype -> Z -> Z.

Lemma np_array_inv l dt w l' w' :
  np_array host cast_bits l dt w = Ok l' w' ->
  allocated w w' /\ deref w' l' = np.array cast_bits host (deref w l) dt.
Proof.
  unfold np_array. intros H. mbind H E a s. unfold gets in E.
  injection E as <- <-. by apply alloc_inv.
Qed.

(** The byte-order block of the encoder (lines 152-173): what reaches
    [tobytes] is the array itself or its byte swap, by the byte order of
    its dtype and of the host. *)
Lemma ensure_little_endian_inv (v : nat) (bo : string) w v' w' :
  (if String.eqb bo "=" then
     if String.eqb (sys_byteorder host) "big" then
       ndarray_byteswap v false
     else if String.eqb (sys_byteorder host) "little" then ret v
     else raise ValueError_sys_byteorder
   else if String.eqb bo ">" then ndarray_byteswap v false
   else if String.eqb bo "<" || String.eqb bo "|" then ret v
   else raise ValueError_byteorder) w = Ok v' w' ->
  bo = np.byteorder (np.arr_dtype (deref w v)) ->
  allocated w w' /\ numpy_byteorder bo
  /\ deref w' v'
     = if np.is_big_endian host (np.arr_dtype (deref w v))
       then np.byteswap (deref w v) else deref w v.
Proof.
  intros H Hbo. unfold np.is_big_endian. rewrite <- Hbo. clear Hbo.
  unfold numpy_byteorder.
  destruct (String.eqb_spec bo "=") as [->|Hne1].
  - destruct host; cbn in H.
    + injection H as <- <-. cbn. split_and!; auto using allocated_refl.
    + apply ndarray_byteswap_inv in H as [? ?]. cbn. split_and!; auto.
  - destruct (String.eqb_spec bo ">") as [->|Hne2].
    + apply ndarray_byteswap_inv in H as [? ?]. cbn. split_and!; auto.
    + cbn. destruct (String.eqb_spec bo "<") as [->|Hne3].
      * injection H as <- <-. split_and!; auto using allocated_refl.
      * destruct (String.eqb_spec bo "|") as [->|Hne4]; [|done].
        injection H as <- <-. split_and!; auto 6 using allocated_refl.
Qed.

(** The encoder on a builder between two calls: the bytes it embeds, and
    the vector it asks the builder for. *)
Lemma save_spec_vector attribute value w off w' b :
  save_numpy_vector_as_bytearray host can_cast cast_bits attribute value w
  = Ok off w' ->
  _builder w = Some b -> idle b ->
  exists b' pad w1,
    let bs := expected_bytes cast_bits host (deref w value) (dtype attribute) in
    let itemsize := Z.of_nat (np.itemsize (dtype attribute)) in
    allocated w w1 /\ w' = with_builder (Some b') w1
    /\ idle b'
    /\ written b' = pack UOffsetTFlags (len bs) ++ bs ++ zeros pad ++ written b
    /\ off = offset_of b'
    /\ can_cast (np.arr_dtype (deref w value)) (dtype attribute) = true
    /\ numpy_byteorder (np.byteorder (dtype attribute))
    /\ vtables b' = vtables b
    /\ in_range UOffsetTFlags (len bs) = true
    /\ (exists r b1,
          StartVector 1 (len bs) itemsize b = Ok r b1
          /\ written b' = pack UOffsetTFlags (len bs) ++ bs ++ written b1
          /\ head b' = head b1 - len bs - 4)
    /\ (forall k, 0 <= k -> itemsize = 2 ^ k -> (off - 4) mod itemsize = 0).
Proof.
  intros H Hb Hidle. unfold save_numpy_vector_as_bytearray in H.
  mbind H E0 bld w0. unfold gets in E0. injection E0 as <- <-.
  rewrite Hb in H. mbind H E0 u0 w0. injection E0 as <- <-.
  mbind H E1 v1 w1. apply np_copy_inv in E1 as (A1 & D1).
  mbind H E2 v2 w2. apply ndarray_flatten_inv in E2 as (A2 & D2).
  mbind H E3 c w3. unfold np_can_cast, gets in E3. injection E3 as <- <-.
  rewrite D2, D1 in H.
  change (np.arr_dtype (np.flatten (np.copy (deref w value))))
    with (np.arr_dtype (deref w value)) in H.
  destruct (can_cast _ _) eqn:Hcast; [|done]. cbn [negb] in H.
  mbind H E4 v3 w3. apply np_array_inv in E4 as (A3 & D3).
  mbind H E5 dt3 w4. unfold ndarray_dtype, gets in E5.
  injection E5 as <- <-.
  mbind H E6 v4 w4.
  apply ensure_little_endian_inv in E6 as (A4 & Hbo & D4); [|done].
  mbind H E7 bytes w5. unfold ndarray_tobytes, gets in E7.
  injection E7 as <- <-.
  mbind H E8 dt4 w5. unfold ndarray_dtype, gets in E8.
  injection E8 as <- <-.
  assert (Hbytes : np.tobytes (deref w4 v4)
                   = expected_bytes cast_bits host (deref w value)
                                    (dtype attribute)).
  { rewrite D4, D3, D2, D1.
    change (np.arr_dtype (np.array _ _ _ ?dt)) with dt.
    destruct (np.is_big_endian host (dtype attribute)) eqn:Hbig.
    - by rewrite tobytes_byteswap_array_big.
    - by rewrite tobytes_array_little. }
  assert (Hdt : np.arr_dtype (deref w4 v4) = dtype attribute).
  { rewrite D4. destruct (np.is_big_endian _ _); by rewrite D3. }
  rewrite D3 in Hbo. cbn in Hbo.
  rewrite Hbytes, Hdt in H.
  set (bs := expected_bytes cast_bits host (deref w value) (dtype attribute))
    in *.
  assert (A : allocated w w4) by eauto using allocated_trans.
  assert (Hb4 : _builder w4 = Some b).
  { destruct A as (_ & _ & -> & _). done. }
  clear A1 A2 A3 A4 D1 D2 D3 D4 Hbytes Hdt.
  mbind H E9 r1 w5. apply onB_Ok_inv in E9 as (b0 & b1 & Hb0 & ES & ->).
  rewrite Hb4 in Hb0. injection Hb0 as <-.
  mbind H E10 u2 w6. apply onB_Ok_inv in E10 as (b1' & b2 & Hb1 & Eh & ->).
  cbn in Hb1. injection Hb1 as <-.
  unfold Head in Eh. msimpl Eh. injection Eh as _ <-.
  mbind H E11 u3 w7. apply onB_Ok_inv in E11 as (b2' & b3 & Hb2 & Ec & ->).
  cbn in Hb2. injection Hb2 as <-.
  unfold Head in Ec. msimpl Ec. injection Ec as _ <-.
  mbind H E12 u4 w8. apply onB_Ok_inv in E12 as (b3' & b4 & Hb3 & Ev & ->).
  cbn in Hb3. injection Hb3 as <-.
  unfold modify in Ev. injection Ev as _ <-.
  apply onB_Ok_inv in H as (b4' & b5 & Hb4' & EE & ->).
  cbn in Hb4'. injection Hb4' as <-.
  cbn [head with_head Bytes] in EE.
  pose proof (byte_vector_spec_aligned _ _ _ _ _ _ _ ES EE Hidle ltac:(lia))
    as (pad & Ew & Hidle' & Hoff & Hvt & _ & _ & Hr & Hal & Ew1 & Hh).
  exists b5, pad, w4. split_and!; try done.
  exists r1, b1. by split_and!.
Qed.

Lemma save_spec attribute value w off w' b :
  save_numpy_vector_as_bytearray host can_cast cast_bits attribute value w
  = Ok off w' ->
  _builder w = Some b -> idle b ->
  exists b' pad w1,
    let bs := expected_bytes cast_bits host (deref w value) (dtype attribute) in
    allocated w w1 /\ w' = with_builder (Some b') w1
    /\ idle b'
    /\ written b' = pack UOffsetTFlags (len bs) ++ bs ++ zeros pad ++ written b
    /\ off = offset_of b'
    /\ can_cast (np.arr_dtype (deref w value)) (dtype attribute) = true
    /\ numpy_byteorder (np.byteorder (dtype attribute))
    /\ vtables b' = vtables b
    /\ in_range UOffsetTFlags (len bs) = true.
Proof.
  intros H Hb Hidle.
  destruct (save_spec_vector _ _ _ _ _ _ H Hb Hidle)
    as (b' & pad & w1 & ? & ? & ? & ? & ? & ? & ? & ? & ? & _).
  exists b', pad, w1. by split_and!.
Qed.
End Encoder.

Lemma raises_onB {A} (m : M Builder.t A) :
  raises m builder_error -> raises (onB m) internal_error.
Proof.
  intros Hm w e w' H.
  apply onB_Raise_inv in H as [(_ & -> & _)|(b & b' & _ & H & _)]; [done|].
  apply Hm in H. unfold internal_error. by rewrite H.
Qed.

Lemma internal_not_caller e : internal_error e = true -> caller_error e = false.
Proof. by destruct e. Qed.

Section EncoderRaise.
Variable host : Platform.
Variable can_cast : np.dtype -> np.dtype -> bool.
Variable cast_bits : np.dtype -> np.dtype -> Z -> Z.

Lemma ensure_little_endian_raise (v : nat) (bo : string) w e w' :
  (if String.eqb bo "=" then
     if String.eqb (sys_byteorder host) "big" then
       ndarray_byteswap v false
     else if String.eqb (sys_byteorder host) "little" then ret v
     else raise ValueError_sys_byteorder
   else if String.eqb bo ">" then ndarray_byteswap v false
   else if String.eqb bo "<" || String.eqb bo "|" then ret v
   else raise ValueError_byteorder) w = Raise e w' ->
  e = ValueError_byteorder /\ w' = w /\ ~ numpy_byteorder bo.
Proof.
  intros H. unfold numpy_byteorder.
  destruct (String.eqb_spec bo "=") as [->|Hne1].
  - destruct host; cbn in H; discriminate.
  - destruct (String.eqb_spec bo ">") as [->|Hne2]; [discriminate|].
    destruct (String.eqb_spec bo "<") as [->|Hne3]; [discriminate|].
    destruct (String.eqb_spec bo "|") as [->|Hne4]; [discriminate|].
    cbn in H. injection H as <- <-. split_and!; try done. tauto.
Qed.

(** How the encoder fails: the three [ValueError]s are raised before the
    builder is touched; everything else comes from the builder. *)
Lemma save_raise attribute value w e w' b :
  save_numpy_vector_as_bytearray host can_cast cast_bits attribute value w
  = Raise e w' ->
  _builder w = Some b ->
  (e = ValueError_cannot_cast
   /\ can_cast (np.arr_dtype (deref w value)) (dtype attribute) = false
   /\ allocated w w')
  \/ (e = ValueError_byteorder
      /\ can_cast (np.arr_dtype (deref w value)) (dtype attribute) = true
      /\ ~ numpy_byteorder (np.byteorder (dtype attribute))
      /\ allocated w w')
  \/ (internal_error e = true
      /\ can_cast (np.arr_dtype (deref w value)) (dtype attribute) = true
      /\ numpy_byteorder (np.byteorder (dtype attribute))).
Proof.
  intros H Hb. unfold save_numpy_vector_as_bytearray in H.
  rbind H E0 bld w0; [discriminate|].
  unfold gets in E0. injection E0 as <- <-. rewrite Hb in H.
  rbind H E0 u0 w0; [discriminate|]. injection E0 as <- <-.
  rbind H E1 v1 w1; [discriminate|]. apply np_copy_inv in E1 as (A1 & D1).
  rbind H E2 v2 w2; [discriminate|].
  apply ndarray_flatten_inv in E2 as (A2 & D2).
  rbind H E3 c w3; [discriminate|].
  unfold np_can_cast, gets in E3. injection E3 as <- <-.
  rewrite D2, D1 in H.
  change (np.arr_dtype (np.flatten (np.copy (deref w value))))
    with (np.arr_dtype (deref w value)) in H.
  destruct (can_cast _ _) eqn:Hcast; cbn [negb] in H.
  2:{ injection H as <- <-. left. eauto using allocated_trans. }
  right.
  rbind H E4 v3 w3; [discriminate|]. apply np_array_inv in E4 as (A3 & D3).
  rbind H E5 dt3 w4; [discriminate|].
  unfold ndarray_dtype, gets in E5. injection E5 as <- <-.
  rewrite D3 in H. cbn [np.arr_dtype] in H.
  rbind H E6 v4 w4.
  { apply ensure_little_endian_raise in H as (-> & -> & Hbo).
    left. split_and!; eauto using allocated_trans. }
  apply ensure_little_endian_inv in E6 as (A4 & Hbo & D4);
    [|by rewrite D3].
  right. split_and!; try done.
  assert (A : allocated w w4) by eauto using allocated_trans.
  rbind H E7 bytes w5; [discriminate|].
  unfold ndarray_tobytes, gets in E7. injection E7 as <- <-.
  rbind H E8 dt4 w5; [discriminate|].
  unfold ndarray_dtype, gets in E8. injection E8 as <- <-.
  match type of H with
  | ?m _ = Raise _ _ => assert (R : raises m internal_error)
  end.
  { unfold Head.
    repeat (apply raises_bind; [|intros ?]); apply raises_onB; solve_raises. }
  exact (R _ _ _ H).
Qed.

(** An unsafe cast always ends in the [ValueError]. *)
Lemma save_cannot_cast attribute value w b :
  _builder w = Some b ->
  can_cast (np.arr_dtype (deref w value)) (dtype attribute) = false ->
  exists w',
    save_numpy_vector_as_bytearray host can_cast cast_bits attribute value w
    = Raise ValueError_cannot_cast w'
    /\ allocated w w'.
Proof.
  intros Hb Hcast. unfold save_numpy_vector_as_bytearray.
  unfold bind at 1. unfold gets at 1. rewrite Hb.
  unfold bind at 1. unfold ret at 1.
  destruct (np_copy value w) as [v1 w1|] eqn:E1; [|discriminate].
  unfold bind at 1. rewrite E1.
  apply np_copy_inv in E1 as (A1 & D1).
  destruct (ndarray_flatten v1 w1) as [v2 w2|] eqn:E2; [|discriminate].
  unfold bind at 1. rewrite E2.
  apply ndarray_flatten_inv in E2 as (A2 & D2).
  unfold bind at 1. unfold np_can_cast, gets.
  rewrite D2, D1.
  change (np.arr_dtype (np.flatten (np.copy (deref w value))))
    with (np.arr_dtype (deref w value)).
  rewrite Hcast. cbn [negb]. exists w2. split; [done|].
  eauto using allocated_trans.
Qed.
End EncoderRaise.

(** ** The writer: one attribute, one example *)

Lemma attribute_at_app pre w o bs :
  attribute_at w o bs -> attribute_at (pre ++ w) o bs.
Proof.
  intros (Ho & H). split; [done|]. rewrite pos_of_app.
  by apply attribute_bytes_shift.
Qed.

Lemma example_at_app pre w o bss :
  example_at w o bss -> example_at (pre ++ w) o bss.
Proof.
  intros (Ho & H). split; [done|]. rewrite pos_of_app.
  by apply example_attributes_shift.
Qed.

Lemma extends_refl b : extends b b.
Proof. by exists []. Qed.

Lemma extends_trans b1 b2 b3 : extends b1 b2 -> extends b2 b3 -> extends b1 b3.
Proof.
  intros (p1 & E1) (p2 & E2). exists (p2 ++ p1).
  by rewrite E2, E1, app_assoc.
Qed.

Lemma attribute_at_extends b b' o bs :
  extends b b' -> attribute_at (written b) o bs ->
  attribute_at (written b') o bs.
Proof. intros (pre & ->). apply attribute_at_app. Qed.

Lemma example_at_extends b b' o bss :
  extends b b' -> example_at (written b) o bss ->
  example_at (written b') o bss.
Proof. intros (pre & ->). apply example_at_app. Qed.

Lemma idle_init : idle (Builder.init 0).
Proof.
  unfold idle, wf. cbn. split_and!; try done.
Qed.

Lemma dict_get_valid w values k l :
  valid_example w values -> dict_get values k = Some l ->
  (l < length (arrays w))%nat.
Proof.
  unfold valid_example. induction values as [|[k' v] values IH]; [done|].
  intros Hv H. apply Forall_cons in Hv as [Hv1 Hv2]. cbn in H.
  destruct (String.eqb k' k); [by injection H as <-|auto].
Qed.

Lemma valid_example_extends w w' values :
  store_extends w w' -> valid_example w values -> valid_example w' values.
Proof.
  intros (new & E) Hv. unfold valid_example in *.
  rewrite E, length_app. eapply Forall_impl; [exact Hv|].
  intros ? ?. cbn in *. lia.
Qed.

Lemma example_value_extends w w' values attribute :
  store_extends w w' -> valid_example w values ->
  example_value w' values attribute = example_value w values attribute.
Proof.
  intros He Hv. unfold example_value.
  destruct (dict_get values (name attribute)) as [l|] eqn:Hget; [|done].
  apply store_extends_deref; [done|]. by eapply dict_get_valid.
Qed.

Lemma allocated_builder_step w w1 b' :
  allocated w w1 -> builder_step w (with_builder (Some b') w1) b'.
Proof. intros (? & ? & ? & ?). by split_and!. Qed.

Lemma builder_step_trans w w1 w2 b1 b2 :
  builder_step w w1 b1 -> builder_step w1 w2 b2 -> builder_step w w2 b2.
Proof.
  intros (? & ? & ? & ?) (? & ? & ? & ?).
  split_and!; try congruence. eauto using store_extends_trans.
Qed.

Section WriteFacts.
Variable host : Platform.
Variable can_cast : np.dtype -> np.dtype -> bool.
Variable cast_bits : np.dtype -> np.dtype -> Z -> Z.

Lemma save_attribute_spec values attribute w t w' b :
  save_attribute host can_cast cast_bits values attribute w = Ok t w' ->
  _builder w = Some b -> idle b ->
  exists b',
    builder_step w w' b'
    /\ idle b' /\ extends b b'
    /\ attribute_at (written b') t
         (expected_bytes cast_bits host (example_value w values attribute)
                         (dtype attribute))
    /\ can_cast (np.arr_dtype (example_value w values attribute))
                (dtype attribute) = true
    /\ is_Some (dict_get values (name attribute))
    /\ exists pre,
         written b' = pre ++ written b
         /\ embedded pre (expected_bytes cast_bits host
                            (example_value w values attribute)
                            (dtype attribute)).
Proof.
  intros H Hb Hidle. unfold save_attribute in H.
  mbind H E0 l w0. unfold dict_getitem in E0.
  destruct (dict_get values (name attribute)) as [l'|] eqn:Hget; [|done].
  injection E0 as <- <-.
  mbind H E1 off w1.
  pose proof (save_spec _ _ _ _ _ _ _ _ _ E1 Hb Hidle)
    as (b1 & pad & w1' & A & -> & Hidle1 & Ew1 & Hoff & Hcast & _ & _ & Hr).
  mbind H E2 u2 w2. apply onB_Ok_inv in E2 as (b1' & b2 & Hb1 & ES & ->).
  cbn in Hb1. injection Hb1 as <-.
  mbind H E3 u3 w3. apply onB_Ok_inv in E3 as (b2' & b3 & Hb2 & EA & ->).
  cbn in Hb2. injection Hb2 as <-.
  apply onB_Ok_inv in H as (b3' & b4 & Hb3 & EE & ->).
  cbn in Hb3. injection Hb3 as <-.
  destruct u2, u3.
  assert (Hpos : 0 < off).
  { subst off. rewrite offset_written by apply Hidle1.
    rewrite Ew1, len_app, len_pack by done.
    pose proof (len_nonneg
      (expected_bytes cast_bits host (deref w l') (dtype attribute)
         ++ zeros pad ++ written b)). cbn. lia. }
  pose proof (table_spec _ _ _ _ _ _ ES EA EE Hidle1 Hpos)
    as (Hidle4 & Hext & Htab & Ht).
  exists b4. split_and!; try done.
  - by apply (allocated_builder_step w w1' b4).
  - eapply extends_trans; [|done]. eexists. rewrite Ew1.
    by rewrite !app_assoc.
  - split; [lia|]. unfold example_value. rewrite Hget.
    eapply attribute_bytes_of_table; [done|].
    destruct Hext as (pre & ->). apply bytes_at_app.
    rewrite Ew1. subst off. rewrite offset_written by apply Hidle1.
    rewrite Ew1. by apply bytes_at_front.
  - unfold example_value. by rewrite Hget.
  - destruct Hext as (pre & Epre). rewrite Ew1 in Epre.
    exists (pre ++ pack UOffsetTFlags
                     (len (expected_bytes cast_bits host (deref w l')
                                          (dtype attribute)))
                ++ expected_bytes cast_bits host (deref w l')
                                  (dtype attribute)
                ++ zeros pad).
    split.
    + rewrite Epre. by rewrite <- !app_assoc.
    + unfold example_value. rewrite Hget. by exists pre, (zeros pad).
Qed.

Lemma collect_spec values attrs acc acc_cs w saved w' b :
  collectM attrs (save_attribute host can_cast cast_bits values) acc w
  = Ok saved w' ->
  _builder w = Some b -> idle b -> valid_example w values ->
  Forall2 (attribute_at (written b)) acc acc_cs ->
  exists b',
    builder_step w w' b'
    /\ idle b' /\ extends b b'
    /\ Forall2 (attribute_at (written b')) saved
         (acc_cs ++ map (fun a => expected_bytes cast_bits host
                                    (example_value w values a) (dtype a))
                        attrs)
    /\ Forall (fun a => is_Some (dict_get values (name a))
                        /\ can_cast (np.arr_dtype (example_value w values a))
                                    (dtype a) = true) attrs.
Proof.
  revert acc acc_cs w b.
  induction attrs as [|a attrs IH]; intros acc acc_cs w b H Hb Hidle Hv Hacc;
    cbn in H.
  - injection H as <- <-. exists b. rewrite app_nil_r.
    split_and!; auto using extends_refl, store_extends_refl.
    by split_and!; auto using store_extends_refl.
  - mbind H E hdl w2.
    pose proof (save_attribute_spec _ _ _ _ _ _ E Hb Hidle)
      as (b1 & St1 & Hidle1 & Hext1 & Hat & Hcast & Hsome & _).
    assert (S1 : store_extends w w2) by apply St1.
    destruct (IH _ (acc_cs ++ [expected_bytes cast_bits host
                                 (example_value w values a) (dtype a)])
                 _ b1 H)
      as (b' & St2 & Hidle' & Hext' & Hall & Hok).
    { apply St1. }
    { done. }
    { by eapply valid_example_extends. }
    { apply Forall2_app; [|by apply Forall2_cons].
      eapply Forall2_impl; [exact Hacc|].
      intros ? ?. by apply attribute_at_extends. }
    exists b'. split_and!; try done.
    + eauto using builder_step_trans.
    + eauto using extends_trans.
    + rewrite <- app_assoc in Hall. cbn in Hall. cbn.
      erewrite map_ext; [exact Hall|].
      intros a'. cbn. f_equal. symmetry. by apply example_value_extends.
    + apply Forall_cons. split; [done|].
      eapply Forall_impl; [exact Hok|]. intros a' [? Hc]. split; [done|].
      by rewrite <- (example_value_extends w w2).
Qed.
End WriteFacts.

Lemma forM_onB_inv {A} (f : A -> M Builder.t unit) xs w w' b :
  forM_ xs (fun x => onB (f x)) w = Ok tt w' ->
  _builder w = Some b ->
  exists b', forM_ xs f b = Ok tt b' /\ w' = with_builder (Some b') w.
Proof.
  revert w b. induction xs as [|x xs IH]; intros w b H Hb; cbn in H.
  - injection H as <-. exists b. split; [done|].
    destruct w; cbn in *; by subst.
  - mbind H E u w1. apply onB_Ok_inv in E as (b0 & b1 & Hb0 & E & ->).
    rewrite Hb in Hb0. injection Hb0 as <-.
    apply (IH _ b1) in H as (b' & H & ->); [|done].
    exists b'. split; [|done]. cbn. destruct u.
    by rewrite (bind_Ok_intro _ _ _ _ _ E).
Qed.

Lemma offsets_at_extends b b' o offs :
  extends b b' -> offsets_at (written b) o offs ->
  offsets_at (written b') o offs.
Proof. intros (pre & ->). apply offsets_at_app. Qed.

Section WriteSpec.
Variable host : Platform.
Variable can_cast : np.dtype -> np.dtype -> bool.
Variable cast_bits : np.dtype -> np.dtype -> Z -> Z.
Variable dataset_structure : DatasetStructure.

(** The part of [_write] after the loop (lines 88-99), on the builder:
    the vector of attribute handles and the example record. *)
Lemma example_record_spec saved contents b r b1 b2 v b3 b4 b5 e b6 :
  StartVector 4 (len saved) 4 b = Ok r b1 ->
  forM_ (rev saved) PrependUOffsetTRelative b1 = Ok tt b2 ->
  EndVector b2 = Ok v b3 ->
  StartObject 1 b3 = Ok tt b4 ->
  PrependUOffsetTRelativeSlot 0 v 0 b4 = Ok tt b5 ->
  EndObject b5 = Ok e b6 ->
  idle b ->
  Forall2 (attribute_at (written b)) saved contents ->
  idle b6 /\ extends b b6 /\ example_at (written b6) e contents.
Proof.
  intros H1 H2 H3 H4 H5 H6 Hidle Hall.
  pose proof (offsets_vector_spec _ _ _ _ _ _ _ H1 H2 H3 Hidle)
    as (Hidle3 & Hext3 & Hoffs & Hv).
  pose proof (table_spec _ _ _ _ _ _ H4 H5 H6 Hidle3 ltac:(lia))
    as (Hidle6 & Hext6 & Htab & He).
  split_and!; [done|eauto using extends_trans|].
  split; [lia|]. unfold Reader.example_attributes.
  eapply table_vector_of_table; [done|by eapply offsets_at_extends|].
  eapply Forall2_impl; [exact Hall|]. intros o bs Hat.
  eapply (attribute_at_extends b b6) in Hat; [|eauto using extends_trans].
  apply Hat.
Qed.

Lemma write_spec values w w' cs :
  _write host can_cast cast_bits dataset_structure values w = Ok tt w' ->
  consistent w cs -> valid_example w values ->
  consistent w' (cs ++ [example_content cast_bits host dataset_structure
                                        w values])
  /\ store_extends w w' /\ shard_file w' = shard_file w
  /\ length (_examples w') = S (length (_examples w))
  /\ Forall (fun a => is_Some (dict_get values (name a))
                      /\ can_cast (np.arr_dtype (example_value w values a))
                                  (dtype a) = true)
            (saved_data_description dataset_structure).
Proof.
  intros H Hc Hv. unfold _write in H.
  mbind H E0 bld w0. unfold gets in E0. injection E0 as <- <-.
  mbind H E0 u0 w0.
  assert (Hw0 : exists b0,
             _builder w0 = Some b0 /\ idle b0
             /\ Forall2 (example_at (written b0)) (_examples w0) cs
             /\ arrays w0 = arrays w /\ _examples w0 = _examples w
             /\ shard_file w0 = shard_file w).
  { unfold consistent in Hc. destruct (_builder w) as [b|] eqn:Hb.
    - cbn in E0. injection E0 as _ <-. exists b. by destruct Hc.
    - cbn in E0. injection E0 as _ <-. destruct Hc as (He & ->).
      exists (Builder.init 0). cbn. rewrite He.
      split_and!; auto using idle_init. }
  clear E0 Hc. destruct Hw0 as (b0 & Hb0 & Hidle0 & Hex0 & Ha0 & He0 & Hf0).
  assert (Hv0 : valid_example w0 values).
  { unfold valid_example in *. by rewrite Ha0. }
  mbind H E1 saved w1.
  pose proof (collect_spec _ _ _ _ _ _ [] _ _ _ _ E1 Hb0 Hidle0 Hv0
                           (Forall2_nil_2 _ _ _))
    as (b1 & St1 & Hidle1 & Hext1 & Hall & Hok).
  cbn [app] in Hall.
  destruct St1 as (S1 & Hex1 & Hf1 & Hb1).
  mbind H E2 r2 w2. apply onB_Ok_inv in E2 as (b1' & b2 & Hb1' & ES & ->).
  rewrite Hb1 in Hb1'. injection Hb1' as <-.
  mbind H E3 u3 w3. destruct u3.
  apply (forM_onB_inv _ _ _ _ b2) in E3 as (b3 & EL & ->); [|done].
  mbind H E4 v w4. apply onB_Ok_inv in E4 as (b3' & b4 & Hb3 & EE & ->).
  cbn in Hb3. injection Hb3 as <-.
  mbind H E5 u5 w5. apply onB_Ok_inv in E5 as (b4' & b5 & Hb4 & EO & ->).
  cbn in Hb4. injection Hb4 as <-.
  mbind H E6 u6 w6. apply onB_Ok_inv in E6 as (b5' & b6 & Hb5 & EA & ->).
  cbn in Hb5. injection Hb5 as <-.
  mbind H E7 e w7. apply onB_Ok_inv in E7 as (b6' & b7 & Hb6 & EW & ->).
  cbn in Hb6. injection Hb6 as <-.
  unfold modify in H. injection H as <-. destruct u5, u6.
  pose proof (example_record_spec _ _ _ _ _ _ _ _ _ _ _ _
                ES EL EE EO EA EW Hidle1 Hall)
    as (Hidle7 & Hext7 & Hex7).
  assert (Heq : forall a,
             example_value w0 values a = example_value w values a).
  { intros a. unfold example_value, deref. by rewrite Ha0. }
  split_and!.
  - unfold consistent. cbn. split; [done|].
    apply Forall2_app.
    + rewrite Hex1, He0. rewrite He0 in Hex0.
      eapply Forall2_impl; [exact Hex0|]. intros o bss Hat.
      eapply example_at_extends; [|exact Hat]. eauto using extends_trans.
    + constructor; [|constructor]. unfold example_content.
      erewrite map_ext; [exact Hex7|]. intros a. cbn. by rewrite Heq.
  - destruct S1 as (new & E). exists new. cbn. by rewrite E, Ha0.
  - cbn. congruence.
  - cbn. rewrite length_app, Hex1, He0. cbn. lia.
  - eapply Forall_impl; [exact Hok|]. intros a [? ?]. by rewrite <- Heq.
Qed.
End WriteSpec.

Lemma embedded_app_l pre pre' bs : embedded pre bs -> embedded (pre' ++ pre) bs.
Proof.
  intros (p & q & ->). exists (pre' ++ p), q. by rewrite <- !app_assoc.
Qed.

Lemma embedded_app_r pre pre' bs : embedded pre bs -> embedded (pre ++ pre') bs.
Proof.
  intros (p & q & ->). exists p, (q ++ pre'). by rewrite <- !app_assoc.
Qed.

Lemma allocated_store w w' : allocated w w' -> store_extends w w'.
Proof. by intros (? & _). Qed.

Section WriteRaise.
Variable host : Platform.
Variable can_cast : np.dtype -> np.dtype -> bool.
Variable cast_bits : np.dtype -> np.dtype -> Z -> Z.
Variable dataset_structure : DatasetStructure.

(** How the body of the loop of [_write] fails. *)
Lemma save_attribute_raise values attribute w e w' b :
  save_attribute host can_cast cast_bits values attribute w = Raise e w' ->
  _builder w = Some b ->
  (e = KeyError /\ dict_get values (name attribute) = None /\ w' = w)
  \/ (e = ValueError_cannot_cast
      /\ is_Some (dict_get values (name attribute))
      /\ can_cast (np.arr_dtype (example_value w values attribute))
                  (dtype attribute) = false
      /\ allocated w w')
  \/ (e = ValueError_byteorder /\ allocated w w')
  \/ internal_error e = true.
Proof.
  intros H Hb. unfold save_attribute in H.
  rbind H E0 l w0.
  { unfold dict_getitem in H.
    destruct (dict_get values (name attribute)); [done|].
    injection H as <- <-. by left. }
  unfold dict_getitem in E0.
  destruct (dict_get values (name attribute)) as [l'|] eqn:Hget; [|done].
  injection E0 as <- <-. right.
  rbind H E1 off w1.
  { eapply save_raise in H as [(-> & Hc & A)|[(-> & _ & _ & A)|(Hi & _)]];
      [| | |done].
    - left. unfold example_value. rewrite Hget. split_and!; eauto.
    - right. left. eauto.
    - right. right. done. }
  right. right.
  match type of H with
  | ?m _ = Raise _ _ => assert (R : raises m internal_error)
  end.
  { unfold fbapi.AttributeStart, fbapi.AttributeAddAttributeBytes,
      fbapi.AttributeEnd.
    repeat (apply raises_bind; [|intros ?]); apply raises_onB; solve_raises. }
  exact (R _ _ _ H).
Qed.

Lemma collect_raise values attrs acc w e w' b :
  collectM attrs (save_attribute host can_cast cast_bits values) acc w
  = Raise e w' ->
  caller_error e = true -> _builder w = Some b -> idle b ->
  exists b', builder_step w w' b' /\ idle b' /\ extends b b'.
Proof.
  revert acc w b.
  induction attrs as [|a attrs IH]; intros acc w b H He Hb Hidle; cbn in H.
  - discriminate.
  - rbind H E hdl w2.
    + exists b. split_and!; auto using extends_refl.
      apply save_attribute_raise with (b := b) in H
        as [(_ & _ & ->)|[(_ & _ & _ & A)|[(_ & A)|Hi]]]; [| | | |done].
      * by split_and!; auto using store_extends_refl.
      * destruct A as (? & ? & ? & ?). split_and!; congruence.
      * destruct A as (? & ? & ? & ?). split_and!; congruence.
      * apply internal_not_caller in Hi. congruence.
    + pose proof (save_attribute_spec _ _ _ _ _ _ _ _ _ E Hb Hidle)
        as (b1 & St1 & Hidle1 & Hext1 & _).
      destruct (IH _ _ b1 H He) as (b' & St2 & Hidle' & Hext'); [apply St1|done|].
      exists b'. split_and!; eauto using builder_step_trans, extends_trans.
Qed.

(** A failure on an attribute that comes after [done]: the byte vectors
    of [done] stay in the buffer. *)
Lemma collect_raise_after values done rest acc w e w' b :
  collectM (done ++ rest) (save_attribute host can_cast cast_bits values)
           acc w = Raise e w' ->
  e = ValueError_cannot_cast \/ e = KeyError ->
  _builder w = Some b -> idle b -> valid_example w values ->
  Forall (fun a => is_Some (dict_get values (name a))
                   /\ can_cast (np.arr_dtype (example_value w values a))
                               (dtype a) = true) done ->
  exists b' orphan,
    builder_step w w' b' /\ idle b'
    /\ written b' = orphan ++ written b
    /\ Forall (fun a => embedded orphan
                          (expected_bytes cast_bits host
                             (example_value w values a) (dtype a))) done.
Proof.
  revert acc w b.
  induction done as [|a done IH]; intros acc w b H He Hb Hidle Hv Hdone.
  - eapply collect_raise in H as (b' & St & Hidle' & (orphan & Ho)); eauto.
    + exists b', orphan. split_and!; auto.
    + by destruct He as [-> | ->].
  - apply Forall_cons in Hdone as ((Hsome & Hcast) & Hdone).
    cbn in H. rbind H E hdl w2.
    + exfalso.
      apply save_attribute_raise with (b := b) in H
        as [(_ & Hn & _)|[(_ & _ & Hc & _)|[(-> & _)|Hi]]]; [| | | |done].
      * rewrite Hn in Hsome. by destruct Hsome.
      * congruence.
      * by destruct He.
      * apply internal_not_caller in Hi. by destruct He as [-> | ->].
    + pose proof (save_attribute_spec _ _ _ _ _ _ _ _ _ E Hb Hidle)
        as (b1 & St1 & Hidle1 & _ & _ & _ & _ & pre & Epre & Hemb).
      assert (S1 : store_extends w w2) by apply St1.
      destruct (IH _ _ b1 H He) as (b' & orphan & St2 & Hidle' & Eo & Hall).
      { apply St1. }
      { done. }
      { by eapply valid_example_extends. }
      { eapply Forall_impl; [exact Hdone|]. intros a' [? ?].
        by rewrite (example_value_extends w w2). }
      exists b', (orphan ++ pre). split_and!.
      * eauto using builder_step_trans.
      * done.
      * by rewrite Eo, Epre, app_assoc.
      * apply Forall_cons. split; [by apply embedded_app_l|].
        eapply Forall_impl; [exact Hall|]. intros a' Ha'.
        cbv beta in Ha' |- *.
        rewrite (example_value_extends w w2) in Ha' by done.
        by apply embedded_app_r.
Qed.

Lemma write_enter w cs :
  consistent w cs ->
  exists b0,
    idle b0
    /\ Forall2 (example_at (written b0)) (_examples w) cs
    /\ (_builder w = Some b0
        \/ _builder w = None /\ b0 = Builder.init 0).
Proof.
  unfold consistent. destruct (_builder w) as [b|].
  - intros (? & ?). exists b. auto.
  - intros (-> & ->). exists (Builder.init 0).
    split_and!; auto using idle_init.
Qed.

(** A write that fails on the caller's input leaves the writer
    consistent: no example was added, and the buffer only grew. *)
Lemma write_raise values w e w' cs :
  _write host can_cast cast_bits dataset_structure values w = Raise e w' ->
  caller_error e = true -> consistent w cs ->
  consistent w' cs /\ store_extends w w'
  /\ _examples w' = _examples w /\ shard_file w' = shard_file w
  /\ is_Some (_builder w')
  /\ forall b, _builder w = Some b ->
       exists b', _builder w' = Some b' /\ extends b b'.
Proof.
  intros H He Hc. unfold _write in H.
  rbind H E0 bld w0; [discriminate|].
  unfold gets in E0. injection E0 as <- <-.
  rbind H E0 u0 w0.
  { destruct (_builder w); discriminate. }
  destruct (write_enter _ _ Hc) as (b0 & Hidle0 & Hex0 & Hb0).
  assert (Hw0 : _builder w0 = Some b0 /\ arrays w0 = arrays w
                /\ _examples w0 = _examples w
                /\ shard_file w0 = shard_file w).
  { destruct Hb0 as [Hb|(Hb & ->)]; rewrite Hb in E0; cbn in E0;
      injection E0 as _ <-; by cbn. }
  clear E0. destruct Hw0 as (Hb0' & Ha0 & He0 & Hf0).
  rbind H E1 saved w1.
  - eapply collect_raise in H as (b' & St & Hidle' & Hext); eauto.
    destruct St as ((new & En) & Hex & Hf & Hb').
    split_and!.
    + unfold consistent. rewrite Hb'. split; [done|].
      rewrite Hex, He0. eapply Forall2_impl; [exact Hex0|].
      intros o bss. by apply example_at_extends.
    + exists new. by rewrite En, Ha0.
    + congruence.
    + congruence.
    + by rewrite Hb'.
    + intros b Hb. exists b'. split; [done|].
      destruct Hb0 as [Hb0|(Hb0 & _)]; congruence.
  - exfalso.
    match type of H with
    | ?m _ = Raise _ _ => assert (R : raises m internal_error)
    end.
    { unfold fbapi.ExampleStartAttributesVector, fbapi.ExampleStart,
        fbapi.ExampleAddAttributes, fbapi.ExampleEnd.
      repeat (apply raises_bind; [|intros ?]);
        first [ apply raises_onB; solve_raises
              | apply raises_forM_; intros ?; apply raises_onB; solve_raises
              | apply raises_modify ]. }
    apply R, internal_not_caller in H. congruence.
Qed.
End WriteRaise.

(** ** Finishing the buffer and closing the shard *)

Lemma Finish_spec root b h b' :
  Finish root b = Ok h b' -> wf b ->
  exists pad,
    written b' = pack UOffsetTFlags (len (written b') - root)
                   ++ zeros pad ++ written b
    /\ wf b' /\ finished b' = true
    /\ in_range UOffsetTFlags (len (written b') - root) = true.
Proof.
  unfold Finish, Head. intros H W. msimpl H.
  mres H E0 u0 s0. unfold enforce_number in E0. mcase E0.
  injection E0 as _ <-.
  change (bytewidth UOffsetTFlags) with 4 in H.
  mres H E1 u1 s1. mres H E2 u2 s2. injection H as _ <-.
  destruct u1, u2.
  assert (Hma : 0 <= minalign b) by (destruct W as (_ & _ & ?); lia).
  pose proof (Prep_spec _ _ _ _ E1 W Hma ltac:(lia)) as (G1 & _).
  assert (W1 : wf s1) by apply G1.
  pose proof (PrependUOffsetTRelative_spec _ _ _ E2 W1)
    as (G2 & _ & _ & Hr & _).
  pose proof (grows_offset _ _ _ W1 G2) as Ho.
  rewrite len_app, len_pack, len_zeros in Ho by done.
  change (bytewidth UOffsetTFlags) with 4 in Ho.
  destruct G1 as (_ & Ew1 & _). destruct G2 as (W2 & Ew2 & _).
  change (written (with_finished true s2)) with (written s2).
  assert (Hl : len (written s2)
               = offset_of s1
                 + Z.of_nat (Z.to_nat (prep_pad (offset_of s1) 0 4)) + 4).
  { rewrite <- offset_written by done. lia. }
  rewrite Hl.
  exists (Z.to_nat (prep_pad (offset_of s1) 0 4)
          + Z.to_nat (prep_pad (offset_of b) 4 (minalign b)))%nat.
  split_and!; try done.
  rewrite Ew2, Ew1, <- zeros_app, <- !app_assoc. done.
Qed.

Lemma Output_spec b out b' :
  Output b = Ok out b' -> wf b -> out = written b /\ b' = b.
Proof.
  unfold Output. intros H (Hh & _). mcase H. injection H as <- <-.
  split; [|done]. unfold written, slice_index.
  destruct (Z.ltb_spec (head b) 0); [lia|]. do 2 f_equal. lia.
Qed.

Section CloseSpec.
Variable compress : string -> list byte -> list byte.
Variable dataset_structure : DatasetStructure.

(** [close] on a writer that holds no example. *)
Lemma close_empty w :
  _examples w = [] ->
  close compress dataset_structure w
  = if shard_file w is Some _ then Raise AssertionError w else Ok tt w.
Proof.
  intros He. unfold close. unfold bind at 1. unfold gets at 1.
  rewrite He. unfold bind, gets. by destruct (shard_file w).
Qed.

(** [close] on a writer that holds examples: the file decodes to them. *)
Lemma close_spec w w' cs :
  close compress dataset_structure w = Ok tt w' ->
  consistent w cs -> _examples w <> [] ->
  exists out,
    shard_file w' = Some (compress (compression dataset_structure) out)
    /\ Reader.decode_shard out = Some cs
    /\ _builder w' = None /\ _examples w' = _examples w
    /\ arrays w' = arrays w.
Proof.
  intros H Hc Hne. unfold close in H.
  mbind H E0 exs w0. unfold gets in E0. injection E0 as <- <-.
  destruct (_examples w) as [|e0 es] eqn:Hex; [done|]. cbv iota in H.
  rewrite <- Hex in *. clear Hne.
  unfold consistent in Hc.
  mbind H E1 r1 w1. apply onB_Ok_inv in E1 as (b & b1 & Hb & ES & ->).
  rewrite Hb in Hc. destruct Hc as (Hidle & Hall).
  mbind H E2 u2 w2. destruct u2.
  apply (forM_onB_inv _ _ _ _ b1) in E2 as (b2 & EL & ->); [|done].
  mbind H E3 v w3. apply onB_Ok_inv in E3 as (b2' & b3 & Hb2 & EE & ->).
  cbn in Hb2. injection Hb2 as <-.
  mbind H E4 u4 w4. apply onB_Ok_inv in E4 as (b3' & b4 & Hb3 & EO & ->).
  cbn in Hb3. injection Hb3 as <-.
  mbind H E5 u5 w5. apply onB_Ok_inv in E5 as (b4' & b5 & Hb4 & EA & ->).
  cbn in Hb4. injection Hb4 as <-.
  mbind H E6 root w6. apply onB_Ok_inv in E6 as (b5' & b6 & Hb5 & EW & ->).
  cbn in Hb5. injection Hb5 as <-.
  mbind H E7 h w7. apply onB_Ok_inv in E7 as (b6' & b7 & Hb6 & EF & ->).
  cbn in Hb6. injection Hb6 as <-.
  mbind H E8 u8 w8. unfold modify in E8. injection E8 as _ <-.
  mbind H E9 out w9. apply onB_Ok_inv in E9 as (b7' & b8 & Hb7 & EP & ->).
  cbn in Hb7. injection Hb7 as <-.
  mbind H E10 u10 w10. unfold modify in E10. injection E10 as _ <-.
  mbind H E11 u11 w11. unfold modify in E11. injection E11 as _ <-.
  mbind H E12 fl w12. unfold gets in E12. injection E12 as <- <-.
  cbn in H. injection H as <-. destruct u4, u5.
  pose proof (offsets_vector_spec _ _ _ _ _ _ _ ES EL EE Hidle)
    as (Hidle3 & Hext3 & Hoffs & Hv).
  pose proof (table_spec _ _ _ _ _ _ EO EA EW Hidle3 ltac:(lia))
    as (Hidle6 & Hext6 & Htab & He).
  pose proof (Finish_spec _ _ _ _ EF ltac:(apply Hidle6))
    as (pad & Ew7 & W7 & Hfin & Hr).
  apply Output_spec in EP as (-> & ->); [|done].
  exists (written b7). cbn. split_and!; try done.
  unfold Reader.decode_shard.
  rewrite Ew7 at 1. rewrite Indirect_front by done. cbn.
  fold (pos_of (written b7) root). unfold Reader.shard_examples.
  rewrite Ew7, app_assoc.
  eapply table_vector_of_table.
  - by apply table_at_app.
  - apply offsets_at_app. by eapply offsets_at_extends.
  - eapply Forall2_impl; [exact Hall|]. intros o bss Hat.
    eapply (example_at_extends b b6) in Hat; [|eauto using extends_trans].
    by apply example_at_app.
Qed.
End CloseSpec.

(** ** What a call leaves untouched, however it ends *)

Section Frames.
Variable R : World -> World -> Prop.
Hypothesis R_refl : forall w, R w w.
Hypothesis R_trans : forall w1 w2 w3, R w1 w2 -> R w2 w3 -> R w1 w3.
Hypothesis R_alloc : forall w a, R w (with_arrays (arrays w ++ [a]) w).
Hypothesis R_builder : forall w v, R w (with_builder v w).

Lemma frames_ret {A} (a : A) : frames R (ret a).
Proof. intros w. apply R_refl. Qed.

Lemma frames_gets {A} (f : World -> A) : frames R (gets f).
Proof. intros w. apply R_refl. Qed.

Lemma frames_raise {A} e : frames R (@raise World A e).
Proof. intros w. apply R_refl. Qed.

Lemma frames_bind {A B} (m : M World A) (k : A -> M World B) :
  frames R m -> (forall a, frames R (k a)) -> frames R (bind m k).
Proof.
  intros Hm Hk w. unfold bind. specialize (Hm w).
  destruct (m w) as [a w1|e w1]; cbn in *; [|done].
  eapply R_trans; [exact Hm|apply Hk].
Qed.

Lemma frames_if {A} (c : bool) (m1 m2 : M World A) :
  frames R m1 -> frames R m2 -> frames R (if c then m1 else m2).
Proof. by destruct c. Qed.

Lemma frames_when c (m : M World unit) : frames R m -> frames R (when c m).
Proof. intros. destruct c; [done|apply frames_ret]. Qed.

Lemma frames_forM_ {A} (xs : list A) (body : A -> M World unit) :
  (forall x, frames R (body x)) -> frames R (forM_ xs body).
Proof.
  intros Hb. induction xs as [|x xs IH]; cbn.
  - apply frames_ret.
  - apply frames_bind; auto.
Qed.

Lemma frames_collectM {A B} (xs : list A) (body : A -> M World B) acc :
  (forall x, frames R (body x)) -> frames R (collectM xs body acc).
Proof.
  intros Hb. revert acc. induction xs as [|x xs IH]; intros acc; cbn.
  - apply frames_ret.
  - apply frames_bind; auto.
Qed.

Lemma frames_onB {A} (m : M Builder.t A) : frames R (onB m).
Proof.
  intros w. unfold onB. destruct (_builder w) as [b|]; [|apply R_refl].
  destruct (m b); apply R_builder.
Qed.

Lemma frames_alloc a : frames R (alloc a).
Proof. intros w. apply R_alloc. Qed.

Lemma frames_set_builder v : frames R (modify (with_builder v)).
Proof. intros w. apply R_builder. Qed.

Ltac frames_step :=
  first
    [ apply frames_ret | apply frames_gets | apply frames_raise
    | apply frames_onB | apply frames_alloc | apply frames_set_builder
    | apply frames_bind; [|intros ?]
    | apply frames_when | apply frames_forM_; intros ?
    | apply frames_collectM; intros ?
    | apply frames_if
    | match goal with
      | |- frames _ (match ?x with _ => _ end) => destruct x
      end ].

Variable host : Platform.
Variable can_cast : np.dtype -> np.dtype -> bool.
Variable cast_bits : np.dtype -> np.dtype -> Z -> Z.
Variable dataset_structure : DatasetStructure.

Lemma frames_save attribute value :
  frames R (save_numpy_vector_as_bytearray host can_cast cast_bits
                                           attribute value).
Proof.
  unfold save_numpy_vector_as_bytearray, np_copy, ndarray_flatten,
    np_can_cast, np_array, ndarray_dtype, ndarray_byteswap, ndarray_tobytes.
  repeat frames_step.
Qed.

Lemma frames_save_attribute values attribute :
  frames R (save_attribute host can_cast cast_bits values attribute).
Proof.
  unfold save_attribute, dict_getitem.
  repeat first [apply frames_save | frames_step].
Qed.

Lemma frames_write values :
  (forall w v, R w (with_examples v w)) ->
  frames R (_write host can_cast cast_bits dataset_structure values).
Proof.
  intros R_examples. unfold _write.
  repeat first [apply frames_save_attribute | frames_step].
  intros w. apply R_examples.
Qed.

Lemma frames_on_raise_of {A} (m : M World A) : frames R m -> frames_on_raise R m.
Proof. intros Hm w e w' H. specialize (Hm w). by rewrite H in Hm. Qed.

Lemma frames_on_raise_bind {A B} (m : M World A) (k : A -> M World B) :
  frames R m -> (forall a, frames_on_raise R (k a)) ->
  frames_on_raise R (bind m k).
Proof.
  intros Hm Hk w e w' H. specialize (Hm w).
  apply bind_Raise_inv in H as [H|(a & w1 & E & H)].
  - by rewrite H in Hm.
  - rewrite E in Hm. eapply R_trans; [exact Hm|]. by eapply Hk.
Qed.

Lemma frames_on_raise_modify f : frames_on_raise R (modify f).
Proof. by intros w e w' H. Qed.

(** A failed [_write] did everything but its last statement, the
    [append]. *)
Lemma frames_write_raise values :
  frames_on_raise R (_write host can_cast cast_bits dataset_structure values).
Proof.
  unfold _write.
  repeat (apply frames_on_raise_bind; [|intros ?]);
    try apply frames_on_raise_modify;
    repeat first [apply frames_save_attribute | frames_step].
Qed.
End Frames.

Lemma kept_store_and_file_refl w : kept_store_and_file w w.
Proof. split; [apply store_extends_refl|done]. Qed.

Lemma kept_store_and_file_trans w1 w2 w3 :
  kept_store_and_file w1 w2 -> kept_store_and_file w2 w3 ->
  kept_store_and_file w1 w3.
Proof.
  intros (? & ?) (? & ?). split; [eauto using store_extends_trans|congruence].
Qed.

Lemma kept_examples_refl w : kept_examples w w.
Proof. split_and!; [by exists []; rewrite app_nil_r|done..]. Qed.

Lemma kept_examples_trans w1 w2 w3 :
  kept_examples w1 w2 -> kept_examples w2 w3 -> kept_examples w1 w3.
Proof.
  intros (? & ? & ?) (? & ? & ?).
  split_and!; [eauto using store_extends_trans|congruence..].
Qed.

Section WriterFrames.
Variable host : Platform.
Variable can_cast : np.dtype -> np.dtype -> bool.
Variable cast_bits : np.dtype -> np.dtype -> Z -> Z.
Variable dataset_structure : DatasetStructure.

(** However the encoder ends, it only adds arrays to the store; the file
    and the list of examples are as they were. *)
Lemma save_keeps attribute value :
  frames kept_examples
         (save_numpy_vector_as_bytearray host can_cast cast_bits
                                         attribute value).
Proof.
  apply frames_save.
  - apply kept_examples_refl.
  - apply kept_examples_trans.
  - intros w a. split_and!; [by exists [a]|done..].
  - intros w v. split_and!; [by exists []; rewrite app_nil_r|done..].
Qed.

(** However [_write] ends, it only adds arrays to the store, and the file
    is as it was. *)
Lemma write_keeps values :
  frames kept_store_and_file
         (_write host can_cast cast_bits dataset_structure values).
Proof.
  apply frames_write.
  - apply kept_store_and_file_refl.
  - apply kept_store_and_file_trans.
  - intros w a. split; [by exists [a]|done].
  - intros w v. split; [by exists []; rewrite app_nil_r|done].
  - intros w v. split; [by exists []; rewrite app_nil_r|done].
Qed.

(** A [_write] that raises leaves the list of examples as it was. *)
Lemma write_raise_keeps values :
  frames_on_raise kept_examples
                  (_write host can_cast cast_bits dataset_structure values).
Proof.
  apply frames_write_raise.
  - apply kept_examples_refl.
  - apply kept_examples_trans.
  - intros w a. split_and!; [by exists [a]|done..].
  - intros w v. split_and!; [by exists []; rewrite app_nil_r|done..].
Qed.
End WriterFrames.

(** ** The second assignment of [vectorNumElems] *)

Lemma Place_vectorNumElems x fl b b' :
  Place x fl b = Ok tt b' -> vectorNumElems b' = vectorNumElems b.
Proof.
  unfold Place, Head, enforce_number, Write. intros H.
  msimpl H. mcase H. cbn in H. mcase H. by injection H as <-.
Qed.

Lemma repeat_Place_vectorNumElems k b b' :
  repeatM k (Place 0 Uint8Flags) b = Ok tt b' ->
  vectorNumElems b' = vectorNumElems b.
Proof.
  revert b. induction k as [|k IH]; intros b H; cbn in H.
  - by injection H as <-.
  - mbind H E u s1. destruct u. apply Place_vectorNumElems in E.
    apply IH in H. congruence.
Qed.

Lemma Prep_grow_vectorNumElems fuel need b b' :
  Prep_grow fuel need b = Ok tt b' ->
  vectorNumElems b' = vectorNumElems b.
Proof.
  revert b. induction fuel as [|fuel IH]; intros b H; cbn in H.
  - destruct (head b <? need); [discriminate|]. by injection H as <-.
  - destruct (head b <? need); [|by injection H as <-].
    mbind H G u s1. unfold growByteBuffer in G.
    destruct (len (Bytes b) =? MAX_BUFFER_SIZE); [discriminate|].
    injection G as _ <-. mbind H G' u' s2. unfold modify in G'.
    injection G' as _ <-. apply IH in H. by rewrite H.
Qed.

Lemma Prep_vectorNumElems size add b b' :
  Prep size add b = Ok tt b' -> vectorNumElems b' = vectorNumElems b.
Proof.
  unfold Prep, Offset, Pad. intros H.
  mbind H E0 ma s0. unfold gets in E0. injection E0 as <- <-.
  mbind H E1 u1 s1.
  assert (H1 : vectorNumElems s1 = vectorNumElems b).
  { unfold when in E1. destruct (minalign b <? size); cbn in E1;
      by injection E1 as _ <-. }
  mbind H E2 o s2. unfold gets in E2. injection E2 as <- <-.
  mbind H E3 u3 s3. destruct u3. apply Prep_grow_vectorNumElems in E3.
  apply repeat_Place_vectorNumElems in H. congruence.
Qed.

Lemma StartVector_vectorNumElems e n a b r b1 :
  StartVector e n a b = Ok r b1 -> vectorNumElems b1 = Some n.
Proof.
  unfold StartVector, assertNotNested, Offset. intros H.
  mbind H E0 u0 s0. mcase E0. injection E0 as _ <-.
  mbind H E1 u1 s1. unfold modify in E1. injection E1 as _ <-.
  mbind H E2 u2 s2. unfold modify in E2. injection E2 as _ <-.
  mbind H E3 u3 s3. destruct u3. apply Prep_vectorNumElems in E3.
  mbind H E4 u4 s4. destruct u4. apply Prep_vectorNumElems in E4.
  unfold gets in H. injection H as _ <-. by rewrite E4, E3.
Qed.

Lemma bind_ext {S A B} (m : M S A) (k k' : A -> M S B) s :
  (forall a s', k a s' = k' a s') -> bind m k s = bind m k' s.
Proof. intros H. unfold bind. by destruct (m s). Qed.

Lemma bind_unfold {S A B} (m : M S A) (k : A -> M S B) s :
  bind m k s = match m s with
               | Ok a s' => k a s'
               | Raise e s' => Raise e s'
               end.
Proof. done. Qed.

Lemma onB_bind {A B} (m : M Builder.t A) (k : A -> M Builder.t B) w :
  onB (bind m k) w = bind (onB m) (fun a => onB (k a)) w.
Proof.
  unfold onB, bind. destruct (_builder w) as [b|]; [|done].
  by destruct (m b) as [a b1|e b1]; cbn.
Qed.

Lemma with_vectorNumElems_same b n :
  vectorNumElems b = n -> with_vectorNumElems n b = b.
Proof. intros <-. by destruct b. Qed.

(** The builder's calls of the encoder, from [StartVector] to
    [EndVector], with and without the second assignment. *)
Lemma vector_calls_without_reassignment (n a : Z) (bs : list byte) b :
  (StartVector 1 n a ;;
   (h <- Head ;; modify (with_head (h - n))) ;;
   (h <- Head ;;
    modify (fun b => with_Bytes (slice_assign (Bytes b) h (h + n) bs) b)) ;;
   modify (with_vectorNumElems (Some n)) ;;
   EndVector)%M b
  = (StartVector 1 n a ;;
     (h <- Head ;; modify (with_head (h - n))) ;;
     (h <- Head ;;
      modify (fun b => with_Bytes (slice_assign (Bytes b) h (h + n) bs) b)) ;;
     EndVector)%M b.
Proof.
  rewrite !(bind_unfold (StartVector 1 n a)).
  destruct (StartVector 1 n a b) as [r b1|e b1] eqn:E; [|done].
  apply StartVector_vectorNumElems in E.
  unfold bind, Head, gets, modify. cbn.
  rewrite (with_vectorNumElems_same _ (Some n)); [done|].
  by destruct b1.
Qed.

Lemma onB_ext {A} (m m' : M Builder.t A) w :
  (forall b, m b = m' b) -> onB m w = onB m' w.
Proof. intros H. unfold onB. destruct (_builder w); [by rewrite H|done]. Qed.

(** ** Reading the embedded bytes back *)

Lemma length_le_bytes dt zs :
  length (le_bytes dt zs) = (length zs * np.itemsize dt)%nat.
Proof.
  unfold le_bytes. induction zs as [|z zs IH]; [done|].
  cbn [map concat length]. rewrite length_app, length_le_split, IH. lia.
Qed.

Lemma length_expected_bytes cast_bits host a dt :
  length (expected_bytes cast_bits host a dt)
  = (length (np.data a) * np.itemsize dt)%nat.
Proof.
  unfold expected_bytes, cast_values, np.values.
  by rewrite length_le_bytes, !length_map.
Qed.

Lemma chunks_le_split n zs :
  Reader.chunks (length zs) n (concat (map (le_split n) zs))
  = map (le_split n) zs.
Proof.
  induction zs as [|z zs IH]; [done|].
  cbn [map concat length Reader.chunks].
  rewrite take_app_exact, drop_app_exact by (by rewrite length_le_split).
  by rewrite IH.
Qed.

Lemma from_mem_to_mem host dt z :
  np.from_mem host dt (np.to_mem host dt z)
  = z mod 2 ^ (Z.of_nat (np.itemsize dt) * 8).
Proof.
  unfold np.from_mem, np.to_mem. destruct (np.is_big_endian host dt).
  - by rewrite byteswap_item_involutive, le_combine_split.
  - by rewrite le_combine_split.
Qed.

(** The reader's [decode_array] undoes the encoding: the array it builds
    from the expected bytes has the declared shape and the elements of the
    input converted to the declared dtype, whatever the reader's host. *)
Lemma decode_expected_bytes cast_bits host reader a attribute :
  length (np.data a) = fold_right Nat.mul 1%nat (attr_shape attribute) ->
  exists decoded,
    Reader.decode_array attribute
      (expected_bytes cast_bits host a (dtype attribute)) = Some decoded
    /\ np.shape decoded = attr_shape attribute
    /\ np.values reader decoded
       = np.values host (np.array cast_bits host a (dtype attribute)).
Proof.
  intros Hn. unfold Reader.decode_array.
  rewrite length_expected_bytes, Hn, Nat.eqb_refl.
  eexists. split; [done|]. split; [done|].
  unfold np.values, np.array. cbn [np.arr_dtype np.data].
  unfold expected_bytes, le_bytes, cast_values, np.values.
  rewrite <- Hn.
  replace (length (np.data a))
    with (length (map (cast_bits (np.arr_dtype a) (dtype attribute))
                      (map (np.from_mem host (np.arr_dtype a)) (np.data a))))
    by (by rewrite !length_map).
  rewrite chunks_le_split, !map_map.
  apply map_ext. intros item. rewrite from_mem_to_mem.
  unfold np.from_mem. cbn. by rewrite le_combine_split.
Qed.

(** ** Sequences of writes *)

Lemma example_content_extends cast_bits host ds w w' values :
  store_extends w w' -> valid_example w values ->
  example_content cast_bits host ds w' values
  = example_content cast_bits host ds w values.
Proof.
  intros He Hv. unfold example_content. apply map_ext. intros a.
  by rewrite (example_value_extends w w').
Qed.

Lemma consistent_init arrays0 file0 : consistent (init_writer arrays0 file0) [].
Proof. done. Qed.

Section Runs.
Variable host : Platform.
Variable can_cast : np.dtype -> np.dtype -> bool.
Variable cast_bits : np.dtype -> np.dtype -> Z -> Z.
Variable compress : string -> list byte -> list byte.
Variable dataset_structure : DatasetStructure.


(** Writes that all return extend the contents by one example each, in
    the order of the calls. *)
Lemma writes_spec vs w w' cs :
  forM_ vs (_write host can_cast cast_bits dataset_structure) w = Ok tt w' ->
  consistent w cs -> Forall (valid_example w) vs ->
  consistent w'
    (cs ++ map (example_content cast_bits host dataset_structure w) vs)
  /\ store_extends w w' /\ shard_file w' = shard_file w
  /\ length (_examples w') = (length (_examples w) + length vs)%nat.
Proof.
  revert w cs. induction vs as [|v vs IH]; intros w cs H Hc Hv; cbn in H.
  - injection H as <-. rewrite app_nil_r.
    split_and!; auto using store_extends_refl.
  - mbind H E u w1. destruct u.
    apply Forall_cons in Hv as [Hv1 Hv2].
    pose proof (write_spec _ _ _ _ _ _ _ _ E Hc Hv1)
      as (Hc1 & S1 & F1 & L1 & _).
    destruct (IH _ _ H Hc1) as (Hc2 & S2 & F2 & L2).
    { eapply Forall_impl; [exact Hv2|]. intros x.
      by apply valid_example_extends. }
    split_and!.
    + cbn [map]. rewrite <- app_assoc in Hc2. cbn [app] in Hc2.
      assert (Hm : map (example_content cast_bits host dataset_structure w1)
                       vs
                   = map (example_content cast_bits host dataset_structure w)
                         vs).
      { apply map_ext_Forall. eapply Forall_impl; [exact Hv2|]. intros x Hx.
        by apply example_content_extends. }
      by rewrite <- Hm.
    + eauto using store_extends_trans.
    + congruence.
    + cbn [length]. lia.
Qed.
End Runs.

Section WriteOrphan.
Variable host : Platform.
Variable can_cast : np.dtype -> np.dtype -> bool.
Variable cast_bits : np.dtype -> np.dtype -> Z -> Z.
Variable dataset_structure : DatasetStructure.

Lemma embedded_len pre bs : embedded pre bs -> 4 + len bs <= len pre.
Proof.
  intros (p & q & ->). rewrite !len_app, len_pack by done.
  change (bytewidth UOffsetTFlags) with 4.
  pose proof (len_nonneg p). pose proof (len_nonneg q). lia.
Qed.

(** A write that fails on an attribute after [done]: the byte vectors of
    [done] were put in front of what the builder held, and they stay. *)
Lemma write_raise_orphan values done rest w e w' cs :
  _write host can_cast cast_bits dataset_structure values w = Raise e w' ->
  e = ValueError_cannot_cast \/ e = KeyError ->
  consistent w cs -> valid_example w values ->
  saved_data_description dataset_structure = done ++ rest ->
  Forall (fun a => is_Some (dict_get values (name a))
                   /\ can_cast (np.arr_dtype (example_value w values a))
                               (dtype a) = true) done ->
  exists b0 b' orphan,
    (_builder w = Some b0 \/ _builder w = None /\ b0 = Builder.init 0)
    /\ _builder w' = Some b'
    /\ written b' = orphan ++ written b0
    /\ offset_of b' = offset_of b0 + len orphan
    /\ Forall (fun a => embedded orphan
                          (expected_bytes cast_bits host
                             (example_value w values a) (dtype a))) done.
Proof.
  intros H He Hc Hv Hs Hdone. unfold _write in H.
  rbind H E0 bld w0; [discriminate|].
  unfold gets in E0. injection E0 as <- <-.
  rbind H E0 u0 w0.
  { destruct (_builder w); discriminate. }
  destruct (write_enter _ _ Hc) as (b0 & Hidle0 & Hex0 & Hb0).
  assert (Hw0 : _builder w0 = Some b0 /\ arrays w0 = arrays w).
  { destruct Hb0 as [Hb|(Hb & ->)]; rewrite Hb in E0; cbn in E0;
      injection E0 as _ <-; by cbn. }
  clear E0. destruct Hw0 as (Hb0' & Ha0).
  assert (Hval : forall a, example_value w0 values a = example_value w values a).
  { intros a. unfold example_value, deref. by rewrite Ha0. }
  rbind H E1 saved w1.
  - rewrite Hs in H.
    eapply collect_raise_after in H
      as (b' & orphan & St & Hidle' & Ew & Hall); eauto.
    + exists b0, b', orphan. split_and!; try done.
      * apply St.
      * rewrite !offset_written by (apply Hidle' || apply Hidle0).
        rewrite Ew, len_app. lia.
      * eapply Forall_impl; [exact Hall|]. intros a Ha. cbv beta in Ha.
        by rewrite Hval in Ha.
    + unfold valid_example in *. by rewrite Ha0.
    + eapply Forall_impl; [exact Hdone|]. intros a Ha. cbv beta in Ha |- *.
      by rewrite Hval.
  - exfalso.
    match type of H with
    | ?m _ = Raise _ _ => assert (R : raises m internal_error)
    end.
    { unfold fbapi.ExampleStartAttributesVector, fbapi.ExampleStart,
        fbapi.ExampleAddAttributes, fbapi.ExampleEnd.
      repeat (apply raises_bind; [|intros ?]);
        first [ apply raises_onB; solve_raises
              | apply raises_forM_; intros ?; apply raises_onB; solve_raises
              | apply raises_modify ]. }
    apply R, internal_not_caller in H. by destruct He as [-> | ->].
Qed.
End WriteOrphan.

(** ** The order of the caller's dict *)

Lemma dict_get_In d k v : dict_get d k = Some v -> In (k, v) d.
Proof.
  induction d as [|[k' v'] d IH]; [done|]. cbn.
  destruct (String.eqb_spec k' k) as [->|Hne].
  - intros [= ->]. by left.
  - intros H. right. auto.
Qed.

Lemma In_dict_get d k v :
  List.NoDup (map fst d) -> In (k, v) d -> dict_get d k = Some v.
Proof.
  induction d as [|[k' v'] d IH]; [done|]. cbn.
  intros Hnd [Heq|Hin].
  - injection Heq as -> ->. by rewrite String.eqb_refl.
  - apply NoDup_cons_iff in Hnd as [Hni Hnd].
    destruct (String.eqb_spec k' k) as [->|Hne]; [|auto].
    exfalso. apply Hni. by apply (in_map fst) in Hin.
Qed.

(** A dict with the same items in another order answers every lookup the
    same way. *)
Lemma dict_get_Permutation d d' k :
  List.NoDup (map fst d) -> Permutation d d' -> dict_get d k = dict_get d' k.
Proof.
  intros Hnd Hp.
  assert (Hnd' : List.NoDup (map fst d')).
  { eapply Permutation_NoDup; [|exact Hnd]. by apply Permutation_map. }
  destruct (dict_get d k) as [v|] eqn:E.
  - symmetry. apply In_dict_get; [done|].
    eapply Permutation_in; [exact Hp|]. by apply dict_get_In.
  - destruct (dict_get d' k) as [v'|] eqn:E'; [|done].
    apply dict_get_In in E'. apply Permutation_sym in Hp.
    apply (Permutation_in _ Hp) in E'.
    apply In_dict_get in E'; [|done]. congruence.
Qed.

Lemma collectM_ext {S A B} (xs : list A) (f g : A -> M S B) acc s :
  (forall x s', f x s' = g x s') ->
  collectM xs f acc s = collectM xs g acc s.
Proof.
  intros H. revert acc s. induction xs as [|x xs IH]; intros acc s; [done|].
  cbn. rewrite !bind_unfold, H. by destruct (g x s).
Qed.

Lemma write_dict_order host can_cast cast_bits ds values values' w :
  List.NoDup (map fst values) -> Permutation values values' ->
  _write host can_cast cast_bits ds values w
  = _write host can_cast cast_bits ds values' w.
Proof.
  intros Hnd Hp. unfold _write.
  do 2 (apply bind_ext; intros).
  rewrite !bind_unfold.
  rewrite (collectM_ext _ _ (save_attribute host can_cast cast_bits values')).
  - done.
  - intros x s. unfold save_attribute, dict_getitem.
    by rewrite (dict_get_Permutation values values').
Qed.

(** ** Enough room: the encoder returns *)

Lemma Place_returns x fl b :
  wf b -> 0 <= bytewidth fl <= head b -> in_range fl x = true ->
  exists b', Place x fl b = Ok tt b'.
Proof.
  intros (Hh & _) Hw Hr. unfold Place, enforce_number, Head, Write.
  unfold bind, modify, gets. rewrite Hr. cbn [head with_head Bytes].
  unfold pack_into. rewrite Hr. cbn [negb].
  destruct (head b - bytewidth fl <? 0) eqn:E1; [lia|].
  destruct (len (Bytes b) - (head b - bytewidth fl) <? bytewidth fl) eqn:E2;
    [lia|].
  eauto.
Qed.

Lemma repeat_Place_returns k b :
  wf b -> Z.of_nat k <= head b ->
  exists b', repeatM k (Place 0 Uint8Flags) b = Ok tt b'.
Proof.
  revert b. induction k as [|k IH]; intros b W Hk; cbn.
  - by exists b.
  - destruct (Place_returns 0 Uint8Flags b W) as (b1 & E); [cbn; lia|done|].
    rewrite bind_unfold, E.
    apply Place_grows in E as (G & Hh & _); [|done|cbn; lia].
    apply IH; [apply G|]. cbn in Hh. lia.
Qed.

(** The loop of [Prep] ends without an exception when the bytes already
    written and the bytes asked for fit in the largest buffer. *)
Lemma Prep_grow_room fuel need b :
  wf b -> need + len (written b) <= MAX_BUFFER_SIZE ->
  (exists b', Prep_grow fuel need b = Ok tt b')
  \/ (exists b', Prep_grow fuel need b = Raise LoopFuelExhausted b').
Proof.
  revert b. induction fuel as [|fuel IH]; intros b W Hroom; cbn.
  - destruct (head b <? need); eauto.
  - destruct (head b <? need) eqn:Hlt; [|eauto].
    apply Z.ltb_lt in Hlt. rewrite bind_unfold.
    destruct (growByteBuffer b) as [u b1|e b1] eqn:E.
    + destruct u.
      pose proof (growByteBuffer_spec _ _ E W) as (W1 & Ew & _).
      cbn. apply IH; [done|]. by rewrite Ew.
    + exfalso. unfold growByteBuffer in E.
      destruct (Z.eqb_spec (len (Bytes b)) MAX_BUFFER_SIZE) as [Hmax|];
        [|discriminate].
      rewrite <- (offset_written b W) in Hroom. unfold offset_of in Hroom.
      lia.
Qed.

Lemma Prep_grow_returns need b :
  wf b -> need + len (written b) <= MAX_BUFFER_SIZE ->
  exists b', Prep_grow Prep_fuel need b = Ok tt b'.
Proof.
  intros W Hroom.
  destruct (Prep_grow_room Prep_fuel need b W Hroom) as [?|(b' & E)]; [done|].
  by apply Prep_grow_total in E.
Qed.

Lemma Prep_returns size add b :
  wf b -> 0 <= size -> 0 <= add ->
  prep_pad (offset_of b) add size + size + add + len (written b)
  <= MAX_BUFFER_SIZE ->
  exists b', Prep size add b = Ok tt b'.
Proof.
  intros W Hs Ha Hroom. unfold Prep, Offset, Pad.
  rewrite bind_unfold. unfold gets at 1. rewrite bind_unfold.
  set (b0 := final_state
               (when (minalign b <? size) (modify (with_minalign size)) b)).
  assert (E0 : when (minalign b <? size) (modify (with_minalign size)) b
               = Ok tt b0).
  { unfold b0. by destruct (minalign b <? size). }
  assert (Hb0 : Bytes b0 = Bytes b /\ head b0 = head b /\ wf b0).
  { unfold b0. destruct (minalign b <? size) eqn:Hm; cbn; [|done].
    split_and!; try done. destruct W as (? & ? & ?). unfold wf. cbn.
    apply Z.ltb_lt in Hm. lia. }
  destruct Hb0 as (HB & HH & W0).
  rewrite E0, bind_unfold. unfold gets at 1.
  replace (offset_of b0) with (offset_of b)
    by (unfold offset_of; by rewrite HB, HH).
  fold (prep_pad (offset_of b) add size). rewrite bind_unfold.
  destruct (Prep_grow_returns
              (prep_pad (offset_of b) add size + size + add) b0 W0)
    as (b1 & E1).
  { replace (written b0) with (written b); [lia|].
    unfold written. by rewrite HB, HH. }
  rewrite E1.
  apply Prep_grow_spec in E1 as (W1 & _ & _ & _ & _ & Hn); [|done].
  apply repeat_Place_returns; [done|]. destruct W1 as (? & _). lia.
Qed.

(** What [StartVector] leaves for a vector of [n] bytes: room for the
    bytes and for the element count in front of them. *)
Lemma StartVector_inv n a b r b1 :
  StartVector 1 n a b = Ok r b1 ->
  idle b -> 0 <= a -> 0 <= n ->
  wf b1 /\ 4 + n <= head b1 /\ nested b1 = true
  /\ vectorNumElems b1 = Some n.
Proof.
  intros HS (W & Hnest & Hfd & Hvt) Ha Hn.
  unfold StartVector, assertNotNested, Offset in HS. msimpl HS.
  rewrite Hnest in HS. cbv beta iota in HS.
  change (bytewidth Uint32Flags) with 4 in HS. rewrite Z.mul_1_l in HS.
  mres HS E1 u1 s1. mres HS E2 u2 s2.
  injection HS as _ Hs2. subst s2. destruct u1, u2.
  set (b0 := with_vectorNumElems (Some n) (with_nested true b)) in *.
  assert (W0 : wf b0) by done.
  pose proof (Prep_spec _ _ _ _ E1 W0) as (G1 & Hm1 & Hr1 & _); [lia..|].
  specialize (Hr1 ltac:(lia)).
  pose proof (grows_offset _ _ _ W0 G1) as Ho1. rewrite len_zeros in Ho1.
  assert (Hal : (offset_of s1 + n) mod 4 = 0).
  { rewrite Ho1. apply prep_pad_4_makes_aligned. }
  assert (W1 : wf s1) by apply G1.
  pose proof (Prep_spec _ _ _ _ E2 W1) as (G2 & Hm2 & Hr2 & Hh2); [lia..|].
  pose proof (prep_pad_mod4 _ _ a Hal) as Hp4.
  assert (Hroom : 4 + n <= head b1).
  { destruct (Z.eq_dec a 0) as [->|Hne].
    - pose proof (prep_pad_size0 (offset_of s1) n).
      assert (0 <= offset_of s1 + n).
      { rewrite offset_written by done.
        pose proof (len_nonneg (written s1)). lia. }
      lia.
    - pose proof (prep_pad_bounds (offset_of s1) n a ltac:(lia)) as Hb.
      specialize (Hr2 ltac:(lia)).
      destruct (Z.eq_dec (prep_pad (offset_of s1) n a) 0) as [Hz|Hnz].
      + rewrite Hz in Hh2. simpl in Hh2. lia.
      + assert (4 <= prep_pad (offset_of s1) n a).
        { apply Z.mod_divide in Hp4; [|lia]. destruct Hp4 as [k Hk]. lia. }
        lia. }
  destruct G2 as (W2 & Ew2 & M2). destruct G1 as (_ & Ew1 & M1).
  unfold meta in M1, M2. unfold b0 in M1. simpl in M1.
  injection M1 as ? ? ? ? ? ? ?. injection M2 as ? ? ? ? ? ? ?.
  split_and!; congruence.
Qed.

Lemma StartVector_returns n a b :
  idle b -> 0 <= n -> 0 <= a ->
  len (written b) + n + 2 * a + 8 <= MAX_BUFFER_SIZE ->
  exists r b1, StartVector 1 n a b = Ok r b1.
Proof.
  intros (W & Hnest & _) Hn Ha Hroom.
  unfold StartVector, assertNotNested, Offset.
  rewrite bind_unfold, Hnest. rewrite bind_unfold. unfold modify at 1.
  rewrite bind_unfold. unfold modify at 1.
  change (bytewidth Uint32Flags) with 4. rewrite Z.mul_1_l.
  set (b0 := with_vectorNumElems (Some n) (with_nested true b)).
  assert (W0 : wf b0) by done.
  pose proof (prep_pad_bounds (offset_of b0) n 4 ltac:(lia)) as Hp1.
  destruct (Prep_returns 4 n b0 W0) as (s1 & E1); [lia|lia| |].
  { change (written b0) with (written b). lia. }
  rewrite bind_unfold, E1.
  pose proof (Prep_spec _ _ _ _ E1 W0) as (G1 & _); [lia..|].
  destruct G1 as (W1 & Ew1 & _).
  assert (Hl1 : len (written s1) <= len (written b) + 3).
  { rewrite Ew1, len_app, len_zeros.
    change (written b0) with (written b). lia. }
  assert (Hp2 : prep_pad (offset_of s1) n a <= a).
  { destruct (Z.eq_dec a 0) as [->|Hne].
    - apply prep_pad_size0. rewrite offset_written by done.
      pose proof (len_nonneg (written s1)). lia.
    - pose proof (prep_pad_bounds (offset_of s1) n a ltac:(lia)). lia. }
  destruct (Prep_returns a n s1 W1) as (b1 & E2); [lia|lia|lia|].
  rewrite bind_unfold, E2. unfold gets. eauto.
Qed.

Lemma byte_vector_returns n a bs b r b1 :
  StartVector 1 n a b = Ok r b1 ->
  idle b -> 0 <= a -> n = len bs -> in_range UOffsetTFlags n = true ->
  exists off b4,
    EndVector
      (with_vectorNumElems (Some n)
         (with_Bytes
            (slice_assign (Bytes b1) (head b1 - n) (head b1 - n + n) bs)
            (with_head (head b1 - n) b1))) = Ok off b4.
Proof.
  intros HS Hidle Ha Hn Hr.
  assert (Hn0 : 0 <= n) by (subst n; apply len_nonneg).
  destruct (StartVector_inv _ _ _ _ _ HS Hidle Ha Hn0)
    as (W1 & Hroom & Hnest & _).
  set (b3 := with_vectorNumElems _ _).
  assert (Hl1 : head b1 <= len (Bytes b1)) by apply W1.
  assert (Hb3 : Bytes b3
                = take (Z.to_nat (head b1 - n)) (Bytes b1) ++ bs
                    ++ drop (Z.to_nat (head b1)) (Bytes b1)).
  { unfold b3. simpl. rewrite Hn at 3. rewrite slice_assign_inside by lia.
    by replace (head b1 - n + len bs) with (head b1) by lia. }
  assert (Hlen3 : len (Bytes b3) = len (Bytes b1)).
  { rewrite Hb3, !len_app. unfold len in *.
    rewrite length_take, length_drop. lia. }
  assert (W3 : wf (with_nested false b3)).
  { destruct W1 as (? & ? & ?). unfold wf. cbn [Bytes with_nested].
    rewrite Hlen3. unfold b3; simpl. lia. }
  unfold EndVector, assertNested, Offset, PlaceUOffsetT.
  rewrite bind_unfold.
  replace (nested b3) with true by (unfold b3; simpl; congruence).
  rewrite bind_unfold. unfold modify at 1. rewrite bind_unfold.
  unfold gets at 1.
  replace (vectorNumElems (with_nested false b3)) with (Some n) by done.
  destruct (Place_returns n UOffsetTFlags _ W3) as (s4 & E4); [|done|].
  { change (bytewidth UOffsetTFlags) with 4. unfold b3; simpl. lia. }
  rewrite bind_unfold, E4. unfold bind, modify, gets. eauto.
Qed.

Section EncoderReturns.
Variable host : Platform.
Variable can_cast : np.dtype -> np.dtype -> bool.
Variable cast_bits : np.dtype -> np.dtype -> Z -> Z.

(** The encoder returns when the cast is safe, the byte order of the
    declared dtype is one of NumPy's, and the buffer has room. *)
Lemma save_returns attribute value w b :
  let bs := expected_bytes cast_bits host (deref w value) (dtype attribute) in
  _builder w = Some b -> idle b ->
  can_cast (np.arr_dtype (deref w value)) (dtype attribute) = true ->
  numpy_byteorder (np.byteorder (dtype attribute)) ->
  len (written b) + len bs + 2 * Z.of_nat (np.itemsize (dtype attribute)) + 8
  <= MAX_BUFFER_SIZE ->
  exists off w',
    save_numpy_vector_as_bytearray host can_cast cast_bits attribute value w
    = Ok off w'.
Proof.
  intros bs Hb Hidle Hcast Hbo Hroom.
  destruct (save_numpy_vector_as_bytearray _ _ _ _ _ w) as [off w'|e w'] eqn:H;
    [eauto|exfalso].
  unfold save_numpy_vector_as_bytearray in H.
  rbind H E0 bld w0; [discriminate|].
  unfold gets in E0. injection E0 as <- <-. rewrite Hb in H.
  rbind H E0 u0 w0; [discriminate|]. injection E0 as <- <-.
  rbind H E1 v1 w1; [discriminate|]. apply np_copy_inv in E1 as (A1 & D1).
  rbind H E2 v2 w2; [discriminate|].
  apply ndarray_flatten_inv in E2 as (A2 & D2).
  rbind H E3 c w3; [discriminate|].
  unfold np_can_cast, gets in E3. injection E3 as <- <-.
  rewrite D2, D1 in H.
  change (np.arr_dtype (np.flatten (np.copy (deref w value))))
    with (np.arr_dtype (deref w value)) in H.
  rewrite Hcast in H. cbn [negb] in H.
  rbind H E4 v3 w3; [discriminate|]. apply np_array_inv in E4 as (A3 & D3).
  rbind H E5 dt3 w4; [discriminate|].
  unfold ndarray_dtype, gets in E5. injection E5 as <- <-.
  rewrite D3 in H. cbn [np.arr_dtype] in H.
  rbind H E6 v4 w4.
  { by apply ensure_little_endian_raise in H as (_ & _ & Hn). }
  apply ensure_little_endian_inv in E6 as (A4 & _ & D4); [|by rewrite D3].
  assert (A : allocated w w4) by eauto using allocated_trans.
  rbind H E7 bytes w5; [discriminate|].
  unfold ndarray_tobytes, gets in E7. injection E7 as <- <-.
  rbind H E8 dt4 w5; [discriminate|].
  unfold ndarray_dtype, gets in E8. injection E8 as <- <-.
  assert (Hbytes : np.tobytes (deref w4 v4) = bs).
  { rewrite D4, D3, D2, D1.
    change (np.arr_dtype (np.array _ _ _ ?dt)) with dt.
    destruct (np.is_big_endian host (dtype attribute)) eqn:Hbig.
    - by rewrite tobytes_byteswap_array_big.
    - by rewrite tobytes_array_little. }
  assert (Hdt : np.arr_dtype (deref w4 v4) = dtype attribute).
  { rewrite D4. destruct (np.is_big_endian _ _); by rewrite D3. }
  rewrite Hbytes, Hdt in H.
  assert (Hb4 : _builder w4 = Some b).
  { destruct A as (_ & _ & -> & _). done. }
  assert (Hn : 0 <= len bs) by apply len_nonneg.
  destruct (StartVector_returns (len bs)
              (Z.of_nat (np.itemsize (dtype attribute))) b Hidle)
    as (r & b1 & ES); [lia..|].
  assert (Hr : in_range UOffsetTFlags (len bs) = true).
  { unfold in_range. cbn. unfold MAX_BUFFER_SIZE in Hroom.
    pose proof (len_nonneg (written b)). lia. }
  destruct (byte_vector_returns _ _ bs _ _ _ ES Hidle ltac:(lia) eq_refl Hr)
    as (off & b5 & EE).
  unfold onB at 1 in H. rewrite bind_unfold, Hb4, ES in H.
  unfold onB, Head, bind, gets, modify in H. cbn in H.
  rewrite EE in H. discriminate.
Qed.
End EncoderReturns.

(** ** After [close] *)

(** A [close] that wrote a shard leaves the writer without a builder and
    with the list of examples it had. *)
Lemma close_Ok_inv compress dataset_structure w w' :
  close compress dataset_structure w = Ok tt w' ->
  _examples w <> [] ->
  _builder w' = None /\ _examples w' = _examples w
  /\ arrays w' = arrays w /\ is_Some (shard_file w').
Proof.
  intros H Hne. unfold close in H.
  mbind H E0 exs w0. unfold gets in E0. injection E0 as <- <-.
  destruct (_examples w) as [|e0 es] eqn:Hex; [done|]. cbv iota in H.
  rewrite <- Hex in *. clear Hne.
  mbind H E1 r1 w1. apply onB_Ok_inv in E1 as (b & b1 & Hb & ES & ->).
  mbind H E2 u2 w2. destruct u2.
  apply (forM_onB_inv _ _ _ _ b1) in E2 as (b2 & EL & ->); [|done].
  mbind H E3 v w3. apply onB_Ok_inv in E3 as (b2' & b3 & Hb2 & EE & ->).
  mbind H E4 u4 w4. apply onB_Ok_inv in E4 as (b3' & b4 & Hb3 & EO & ->).
  mbind H E5 u5 w5. apply onB_Ok_inv in E5 as (b4' & b5 & Hb4 & EA & ->).
  mbind H E6 root w6. apply onB_Ok_inv in E6 as (b5' & b6 & Hb5 & EW & ->).
  mbind H E7 h w7. apply onB_Ok_inv in E7 as (b6' & b7 & Hb6 & EF & ->).
  mbind H E8 u8 w8. unfold modify in E8. injection E8 as _ <-.
  mbind H E9 out w9. apply onB_Ok_inv in E9 as (b7' & b8 & Hb7 & EP & ->).
  mbind H E10 u10 w10. unfold modify in E10. injection E10 as _ <-.
  mbind H E11 u11 w11. unfold modify in E11. injection E11 as _ <-.
  mbind H E12 fl w12. unfold gets in E12. injection E12 as <- <-.
  cbn in H. injection H as <-. cbn. by split_and!.
Qed.

(** [_write] on a writer without a builder is [_write] on that writer
    with a new builder. *)
Lemma write_without_builder host can_cast cast_bits ds values w :
  _builder w = None ->
  _write host can_cast cast_bits ds values w
  = _write host can_cast cast_bits ds values
           (with_builder (Some (Builder.init 0)) w).
Proof.
  intros Hb. unfold _write. rewrite !(bind_unfold (gets _builder)).
  unfold gets. rewrite Hb. cbn [_builder with_builder].
  by rewrite !bind_unfold.
Qed.

(** ** Valid input: the calls return, or stop at the size limit *)

Lemma Prep_grow_raise fuel need b e b' :
  Prep_grow fuel need b = Raise e b' ->
  e = BuilderSizeError \/ e = LoopFuelExhausted.
Proof.
  revert b. induction fuel as [|fuel IH]; intros b H; cbn in H.
  - destruct (head b <? need); [|discriminate]. injection H as <- _. by right.
  - destruct (head b <? need); [|discriminate].
    rbind H E u s1.
    + unfold growByteBuffer in H.
      destruct (len (Bytes b) =? MAX_BUFFER_SIZE); [|discriminate].
      injection H as <- _. by left.
    + rbind H E' u' s2; [discriminate|]. eauto.
Qed.

Lemma Place_raise x fl b e b' :
  Place x fl b = Raise e b' ->
  wf b -> 0 <= bytewidth fl <= head b ->
  e = TypeError /\ in_range fl x = false.
Proof.
  intros H W Hw. destruct (in_range fl x) eqn:Hr.
  - destruct (Place_returns x fl b W Hw Hr) as (b1 & E). congruence.
  - unfold Place, enforce_number in H. rewrite bind_unfold, Hr in H.
    by injection H as <- _.
Qed.

Lemma Prep_raise size add b e b' :
  Prep size add b = Raise e b' ->
  wf b -> 0 <= size -> 0 <= add ->
  e = BuilderSizeError.
Proof.
  intros H W Hs Ha. unfold Prep, Offset, Pad in H.
  rbind H E0 ma s0; [discriminate|]. unfold gets in E0.
  injection E0 as <- <-.
  rbind H E1 u1 s1.
  { destruct (minalign b <? size); discriminate. }
  assert (W1 : wf s1).
  { destruct (minalign b <? size) eqn:Hm; cbn in E1; injection E1 as _ <-;
      [|done].
    destruct W as (? & ? & ?). unfold wf. cbn. apply Z.ltb_lt in Hm. lia. }
  rbind H E2 o s2; [discriminate|]. unfold gets in E2.
  injection E2 as <- <-.
  rbind H E3 u3 s3.
  - destruct (Prep_grow_raise _ _ _ _ _ H) as [->| ->]; [done|].
    by apply Prep_grow_total in H.
  - exfalso. destruct u3.
    apply Prep_grow_spec in E3 as (W3 & _ & _ & _ & _ & Hn); [|done].
    destruct (repeat_Place_returns
                (Z.to_nat (Z.land (Z.lnot (offset_of s1 + add) + 1)
                                  (size - 1))) s3 W3) as (b1 & E).
    + destruct W3 as (? & _). lia.
    + congruence.
Qed.

Lemma Prepend_raise fl x b e b' :
  Prepend fl x b = Raise e b' ->
  wf b -> 1 <= bytewidth fl ->
  limit_error e = true.
Proof.
  intros H W Hw. unfold Prepend in H. rbind H E u s1.
  - by apply Prep_raise in H as ->; [|done|lia|].
  - destruct u.
    pose proof (Prep_spec _ _ _ _ E W) as (G & _ & Hr & _); [lia..|].
    specialize (Hr Hw).
    apply Place_raise in H as (-> & _); [done|apply G|lia].
Qed.

Lemma PrependUOffsetTRelative_raise off b e b' :
  PrependUOffsetTRelative off b = Raise e b' ->
  wf b -> off <= offset_of b ->
  limit_error e = true.
Proof.
  intros H W Ho. unfold PrependUOffsetTRelative, Offset, PlaceUOffsetT in H.
  change (bytewidth UOffsetTFlags) with 4 in H.
  rbind H E u s1.
  - by apply Prep_raise in H as ->.
  - destruct u.
    pose proof (Prep_spec _ _ _ _ E W) as (G & _ & Hr & _); [lia..|].
    specialize (Hr ltac:(lia)).
    pose proof (grows_offset _ _ _ W G) as Ho1.
    pose proof (len_nonneg (zeros (Z.to_nat (prep_pad (offset_of b) 0 4)))).
    rbind H E2 o s2; [discriminate|]. unfold gets in E2.
    injection E2 as <- <-.
    destruct (Z.leb_spec off (offset_of s1)); [|lia]. cbn [negb] in H.
    apply Place_raise in H as (-> & _); [done|apply G|].
    change (bytewidth UOffsetTFlags) with 4. lia.
Qed.

Lemma PrependSOffsetTRelative_raise off b e b' :
  PrependSOffsetTRelative off b = Raise e b' ->
  wf b -> off <= offset_of b ->
  limit_error e = true.
Proof.
  intros H W Ho. unfold PrependSOffsetTRelative, Offset, PlaceSOffsetT in H.
  change (bytewidth SOffsetTFlags) with 4 in H.
  rbind H E u s1.
  - by apply Prep_raise in H as ->.
  - destruct u.
    pose proof (Prep_spec _ _ _ _ E W) as (G & _ & Hr & _); [lia..|].
    specialize (Hr ltac:(lia)).
    pose proof (grows_offset _ _ _ W G) as Ho1.
    pose proof (len_nonneg (zeros (Z.to_nat (prep_pad (offset_of b) 0 4)))).
    rbind H E2 o s2; [discriminate|]. unfold gets in E2.
    injection E2 as <- <-.
    destruct (Z.leb_spec off (offset_of s1)); [|lia]. cbn [negb] in H.
    apply Place_raise in H as (-> & _); [done|apply G|].
    change (bytewidth SOffsetTFlags) with 4. lia.
Qed.

Lemma StartVector_raise elemSize n a b e b' :
  StartVector elemSize n a b = Raise e b' ->
  wf b -> nested b = false -> 0 <= elemSize * n -> 0 <= a ->
  e = BuilderSizeError.
Proof.
  intros H W Hnest Hn Ha. unfold StartVector, assertNotNested, Offset in H.
  rewrite bind_unfold, Hnest in H.
  rbind H E0 u0 s0; [discriminate|]. unfold modify in E0.
  injection E0 as _ <-.
  rbind H E1 u1 s1; [discriminate|]. unfold modify in E1.
  injection E1 as _ <-.
  set (b0 := with_vectorNumElems (Some n) (with_nested true b)) in *.
  assert (W0 : wf b0) by done.
  change (bytewidth Uint32Flags) with 4 in H.
  rbind H E2 u2 s2.
  { by apply Prep_raise in H. }
  destruct u2.
  pose proof (Prep_spec _ _ _ _ E2 W0) as (G1 & _); [lia..|].
  rbind H E3 u3 s3; [|discriminate].
  apply Prep_raise in H; [done|apply G1|done..].
Qed.

(** What [StartVector] leaves for a vector of [n] offsets. *)
Lemma StartVector_offsets_inv n b r b1 :
  StartVector 4 n 4 b = Ok r b1 ->
  wf b -> nested b = false -> 0 <= n ->
  wf b1 /\ offset_of b1 mod 4 = 0 /\ 4 + 4 * n <= head b1
  /\ nested b1 = true /\ vectorNumElems b1 = Some n
  /\ offset_of b <= offset_of b1.
Proof.
  intros HS W Hnest Hn.
  unfold StartVector, assertNotNested, Offset in HS. msimpl HS.
  rewrite Hnest in HS. cbv beta iota in HS.
  change (bytewidth Uint32Flags) with 4 in HS.
  mres HS E1 u1 s1. mres HS E2 u2 s2.
  injection HS as _ Hs2. subst s2. destruct u1, u2.
  set (b0 := with_vectorNumElems (Some n) (with_nested true b)) in *.
  assert (W0 : wf b0) by done.
  pose proof (Prep_spec _ _ _ _ E1 W0) as (G1 & Hm1 & Hr1 & _); [lia..|].
  specialize (Hr1 ltac:(lia)).
  pose proof (grows_offset _ _ _ W0 G1) as Ho1. rewrite len_zeros in Ho1.
  assert (Hal : (offset_of s1 + 4 * n) mod 4 = 0).
  { rewrite Ho1. apply prep_pad_4_makes_aligned. }
  assert (Hal1 : offset_of s1 mod 4 = 0).
  { rewrite <- Hal. rewrite (Z.mul_comm 4 n), Z.mod_add by lia. done. }
  assert (W1 : wf s1) by apply G1.
  pose proof (Prep_spec _ _ _ _ E2 W1) as (G2 & Hm2 & _ & Hh2); [lia..|].
  assert (Hp0 : prep_pad (offset_of s1) (4 * n) 4 = 0).
  { rewrite prep_pad_4. apply Z.mod_divide; [lia|].
    apply Z.divide_opp_r. by apply Z.mod_divide. }
  rewrite Hp0 in G2, Hh2. change (zeros (Z.to_nat 0)) with (@nil byte) in G2.
  change (Z.of_nat (Z.to_nat 0)) with 0 in Hh2.
  pose proof (grows_offset _ _ _ W1 G2) as Ho2.
  change (len []) with 0 in Ho2.
  destruct G2 as (W2 & Ew2 & M2). destruct G1 as (_ & Ew1 & M1).
  unfold meta in M1, M2. unfold b0 in M1. cbn in M1.
  injection M1 as ? ? ? ? ? ? ?. injection M2 as ? ? ? ? ? ? ?.
  change (offset_of b0) with (offset_of b) in Ho1.
  split_and!; [done| |lia|congruence|congruence|lia].
  by rewrite Ho2, Z.add_0_r.
Qed.

Lemma offsets_loop_raise ros b e b' :
  forM_ ros PrependUOffsetTRelative b = Raise e b' ->
  wf b -> Forall (fun o => o <= offset_of b) ros ->
  limit_error e = true.
Proof.
  revert b. induction ros as [|o ros IH]; intros b H W Hall; cbn in H.
  - discriminate.
  - apply Forall_cons in Hall as (Ho & Hall). rbind H E u s1.
    + by apply PrependUOffsetTRelative_raise in H.
    + destruct u.
      pose proof (PrependUOffsetTRelative_spec _ _ _ E W) as (G & _).
      pose proof (grows_offset _ _ _ W G) as Ho1.
      pose proof (len_nonneg
                    (pack UOffsetTFlags
                       (offset_of b
                        + Z.of_nat (Z.to_nat (prep_pad (offset_of b) 0 4))
                        + 4 - o)
                     ++ zeros (Z.to_nat (prep_pad (offset_of b) 0 4)))).
      apply (IH s1 H); [apply G|].
      eapply Forall_impl; [exact Hall|]. intros x Hx. cbv beta in Hx |- *.
      lia.
Qed.

Lemma EndVector_raise n b e b' :
  EndVector b = Raise e b' ->
  wf b -> nested b = true -> vectorNumElems b = Some n -> 4 <= head b ->
  limit_error e = true.
Proof.
  intros H W Hnest Hv Hh.
  unfold EndVector, assertNested, Offset, PlaceUOffsetT in H.
  rewrite bind_unfold, Hnest in H.
  rbind H E0 u0 s0; [discriminate|]. unfold modify in E0.
  injection E0 as _ <-.
  rbind H E1 v s1; [discriminate|]. unfold gets in E1.
  injection E1 as <- <-. cbn [vectorNumElems with_nested] in H.
  rewrite Hv in H.
  rbind H E2 u2 s2.
  - apply Place_raise in H as (-> & _); [done..|].
    change (bytewidth UOffsetTFlags) with 4. cbn. lia.
  - rbind H E3 u3 s3; discriminate.
Qed.

(** The vector of offsets that [_write] and [close] build. *)
Lemma offsets_vector_inv offs b r b1 b2 :
  StartVector 4 (len offs) 4 b = Ok r b1 ->
  forM_ (rev offs) PrependUOffsetTRelative b1 = Ok tt b2 ->
  wf b -> nested b = false ->
  wf b2 /\ nested b2 = true /\ vectorNumElems b2 = Some (len offs)
  /\ 4 <= head b2.
Proof.
  intros HS HL W Hnest.
  pose proof (len_nonneg offs) as Hn.
  destruct (StartVector_offsets_inv _ _ _ _ HS W Hnest Hn)
    as (W1 & Hal & Hh & Hn1 & Hv1 & _).
  pose proof (offsets_loop_spec _ _ _ HL W1 Hal) as (W2 & M2 & Hh2 & _).
  rewrite len_rev in Hh2.
  unfold meta in M2. injection M2 as ? ? ? ? ? ? ?.
  split_and!; [done|congruence|congruence|lia].
Qed.

Lemma StartObject_raise n b e b' :
  StartObject n b = Raise e b' -> nested b = false -> False.
Proof.
  intros H Hnest. unfold StartObject, assertNotNested, Offset in H.
  rewrite bind_unfold, Hnest in H. unfold bind, modify, gets in H.
  discriminate.
Qed.

Lemma slot_raise child b e b' :
  PrependUOffsetTRelativeSlot 0 child 0 b = Raise e b' ->
  wf b -> nested b = true -> current_vtable b = Some [0] ->
  child <= offset_of b ->
  limit_error e = true.
Proof.
  intros H W Hnest Hcv Hc. unfold PrependUOffsetTRelativeSlot in H.
  rbind H E0 fd s0; [discriminate|]. unfold gets in E0.
  injection E0 as <- <-.
  destruct (negb (child =? 0) || forceDefaults b); cbn [when] in H;
    [|discriminate].
  rbind H E1 u1 s1.
  - by apply PrependUOffsetTRelative_raise in H.
  - exfalso. destruct u1.
    pose proof (PrependUOffsetTRelative_spec _ _ _ E1 W) as (G & _).
    destruct G as (_ & _ & M). unfold meta in M.
    injection M as Hcv1 _ _ Hn1 _ _ _.
    unfold Slot, assertNested, Offset in H.
    rewrite bind_unfold, Hn1, Hnest in H.
    unfold bind, gets in H. rewrite Hcv1, Hcv in H. discriminate.
Qed.

Lemma Write_returns fl pos x b :
  in_range fl x = true -> 0 <= bytewidth fl -> 0 <= pos ->
  pos + bytewidth fl <= len (Bytes b) ->
  exists b', Write fl pos x b = Ok tt b'.
Proof.
  intros Hr Hw Hp Hl. unfold Write, pack_into. rewrite Hr. cbn [negb].
  destruct (pos <? 0) eqn:E1; [lia|].
  destruct (len (Bytes b) - pos <? bytewidth fl) eqn:E2; [lia|]. eauto.
Qed.

Lemma Get_Some_bounds fl w p v :
  Reader.Get fl w p = Some v -> 0 <= p /\ p + bytewidth fl <= len w.
Proof.
  unfold Reader.Get, Reader.get_bytes. intros H.
  destruct (Z.leb_spec 0 p); [|done].
  destruct (Z.leb_spec (p + Z.of_nat (Z.to_nat (bytewidth fl))) (len w));
    [|done].
  destruct fl; cbn in *; lia.
Qed.

Lemma EndObject_raise s oe b2 e b' :
  EndObject b2 = Raise e b' ->
  wf b2 -> nested b2 = true -> offset_of b2 = s -> s mod 4 = 0 -> 0 < s ->
  current_vtable b2 = Some [s] -> objectEnd b2 = Some oe ->
  (forall o, vtables b2 !! [4] = Some o -> vt_ok (written b2) o) ->
  limit_error e = true.
Proof.
  intros H W0 Hnest Hs0 Hal Hpos Hcv0 Hoe0 Hvt0.
  unfold EndObject, assertNested in H. rewrite bind_unfold, Hnest in H.
  rewrite bind_unfold in H. unfold modify at 1 in H.
  set (b3 := with_nested false b2) in *.
  assert (W : wf b3) by done.
  assert (Hs : offset_of b3 = s) by done.
  assert (Hcv : current_vtable b3 = Some [s]) by done.
  assert (Hoe : objectEnd b3 = Some oe) by done.
  assert (Hvt : forall o, vtables b3 !! [4] = Some o -> vt_ok (written b3) o)
    by done.
  clearbody b3. clear W0 Hnest Hs0 Hcv0 Hoe0 Hvt0.
  unfold WriteVtable, Offset in H. msimpl H.
  mres H E1 u1 s1.
  2:{ injection H as <- _.
      apply PrependSOffsetTRelative_raise in E1; [done..|lia]. }
  destruct u1.
  pose proof (PrependSOffsetTRelative_spec _ _ _ E1 W) as (G1 & _ & Hr1).
  rewrite Hs, prep_pad_4_aligned in G1, Hr1 by done.
  change (zeros (Z.to_nat 0)) with (@nil byte) in G1.
  rewrite app_nil_r in G1.
  change (Z.of_nat (Z.to_nat 0)) with 0 in G1, Hr1.
  replace (s + 0 + 4 - 0) with (s + 4) in G1, Hr1 by lia.
  pose proof (grows_offset _ _ _ W G1) as Ho1.
  rewrite len_pack, Hs in Ho1 by done.
  change (bytewidth SOffsetTFlags) with 4 in Ho1.
  destruct G1 as (W1 & Ew1 & M1).
  unfold meta in M1. injection M1 as Hcv1 Hoe1 Hvt1 Hn1 Hfd1 Hfin1 Hvn1.
  rewrite Hcv1, Hcv, Ho1, Hvt1 in H. cbv beta iota in H.
  change (rev [s]) with [s] in H.
  assert (Hkey : vtKey_loop (s + 4) [s] true = [4]).
  { simpl. destruct (Z.eqb_spec s 0) as [|_]; [lia|]. f_equal. lia. }
  rewrite Hkey in H. unfold Head in H.
  assert (Hlen1 : s + 4 <= len (Bytes s1) <= MAX_BUFFER_SIZE).
  { destruct W1 as (? & ? & _). unfold offset_of in Ho1. lia. }
  destruct (vtables b3 !! [4]) as [vt2|] eqn:Hlook.
  - (* an equal vtable exists *)
    exfalso. msimpl H.
    destruct (Hvt vt2 eq_refl) as (vs & Hg1 & _).
    apply Get_Some_bounds in Hg1. unfold pos_of in Hg1.
    rewrite <- offset_written, Hs in Hg1 by done.
    change (bytewidth VOffsetTFlags) with 2 in Hg1.
    destruct (Write_returns SOffsetTFlags (len (Bytes s1) - (s + 4))
                (vt2 - (s + 4))
                (with_head (len (Bytes s1) - (s + 4)) s1)) as (s2 & E2).
    + unfold in_range. cbn. unfold MAX_BUFFER_SIZE in Hlen1. lia.
    + done.
    + cbn. lia.
    + cbn. lia.
    + cbn [head with_head] in H. rewrite E2 in H. discriminate.
  - (* a new vtable is written *)
    assert (Hloop : write_vtable_loop (s + 4) [s] true 0
                    = bind (PrependVOffsetT 4) (fun _ => ret 0)).
    { cbn. destruct (Z.eqb_spec s 0) as [|_]; [lia|].
      by replace (s + 4 - s) with 4 by lia. }
    rewrite Hloop in H. clear Hloop. msimpl H.
    unfold PrependVOffsetT in H.
    mres H E2 u2 s2.
    2:{ injection H as <- _. by apply Prepend_raise in E2. }
    destruct u2.
    pose proof (Prepend_V_aligned _ _ _ E2 W1) as (G2 & Ho2 & Hr2).
    { rewrite Ho1. by apply mod4_mod2, mod4_add4. }
    destruct G2 as (W2 & Ew2 & M2).
    unfold meta in M2. injection M2 as Hcv2 Hoe2 Hvt2 Hn2 Hfd2 Hfin2 Hvn2.
    rewrite Hoe2, Hoe1, Hoe in H. cbv beta iota in H.
    mres H E3 u3 s3.
    2:{ injection H as <- _. by apply Prepend_raise in E3. }
    destruct u3.
    pose proof (Prepend_V_aligned _ _ _ E3 W2) as (G3 & Ho3 & Hr3).
    { rewrite Ho2, Ho1. by apply mod2_add2, mod4_mod2, mod4_add4. }
    destruct G3 as (W3 & Ew3 & M3).
    change ((len [s] - 0 + VtableMetadataFields) * bytewidth VOffsetTFlags)
      with 6 in H.
    mres H E4 u4 s4.
    2:{ injection H as <- _. by apply Prepend_raise in E4. }
    destruct u4. exfalso.
    pose proof (Prepend_V_aligned _ _ _ E4 W3) as (G4 & Ho4 & Hr4).
    { rewrite Ho3, Ho2, Ho1.
      by apply mod2_add2, mod2_add2, mod4_mod2, mod4_add4. }
    destruct G4 as (W4 & Ew4 & M4).
    assert (Ho4' : offset_of s4 = s + 10) by lia.
    rewrite Ho4' in H. replace (s + 10 - (s + 4)) with 6 in H by lia.
    destruct (Write_returns SOffsetTFlags (len (Bytes s4) - (s + 4)) 6 s4)
      as (s5 & E5); [done|done| | |].
    + destruct W4 as (? & _). unfold offset_of in Ho4'. lia.
    + change (bytewidth SOffsetTFlags) with 4. lia.
    + rewrite E5 in H. discriminate.
Qed.

(** The three calls that build a record with one field. *)
Lemma table_raise_slot child b b1 e b' :
  StartObject 1 b = Ok tt b1 ->
  PrependUOffsetTRelativeSlot 0 child 0 b1 = Raise e b' ->
  idle b -> child <= offset_of b ->
  limit_error e = true.
Proof.
  intros H1 H2 (W & Hn & _) Hc.
  apply StartObject_inv in H1; [|done]. subst b1.
  by apply slot_raise in H2.
Qed.

Lemma table_raise_end child b b1 b2 e b' :
  StartObject 1 b = Ok tt b1 ->
  PrependUOffsetTRelativeSlot 0 child 0 b1 = Ok tt b2 ->
  EndObject b2 = Raise e b' ->
  idle b -> 0 < child ->
  limit_error e = true.
Proof.
  intros H1 H2 H3 (W & Hn & Hfd & Hvt) Hc.
  apply StartObject_inv in H1; [|done]. subst b1.
  set (b1 := with_nested true _) in *.
  assert (W1 : wf b1) by done.
  pose proof (slot_step _ _ _ H2 W1 eq_refl Hfd eq_refl ltac:(lia))
    as (W2 & Ew2 & M2 & Hr2 & Hle & Hal & Ho2).
  change (offset_of b1) with (offset_of b) in *.
  change (written b1) with (written b) in *.
  set (pad := Z.to_nat (prep_pad (offset_of b) 0 4)) in *.
  set (s := offset_of b + Z.of_nat pad + 4) in *.
  unfold meta in M2. cbn in M2.
  injection M2 as Hcv2 Hoe2 Hvt2 Hn2 Hfd2 Hfin2 Hvn2.
  assert (Hs0 : 0 < s).
  { unfold s. rewrite offset_written by done.
    pose proof (len_nonneg (written b)). lia. }
  apply (EndObject_raise s (offset_of b)) in H3; try done.
  intros o Ho. rewrite Ew2, app_assoc. apply vt_ok_app, Hvt. congruence.
Qed.

(** The calls that build a vector of offsets. *)
Lemma offsets_raise_loop offs b r b1 e b' :
  StartVector 4 (len offs) 4 b = Ok r b1 ->
  forM_ (rev offs) PrependUOffsetTRelative b1 = Raise e b' ->
  wf b -> nested b = false ->
  Forall (fun o => o <= offset_of b) offs ->
  limit_error e = true.
Proof.
  intros HS HL W Hnest Hall.
  destruct (StartVector_offsets_inv _ _ _ _ HS W Hnest (len_nonneg offs))
    as (W1 & _ & _ & _ & _ & Ho).
  apply offsets_loop_raise in HL; [done..|].
  apply Forall_rev. eapply Forall_impl; [exact Hall|].
  intros o Hx. cbv beta in Hx |- *. lia.
Qed.

Lemma offsets_raise_end offs b r b1 b2 e b' :
  StartVector 4 (len offs) 4 b = Ok r b1 ->
  forM_ (rev offs) PrependUOffsetTRelative b1 = Ok tt b2 ->
  EndVector b2 = Raise e b' ->
  wf b -> nested b = false ->
  limit_error e = true.
Proof.
  intros HS HL HE W Hnest.
  destruct (offsets_vector_inv _ _ _ _ _ HS HL W Hnest)
    as (W2 & Hn2 & Hv2 & Hh2).
  by apply (EndVector_raise (len offs)) in HE.
Qed.

Lemma Finish_raise root b e b' :
  Finish root b = Raise e b' ->
  wf b -> root <= offset_of b ->
  limit_error e = true.
Proof.
  intros H W Hr. unfold Finish, enforce_number, Head in H.
  rewrite bind_unfold in H.
  destruct (in_range UOffsetTFlags root); [|by injection H as <- _].
  rbind H E0 ma s0; [discriminate|]. unfold gets in E0.
  injection E0 as <- <-.
  change (bytewidth UOffsetTFlags) with 4 in H.
  assert (Hma : 1 <= minalign b) by apply W.
  rbind H E1 u1 s1.
  { by apply Prep_raise in H as ->; [|done|lia|]. }
  destruct u1.
  pose proof (Prep_spec _ _ _ _ E1 W) as (G & _); [lia..|].
  pose proof (grows_offset _ _ _ W G) as Ho.
  pose proof (len_nonneg
                (zeros (Z.to_nat (prep_pad (offset_of b) 4 (minalign b))))).
  rbind H E2 u2 s2.
  { apply PrependUOffsetTRelative_raise in H; [done|apply G|lia]. }
  rbind H E3 u3 s3; discriminate.
Qed.

Lemma Output_raise b e b' : Output b = Raise e b' -> finished b = false.
Proof. unfold Output. by destruct (finished b). Qed.

Lemma forM_onB_raise_inv {A} (f : A -> M Builder.t unit) xs w e w' b :
  forM_ xs (fun x => onB (f x)) w = Raise e w' ->
  _builder w = Some b ->
  exists b', forM_ xs f b = Raise e b'.
Proof.
  revert w b. induction xs as [|x xs IH]; intros w b H Hb; cbn in H.
  - discriminate.
  - rbind H E u w1.
    + apply onB_Raise_inv in H as [(Hn & _)|(b0 & b1 & Hb0 & E & _)];
        [congruence|].
      rewrite Hb in Hb0. injection Hb0 as <-.
      exists b1. cbn. by rewrite bind_unfold, E.
    + apply onB_Ok_inv in E as (b0 & b1 & Hb0 & E & ->).
      rewrite Hb in Hb0. injection Hb0 as <-.
      destruct (IH _ b1 H eq_refl) as (b' & H').
      exists b'. cbn. by rewrite bind_unfold, E.
Qed.

Lemma byte_vector_raise n a bs b r b1 e b' :
  StartVector 1 n a b = Ok r b1 ->
  EndVector
    (with_vectorNumElems (Some n)
       (with_Bytes
          (slice_assign (Bytes b1) (head b1 - n) (head b1 - n + n) bs)
          (with_head (head b1 - n) b1))) = Raise e b' ->
  idle b -> 0 <= a -> n = len bs ->
  limit_error e = true.
Proof.
  intros HS HE Hidle Ha Hn.
  assert (Hn0 : 0 <= n) by (subst n; apply len_nonneg).
  destruct (StartVector_inv _ _ _ _ _ HS Hidle Ha Hn0)
    as (W1 & Hroom & Hnest & _).
  set (b3 := with_vectorNumElems _ _) in *.
  assert (Hl1 : head b1 <= len (Bytes b1)) by apply W1.
  assert (Hb3 : Bytes b3
                = take (Z.to_nat (head b1 - n)) (Bytes b1) ++ bs
                    ++ drop (Z.to_nat (head b1)) (Bytes b1)).
  { unfold b3. simpl. rewrite Hn at 3. rewrite slice_assign_inside by lia.
    by replace (head b1 - n + len bs) with (head b1) by lia. }
  assert (Hlen3 : len (Bytes b3) = len (Bytes b1)).
  { rewrite Hb3, !len_app. unfold len in *.
    rewrite length_take, length_drop. lia. }
  assert (W3 : wf b3).
  { destruct W1 as (? & ? & ?). unfold wf. rewrite Hlen3.
    unfold b3; simpl. lia. }
  apply (EndVector_raise n) in HE; try done.
  unfold b3; simpl. lia.
Qed.

Section EncoderLimit.
Variable host : Platform.
Variable can_cast : np.dtype -> np.dtype -> bool.
Variable cast_bits : np.dtype -> np.dtype -> Z -> Z.

(** On a value that casts safely to a dtype of one of NumPy's byte
    orders, the encoder returns or stops at the size limit. *)
Lemma save_raise_limit attribute value w b e w' :
  save_numpy_vector_as_bytearray host can_cast cast_bits attribute value w
  = Raise e w' ->
  _builder w = Some b -> idle b ->
  can_cast (np.arr_dtype (deref w value)) (dtype attribute) = true ->
  numpy_byteorder (np.byteorder (dtype attribute)) ->
  limit_error e = true.
Proof.
  intros H Hb Hidle Hcast Hbo.
  unfold save_numpy_vector_as_bytearray in H.
  rbind H E0 bld w0; [discriminate|].
  unfold gets in E0. injection E0 as <- <-. rewrite Hb in H.
  rbind H E0 u0 w0; [discriminate|]. injection E0 as <- <-.
  rbind H E1 v1 w1; [discriminate|]. apply np_copy_inv in E1 as (A1 & D1).
  rbind H E2 v2 w2; [discriminate|].
  apply ndarray_flatten_inv in E2 as (A2 & D2).
  rbind H E3 c w3; [discriminate|].
  unfold np_can_cast, gets in E3. injection E3 as <- <-.
  rewrite D2, D1 in H.
  change (np.arr_dtype (np.flatten (np.copy (deref w value))))
    with (np.arr_dtype (deref w value)) in H.
  rewrite Hcast in H. cbn [negb] in H.
  rbind H E4 v3 w3; [discriminate|]. apply np_array_inv in E4 as (A3 & D3).
  rbind H E5 dt3 w4; [discriminate|].
  unfold ndarray_dtype, gets in E5. injection E5 as <- <-.
  rewrite D3 in H. cbn [np.arr_dtype] in H.
  rbind H E6 v4 w4.
  { by apply ensure_little_endian_raise in H as (_ & _ & Hn). }
  apply ensure_little_endian_inv in E6 as (A4 & _ & D4); [|by rewrite D3].
  assert (A : allocated w w4) by eauto using allocated_trans.
  rbind H E7 bytes w5; [discriminate|].
  unfold ndarray_tobytes, gets in E7. injection E7 as <- <-.
  rbind H E8 dt4 w5; [discriminate|].
  unfold ndarray_dtype, gets in E8. injection E8 as <- <-.
  assert (Hb4 : _builder w4 = Some b).
  { destruct A as (_ & _ & -> & _). done. }
  set (bs := np.tobytes (deref w4 v4)) in *.
  set (a := Z.of_nat (np.itemsize (np.arr_dtype (deref w4 v4)))) in *.
  assert (Hn : 0 <= len bs) by apply len_nonneg.
  rbind H E9 r1 w5.
  { apply onB_Raise_inv in H as [(Hn' & _)|(b0 & b1 & Hb0 & ES & _)];
      [congruence|].
    rewrite Hb4 in Hb0. injection Hb0 as <-.
    apply StartVector_raise in ES as ->; [done|apply Hidle..|lia|lia]. }
  apply onB_Ok_inv in E9 as (b0 & b1 & Hb0 & ES & ->).
  rewrite Hb4 in Hb0. injection Hb0 as <-.
  rbind H E10 u2 w6; [discriminate|].
  apply onB_Ok_inv in E10 as (b1' & b2 & Hb1 & Eh & ->).
  cbn in Hb1. injection Hb1 as <-.
  unfold Head in Eh. msimpl Eh. injection Eh as _ <-.
  rbind H E11 u3 w7; [discriminate|].
  apply onB_Ok_inv in E11 as (b2' & b3 & Hb2 & Ec & ->).
  cbn in Hb2. injection Hb2 as <-.
  unfold Head in Ec. msimpl Ec. injection Ec as _ <-.
  rbind H E12 u4 w8; [discriminate|].
  apply onB_Ok_inv in E12 as (b3' & b4 & Hb3 & Ev & ->).
  cbn in Hb3. injection Hb3 as <-.
  unfold modify in Ev. injection Ev as _ <-.
  apply onB_Raise_inv in H as [(Hn' & _)|(b4' & b5 & Hb4' & EE & _)];
    [discriminate|].
  cbn in Hb4'. injection Hb4' as <-.
  cbn [head with_head Bytes] in EE.
  by apply (byte_vector_raise _ _ _ _ _ _ _ _ ES) in EE; [|done|lia|].
Qed.
End EncoderLimit.

(** The same calls made by the writer on the builder it holds: what
    [StartObject] and the slot leave when neither stops at the limit. *)
Lemma onB_table_raise {A} child (rest : M World A) w b e w' :
  (onB (StartObject 1) ;;
   onB (PrependUOffsetTRelativeSlot 0 child 0) ;;
   rest) w = Raise e w' ->
  _builder w = Some b -> idle b -> child <= offset_of b ->
  limit_error e = true
  \/ exists b1 b2,
       StartObject 1 b = Ok tt b1
       /\ PrependUOffsetTRelativeSlot 0 child 0 b1 = Ok tt b2
       /\ rest (with_builder (Some b2) w) = Raise e w'.
Proof.
  intros H Hb Hidle Hc.
  rbind H E1 u1 w1.
  { apply onB_Raise_inv in H as [(Hn & _)|(b0 & b1 & Hb0 & ES & _)];
      [congruence|].
    rewrite Hb in Hb0. injection Hb0 as <-.
    apply StartObject_raise in ES; [done|apply Hidle]. }
  apply onB_Ok_inv in E1 as (b0 & b1 & Hb0 & ES & ->).
  rewrite Hb in Hb0. injection Hb0 as <-. destruct u1.
  rbind H E2 u2 w2.
  { left.
    apply onB_Raise_inv in H as [(Hn & _)|(b1' & b2 & Hb1 & EA & _)];
      [discriminate|].
    cbn in Hb1. injection Hb1 as <-.
    by apply (table_raise_slot _ _ _ _ _ ES) in EA. }
  apply onB_Ok_inv in E2 as (b1' & b2 & Hb1 & EA & ->).
  cbn in Hb1. injection Hb1 as <-. destruct u2.
  right. by exists b1, b2.
Qed.

Lemma onB_offsets_raise {A} offs (rest : M World A) w b e w' :
  (onB (StartVector 4 (len offs) 4) ;;
   forM_ (rev offs) (fun o => onB (PrependUOffsetTRelative o)) ;;
   rest) w = Raise e w' ->
  _builder w = Some b -> wf b -> nested b = false ->
  Forall (fun o => o <= offset_of b) offs ->
  limit_error e = true
  \/ exists r b1 b2,
       StartVector 4 (len offs) 4 b = Ok r b1
       /\ forM_ (rev offs) PrependUOffsetTRelative b1 = Ok tt b2
       /\ rest (with_builder (Some b2) w) = Raise e w'.
Proof.
  intros H Hb W Hnest Hall.
  pose proof (len_nonneg offs) as Hn.
  rbind H E1 r w1.
  { left.
    apply onB_Raise_inv in H as [(Hn' & _)|(b0 & b1 & Hb0 & ES & _)];
      [congruence|].
    rewrite Hb in Hb0. injection Hb0 as <-.
    by apply StartVector_raise in ES as ->; [|done|done|lia|]. }
  apply onB_Ok_inv in E1 as (b0 & b1 & Hb0 & ES & ->).
  rewrite Hb in Hb0. injection Hb0 as <-.
  rbind H E2 u2 w2.
  { left.
    apply (forM_onB_raise_inv _ _ _ _ _ b1) in H as (b' & HL); [|done].
    by apply (offsets_raise_loop _ _ _ _ _ _ ES) in HL. }
  destruct u2.
  apply (forM_onB_inv _ _ _ _ b1) in E2 as (b2 & EL & ->); [|done].
  right. by exists r, b1, b2.
Qed.

Lemma encodable_extends can_cast w w' values attribute :
  store_extends w w' -> valid_example w values ->
  encodable can_cast w values attribute ->
  encodable can_cast w' values attribute.
Proof.
  intros He Hv (? & ? & ?). unfold encodable.
  by rewrite (example_value_extends w w').
Qed.

Lemma attribute_at_bound w o bs : attribute_at w o bs -> 0 < o <= len w.
Proof.
  intros (Ho & H). split; [done|].
  unfold Reader.attribute_bytes in H.
  destruct (Reader.Offset w (pos_of w o) 4) as [x|] eqn:E; [|done].
  apply Offset_pos_nonneg in E. unfold pos_of in E. lia.
Qed.

Lemma example_at_bound w o bss : example_at w o bss -> 0 < o <= len w.
Proof.
  intros (Ho & H). split; [done|].
  unfold Reader.example_attributes, Reader.table_vector in H.
  destruct (Reader.Offset w (pos_of w o) 4) as [x|] eqn:E; [|done].
  apply Offset_pos_nonneg in E. unfold pos_of in E. lia.
Qed.

Section WriterLimit.
Variable host : Platform.
Variable can_cast : np.dtype -> np.dtype -> bool.
Variable cast_bits : np.dtype -> np.dtype -> Z -> Z.
Variable compress : string -> list byte -> list byte.
Variable dataset_structure : DatasetStructure.

Lemma save_attribute_raise_limit values attribute w b e w' :
  save_attribute host can_cast cast_bits values attribute w = Raise e w' ->
  _builder w = Some b -> idle b ->
  encodable can_cast w values attribute ->
  limit_error e = true.
Proof.
  intros H Hb Hidle (Hsome & Hcast & Hbo). unfold save_attribute in H.
  unfold example_value in Hcast.
  destruct (dict_get values (name attribute)) as [l|] eqn:Hget;
    [|by destruct Hsome].
  unfold dict_getitem in H. rewrite Hget in H.
  rbind H E0 l0 w0; [discriminate|]. injection E0 as <- <-.
  rbind H E1 off w1.
  { by apply (save_raise_limit _ _ _ _ _ _ b) in H. }
  pose proof (save_spec _ _ _ _ _ _ _ _ _ E1 Hb Hidle)
    as (b1 & pad & w1' & A & -> & Hidle1 & Ew1 & Hoff & _).
  assert (Hpos : 0 < off).
  { subst off. rewrite offset_written by apply Hidle1.
    rewrite Ew1, len_app, len_pack by done.
    pose proof (len_nonneg
      (expected_bytes cast_bits host (deref w l) (dtype attribute)
         ++ zeros pad ++ written b)). cbn. lia. }
  unfold fbapi.AttributeStart, fbapi.AttributeAddAttributeBytes,
    fbapi.AttributeEnd in H.
  apply (onB_table_raise _ _ _ b1) in H
    as [?|(b2 & b3 & ES & EA & H)]; [done| |done|done|lia].
  apply onB_Raise_inv in H as [(Hn & _)|(b3' & b4 & Hb3 & EE & _)];
    [discriminate|].
  cbn in Hb3. injection Hb3 as <-.
  by apply (table_raise_end _ _ _ _ _ _ ES EA) in EE.
Qed.

Lemma collect_raise_limit values attrs acc w b e w' :
  collectM attrs (save_attribute host can_cast cast_bits values) acc w
  = Raise e w' ->
  _builder w = Some b -> idle b -> valid_example w values ->
  Forall (encodable can_cast w values) attrs ->
  limit_error e = true.
Proof.
  revert acc w b.
  induction attrs as [|a attrs IH]; intros acc w b H Hb Hidle Hv Hall;
    cbn in H; [discriminate|].
  apply Forall_cons in Hall as (Ha & Hall).
  rbind H E hdl w2.
  - by apply (save_attribute_raise_limit _ _ _ b) in H.
  - pose proof (save_attribute_spec _ _ _ _ _ _ _ _ _ E Hb Hidle)
      as (b1 & St1 & Hidle1 & _).
    assert (S1 : store_extends w w2) by apply St1.
    apply (IH _ _ b1) in H; [done|apply St1|done| |].
    + by eapply valid_example_extends.
    + eapply Forall_impl; [exact Hall|]. intros a'.
      by apply encodable_extends.
Qed.
End WriterLimit.

Lemma attributes_bound w os bss :
  Forall2 (attribute_at w) os bss -> Forall (fun o => o <= len w) os.
Proof.
  induction 1 as [|o bs ? ? Ho _ IH]; constructor; [|done].
  apply attribute_at_bound in Ho. lia.
Qed.

Lemma examples_bound w os bsss :
  Forall2 (example_at w) os bsss -> Forall (fun o => o <= len w) os.
Proof.
  induction 1 as [|o bs ? ? Ho _ IH]; constructor; [|done].
  apply example_at_bound in Ho. lia.
Qed.

Section RunLimit.
Variable host : Platform.
Variable can_cast : np.dtype -> np.dtype -> bool.
Variable cast_bits : np.dtype -> np.dtype -> Z -> Z.
Variable compress : string -> list byte -> list byte.
Variable dataset_structure : DatasetStructure.

(** [_write] on an example that gives every attribute of the schema a
    value the encoder accepts: it returns, or stops at the size limit. *)
Lemma write_raise_limit values w e w' cs :
  _write host can_cast cast_bits dataset_structure values w = Raise e w' ->
  consistent w cs -> valid_example w values ->
  Forall (encodable can_cast w values)
         (saved_data_description dataset_structure) ->
  limit_error e = true.
Proof.
  intros H Hc Hv Hall. unfold _write in H.
  rbind H E0 bld w0; [discriminate|].
  unfold gets in E0. injection E0 as <- <-.
  rbind H E0 u0 w0.
  { destruct (_builder w); discriminate. }
  destruct (write_enter _ _ Hc) as (b0 & Hidle0 & Hex0 & Hb0).
  assert (Hw0 : _builder w0 = Some b0 /\ arrays w0 = arrays w).
  { destruct Hb0 as [Hb|(Hb & ->)]; rewrite Hb in E0; cbn in E0;
      injection E0 as _ <-; by cbn. }
  clear E0. destruct Hw0 as (Hb0' & Ha0).
  assert (Hv0 : valid_example w0 values).
  { unfold valid_example in *. by rewrite Ha0. }
  assert (Hall0 : Forall (encodable can_cast w0 values)
                         (saved_data_description dataset_structure)).
  { eapply Forall_impl; [exact Hall|]. intros a.
    unfold encodable, example_value, deref. by rewrite Ha0. }
  rbind H E1 saved w1.
  { by apply (collect_raise_limit _ _ _ _ _ _ _ b0) in H. }
  pose proof (collect_spec _ _ _ _ _ _ [] _ _ _ _ E1 Hb0' Hidle0 Hv0
                           (Forall2_nil_2 _ _ _))
    as (b1 & St1 & Hidle1 & _ & Hat & _).
  destruct St1 as (_ & _ & _ & Hb1).
  assert (Hbound : Forall (fun o => o <= offset_of b1) saved).
  { rewrite offset_written by apply Hidle1.
    by eapply attributes_bound. }
  unfold fbapi.ExampleStartAttributesVector, fbapi.ExampleStart,
    fbapi.ExampleAddAttributes, fbapi.ExampleEnd in H.
  apply (onB_offsets_raise _ _ _ b1) in H
    as [?|(r & b2 & b3 & ES & EL & H)];
    [done| |done|apply Hidle1|apply Hidle1|done].
  rbind H E4 v w4.
  { apply onB_Raise_inv in H as [(Hn & _)|(b3' & b4 & Hb3 & EE & _)];
      [discriminate|].
    cbn in Hb3. injection Hb3 as <-.
    apply (offsets_raise_end _ _ _ _ _ _ _ ES EL) in EE;
      [done|apply Hidle1..]. }
  apply onB_Ok_inv in E4 as (b3' & b4 & Hb3 & EE & ->).
  cbn in Hb3. injection Hb3 as <-.
  pose proof (offsets_vector_spec _ _ _ _ _ _ _ ES EL EE Hidle1)
    as (Hidle4 & _ & _ & Hv4).
  apply (onB_table_raise _ _ _ b4) in H
    as [?|(b5 & b6 & EO & EA & H)]; [done| |done|done|lia].
  rbind H E7 hdl w7.
  - apply onB_Raise_inv in H as [(Hn & _)|(b6' & b7 & Hb6 & EW & _)];
      [discriminate|].
    cbn in Hb6. injection Hb6 as <-.
    apply (table_raise_end _ _ _ _ _ _ EO EA) in EW; [done..|lia].
  - discriminate.
Qed.

(** Writes of such examples, one after the other. *)
Lemma writes_raise_limit vs w e w' cs :
  forM_ vs (_write host can_cast cast_bits dataset_structure) w
  = Raise e w' ->
  consistent w cs -> Forall (valid_example w) vs ->
  Forall (fun values =>
            Forall (encodable can_cast w values)
                   (saved_data_description dataset_structure)) vs ->
  limit_error e = true.
Proof.
  revert w cs. induction vs as [|v vs IH]; intros w cs H Hc Hv Hall;
    cbn in H; [discriminate|].
  apply Forall_cons in Hv as (Hv1 & Hv2).
  apply Forall_cons in Hall as (Ha1 & Ha2).
  rbind H E u w1.
  - by apply (write_raise_limit _ _ _ _ cs) in H.
  - destruct u.
    pose proof (write_spec _ _ _ _ _ _ _ _ E Hc Hv1) as (Hc1 & S1 & _).
    apply (IH _ _ H Hc1).
    + eapply Forall_impl; [exact Hv2|]. intros x.
      by apply valid_example_extends.
    + apply Forall_forall. intros x Hx.
      rewrite Forall_forall in Hv2, Ha2.
      eapply Forall_impl; [exact (Ha2 x Hx)|]. intros a.
      apply encodable_extends; auto.
Qed.

(** [close] on a writer that holds examples. *)
Lemma close_raise_limit w e w' cs :
  close compress dataset_structure w = Raise e w' ->
  consistent w cs -> _examples w <> [] ->
  limit_error e = true.
Proof.
  intros H Hc Hne. unfold close in H.
  rbind H E0 exs w0; [discriminate|].
  unfold gets in E0. injection E0 as <- <-.
  destruct (_examples w) as [|e0 es] eqn:Hex; [done|]. cbv iota in H.
  rewrite <- Hex in *. clear Hne.
  unfold consistent in Hc.
  destruct (_builder w) as [b|] eqn:Hb;
    [|destruct Hc as (Hnil & _); congruence].
  destruct Hc as (Hidle & Hall).
  assert (Hbound : Forall (fun o => o <= offset_of b) (_examples w)).
  { rewrite offset_written by apply Hidle.
    by eapply examples_bound. }
  unfold fbapi.ShardStartExamplesVector, fbapi.ShardStart,
    fbapi.ShardAddExamples, fbapi.ShardEnd in H.
  move H at bottom.
  apply (onB_offsets_raise _ _ _ b) in H
    as [?|(r & b1 & b2 & ES & EL & H)];
    [done| |done|apply Hidle|apply Hidle|done].
  rbind H E3 v w3.
  { apply onB_Raise_inv in H as [(Hn & _)|(b2' & b3 & Hb2 & EE & _)];
      [discriminate|].
    cbn in Hb2. injection Hb2 as <-.
    apply (offsets_raise_end _ _ _ _ _ _ _ ES EL) in EE;
      [done|apply Hidle..]. }
  apply onB_Ok_inv in E3 as (b2' & b3 & Hb2 & EE & ->).
  cbn in Hb2. injection Hb2 as <-.
  pose proof (offsets_vector_spec _ _ _ _ _ _ _ ES EL EE Hidle)
    as (Hidle3 & _ & _ & Hv3).
  apply (onB_table_raise _ _ _ b3) in H
    as [?|(b4 & b5 & EO & EA & H)]; [done| |done|done|lia].
  rbind H E6 root w6.
  { apply onB_Raise_inv in H as [(Hn & _)|(b5' & b6 & Hb5 & EW & _)];
      [discriminate|].
    cbn in Hb5. injection Hb5 as <-.
    apply (table_raise_end _ _ _ _ _ _ EO EA) in EW; [done..|lia]. }
  apply onB_Ok_inv in E6 as (b5' & b6 & Hb5 & EW & ->).
  cbn in Hb5. injection Hb5 as <-.
  pose proof (table_spec _ _ _ _ _ _ EO EA EW Hidle3 ltac:(lia))
    as (Hidle6 & _ & _ & Hroot).
  rbind H E7 h w7.
  { apply onB_Raise_inv in H as [(Hn & _)|(b6' & b7 & Hb6 & EF & _)];
      [discriminate|].
    cbn in Hb6. injection Hb6 as <-.
    apply Finish_raise in EF; [done|apply Hidle6|lia]. }
  apply onB_Ok_inv in E7 as (b6' & b7 & Hb6 & EF & ->).
  cbn in Hb6. injection Hb6 as <-.
  pose proof (Finish_spec _ _ _ _ EF ltac:(apply Hidle6))
    as (pad & _ & _ & Hfin & _).
  rbind H E8 u8 w8; [discriminate|]. unfold modify in E8.
  injection E8 as _ <-.
  rbind H E9 out w9.
  { apply onB_Raise_inv in H as [(Hn & _)|(b7' & b8 & Hb7 & EP & _)];
      [discriminate|].
    cbn in Hb7. injection Hb7 as <-.
    apply Output_raise in EP. congruence. }
  apply onB_Ok_inv in E9 as (b7' & b8 & Hb7 & EP & ->).
  rbind H E10 u10 w10; [discriminate|]. unfold modify in E10.
  injection E10 as _ <-.
  rbind H E11 u11 w11; [discriminate|]. unfold modify in E11.
  injection E11 as _ <-.
  rbind H E12 fl w12; [discriminate|]. unfold gets in E12.
  injection E12 as <- <-. discriminate.
Qed.

(** Examples that the encoder accepts, written by a writer and closed:
    the calls return, or one of them stops at the size limit. *)
Lemma run_raise_limit vs w e w' cs :
  (forM_ vs (_write host can_cast cast_bits dataset_structure) ;;
   close compress dataset_structure) w = Raise e w' ->
  consistent w cs -> Forall (valid_example w) vs ->
  Forall (fun values =>
            Forall (encodable can_cast w values)
                   (saved_data_description dataset_structure)) vs ->
  vs <> [] ->
  limit_error e = true.
Proof.
  intros H Hc Hv Hall Hne. rbind H E u w1.
  - by apply (writes_raise_limit _ _ _ _ cs) in H.
  - destruct u.
    destruct (writes_spec host can_cast cast_bits dataset_structure
                          vs w w1 cs E Hc Hv) as (Hc1 & _ & _ & Hl).
    apply (close_raise_limit _ _ _ _ H Hc1).
    intros He. rewrite He in Hl. destruct vs; [done|]. cbn in Hl. lia.
Qed.
End RunLimit.

(** * The properties of the specification *)

(** C1.  Round trip and endianness of the encoder.  On any host, for any
    attribute and any input array, in whatever byte order its dtype says,
    that casts safely to the declared dtype [T] (of one of NumPy's byte
    orders), on a builder between two calls: the encoder returns when the
    buffer has room; whenever it returns, the byte vector at the offset it
    returns holds the little-endian images of the elements of the input
    converted to [T], in row-major order; another run, on any host and any
    input that converts to the same elements, embeds the same bytes; and
    reading those bytes as little-endian elements of [T] in the declared
    shape gives back, element by element, the input converted to [T]. *)
Theorem embedded_bytes_little_endian
    host can_cast cast_bits attribute value w b :
  let a := deref w value in
  let T := dtype attribute in
  let bs := le_bytes T (cast_values cast_bits host a T) in
  _builder w = Some b -> idle b ->
  can_cast (np.arr_dtype a) T = true ->
  numpy_byteorder (np.byteorder T) ->
  (len (written b) + len bs + 2 * Z.of_nat (np.itemsize T) + 8
   <= MAX_BUFFER_SIZE ->
   exists off w',
     save_numpy_vector_as_bytearray host can_cast cast_bits attribute value w
     = Ok off w')
  /\ (forall off w',
        save_numpy_vector_as_bytearray host can_cast cast_bits attribute
                                       value w = Ok off w' ->
        exists b', _builder w' = Some b' /\ off = offset_of b'
                   /\ bytes_at (written b') off bs)
  /\ (forall host2 value2 w2 b2 off2 w2',
        _builder w2 = Some b2 -> idle b2 ->
        cast_values cast_bits host2 (deref w2 value2) T
        = cast_values cast_bits host a T ->
        save_numpy_vector_as_bytearray host2 can_cast cast_bits attribute
                                       value2 w2 = Ok off2 w2' ->
        exists b2', _builder w2' = Some b2'
                    /\ bytes_at (written b2') off2 bs)
  /\ (length (np.data a) = fold_right Nat.mul 1%nat (attr_shape attribute) ->
      forall reader,
      exists decoded,
        Reader.decode_array attribute bs = Some decoded
        /\ np.shape decoded = attr_shape attribute
        /\ np.values reader decoded
           = np.values host (np.array cast_bits host a T)).
Proof.
  intros a T bs Hb Hidle Hcast Hbo.
  assert (Hat : forall h v w0 b0 off w',
             _builder w0 = Some b0 -> idle b0 ->
             save_numpy_vector_as_bytearray h can_cast cast_bits attribute
                                            v w0 = Ok off w' ->
             exists b', _builder w' = Some b' /\ off = offset_of b'
                        /\ bytes_at (written b') off
                             (expected_bytes cast_bits h (deref w0 v) T)).
  { intros h v w0 b0 off w' Hb0 Hi0 H.
    destruct (save_spec _ _ _ _ _ _ _ _ _ H Hb0 Hi0)
      as (b' & pad & w1 & _ & -> & Hi' & Ew & -> & _ & _ & _ & Hr).
    exists b'. split_and!; [done..|].
    rewrite (offset_written b') by apply Hi'. rewrite Ew.
    by apply bytes_at_front. }
  split_and!.
  - intros Hroom. by apply save_returns with (b := b).
  - intros off w' H. by apply (Hat host value w b).
  - intros host2 value2 w2 b2 off2 w2' Hb2 Hi2 Hsame H.
    destruct (Hat host2 value2 w2 b2 off2 w2' Hb2 Hi2 H) as (b2' & ? & _ & Hx).
    exists b2'. split; [done|]. unfold expected_bytes in Hx.
    by rewrite Hsame in Hx.
  - intros Hshape reader.
    by apply (decode_expected_bytes cast_bits host reader a attribute).
Qed.

(** On a little-endian host, the big-endian int16 array [[1, -2]] for an
    int32 attribute: eight bytes, least significant first. *)
Lemma embedded_bytes_little_endian_witness :
  exists off w' b',
    save_numpy_vector_as_bytearray
      LittleEndianHost Example_int.can_cast Example_int.cast_bits
      Example_int.x 0%nat Example_int.ready = Ok off w'
    /\ _builder w' = Some b'
    /\ bytes_at (written b') off
         [Byte.x01; Byte.x00; Byte.x00; Byte.x00;
          Byte.xfe; Byte.xff; Byte.xff; Byte.xff].
Proof.
  destruct (embedded_bytes_little_endian
              LittleEndianHost Example_int.can_cast Example_int.cast_bits
              Example_int.x 0%nat Example_int.ready (Builder.init 0)
              eq_refl idle_init eq_refl (or_introl eq_refl))
    as (Hreturns & Hbytes & _).
  destruct Hreturns as (off & w' & E); [by vm_compute|].
  destruct (Hbytes off w' E) as (b' & Hb' & _ & Hat).
  exists off, w', b'. split_and!; [exact E|exact Hb'|exact Hat].
Defined.

(** C2.  The vector the encoder asks the builder for.  Whenever the
    encoder returns, on a builder between two calls: the byte length of the
    serialized array is the number of elements times the item size of the
    declared dtype; [StartVector] was called on the builder as it was, and
    returned, with element size 1, that byte length as the number of
    elements (not the number of array elements) and the item size of the
    declared dtype as the alignment; the builder then holds, in front of
    what [StartVector] left, the element count and all the serialized
    bytes, the cursor having moved back by exactly that many bytes and the
    four of the count; and when the item size is a power of two, the
    payload starts at a multiple of it, counted from the end of the
    buffer. *)
Theorem byte_vector_declaration
    host can_cast cast_bits attribute value w b off w' :
  let a := deref w value in
  let T := dtype attribute in
  let bs := expected_bytes cast_bits host a T in
  let itemsize := Z.of_nat (np.itemsize T) in
  save_numpy_vector_as_bytearray host can_cast cast_bits attribute value w
  = Ok off w' ->
  _builder w = Some b -> idle b ->
  len bs = Z.of_nat (length (np.data a)) * itemsize
  /\ exists r b1 b',
       StartVector 1 (len bs) itemsize b = Ok r b1
       /\ vectorNumElems b1 = Some (len bs)
       /\ _builder w' = Some b'
       /\ written b' = pack UOffsetTFlags (len bs) ++ bs ++ written b1
       /\ head b' = head b1 - len bs - 4
       /\ Reader.Get UOffsetTFlags (written b') 0 = Some (len bs)
       /\ Reader.get_bytes (written b') 4 (length bs) = Some bs
       /\ (forall k, 0 <= k -> itemsize = 2 ^ k -> (off - 4) mod itemsize = 0).
Proof.
  intros a T bs itemsize H Hb Hidle. split.
  - unfold len, bs. rewrite length_expected_bytes. fold T. unfold itemsize.
    lia.
  - destruct (save_spec_vector _ _ _ _ _ _ _ _ _ H Hb Hidle)
      as (b' & pad & w1 & _ & -> & Hi' & Ew & Hoff & _ & _ & _ & Hr
          & (r & b1 & ES & Ew1 & Hh) & Hal).
    exists r, b1, b'.
    pose proof (StartVector_vectorNumElems _ _ _ _ _ _ ES) as Hv.
    pose proof (bytes_at_front bs (written b1) Hr) as Hf.
    unfold bs, a, T in *. cbv zeta in Hf. rewrite <- Ew1 in Hf.
    destruct Hf as (_ & Hget & Hbytes).
    unfold pos_of in Hget, Hbytes. rewrite Z.sub_diag in Hget, Hbytes.
    split_and!; done.
Qed.

(** The same array: two elements of four bytes, so [StartVector(1, 8, 4)]. *)
Lemma byte_vector_declaration_witness :
  exists r b1,
    StartVector 1 8 4 (Builder.init 0) = Ok r b1
    /\ vectorNumElems b1 = Some 8.
Proof.
  destruct (save_numpy_vector_as_bytearray
              LittleEndianHost Example_int.can_cast Example_int.cast_bits
              Example_int.x 0%nat Example_int.ready) as [off w'|] eqn:E;
    [|by vm_compute in E].
  destruct (byte_vector_declaration
              LittleEndianHost Example_int.can_cast Example_int.cast_bits
              Example_int.x 0%nat Example_int.ready (Builder.init 0) off w'
              E eq_refl idle_init)
    as (_ & r & b1 & b' & ES & Hv & _).
  exists r, b1. split; [exact ES|exact Hv].
Defined.

(** C3.  Cast rejection.  On a writer that holds a builder, the encoder
    raises the [ValueError] of the cast check exactly when the dtype of
    the value does not cast safely to the declared dtype; when it does
    raise it, the builder is the one it was, untouched (same buffer, same
    cursor), and so are the list of examples and the file; and a [_write]
    that raises, for this or any other reason, on any writer, leaves the
    list of examples as it was. *)
Theorem unsafe_cast_rejected
    host can_cast cast_bits ds attribute value w b :
  _builder w = Some b ->
  (can_cast (np.arr_dtype (deref w value)) (dtype attribute) = false
   <-> exists w',
         save_numpy_vector_as_bytearray host can_cast cast_bits attribute
                                        value w
         = Raise ValueError_cannot_cast w')
  /\ (forall w',
        save_numpy_vector_as_bytearray host can_cast cast_bits attribute
                                       value w
        = Raise ValueError_cannot_cast w' ->
        _builder w' = Some b /\ _examples w' = _examples w
        /\ shard_file w' = shard_file w)
  /\ (forall values w0 e w',
        _write host can_cast cast_bits ds values w0 = Raise e w' ->
        _examples w' = _examples w0).
Proof.
  intros Hb. split_and!.
  - split.
    + intros Hc. destruct (save_cannot_cast host can_cast cast_bits
                             attribute value w b Hb Hc) as (w' & E & _).
      by exists w'.
    + intros (w' & E).
      apply save_raise with (b := b) in E
        as [(_ & Hc & _)|[(? & _)|(Hi & _)]]; done.
  - intros w' E.
    apply save_raise with (b := b) in E
      as [(_ & _ & A)|[(? & _)|(Hi & _)]]; [|done..].
    destruct A as (_ & ? & ? & ?). split_and!; congruence.
  - intros values w0 e w' E. by apply write_raise_keeps in E as (_ & _ & ?).
Qed.

(** A float64 array for an int32 attribute: the [ValueError], and the
    builder as it was. *)
Lemma unsafe_cast_rejected_witness :
  exists w',
    save_numpy_vector_as_bytearray
      LittleEndianHost Example_int.can_cast Example_int.cast_bits
      Example_int.x 1%nat Example_int.ready
    = Raise ValueError_cannot_cast w'
    /\ _builder w' = Some (Builder.init 0).
Proof.
  destruct (unsafe_cast_rejected
              LittleEndianHost Example_int.can_cast Example_int.cast_bits
              Example_int.schema Example_int.x 1%nat Example_int.ready
              (Builder.init 0) eq_refl)
    as ((Hraises & _) & Hkept & _).
  destruct (Hraises eq_refl) as (w' & E).
  exists w'. split; [exact E|]. by destruct (Hkept w' E).
Defined.

(** C4.  Order preservation.  A fresh writer, any examples written one
    after the other, then [close].  When every example gives every
    attribute of the schema a value the encoder accepts, the calls return,
    unless one of them stops at the size limit of the builder.  Whenever
    they return, the file holds a shard that decodes to one record per
    [_write] call, in the order of the calls, none merged or dropped, and
    every record lists the byte vectors of its attributes in the order of
    the schema.  (The builder grows backwards: [_write] and [close] hand
    it the handles in reverse, and the reader finds them in order.)  The
    order in which the caller's dict holds its items plays no part:
    [_write] ends the same way on a dict with the same items in another
    order. *)
Theorem order_preserved
    host can_cast cast_bits compress ds (vs : list ExampleT) arrays0 file0 :
  let w0 := init_writer arrays0 file0 in
  let run :=
    (forM_ vs (_write host can_cast cast_bits ds) ;; close compress ds) w0 in
  Forall (valid_example w0) vs ->
  vs <> [] ->
  (Forall (fun values =>
             Forall (encodable can_cast w0 values)
                    (saved_data_description ds)) vs ->
   (exists w', run = Ok tt w')
   \/ (exists e w', run = Raise e w' /\ limit_error e = true))
  /\ (forall w',
        run = Ok tt w' ->
        exists out,
          shard_file w' = Some (compress (compression ds) out)
          /\ Reader.decode_shard out
             = Some (map (fun values =>
                            map (fun attribute =>
                                   expected_bytes cast_bits host
                                     (example_value w0 values attribute)
                                     (dtype attribute))
                                (saved_data_description ds))
                         vs))
  /\ (forall values values' w,
        List.NoDup (map fst values) -> Permutation values values' ->
        _write host can_cast cast_bits ds values w
        = _write host can_cast cast_bits ds values' w).
Proof.
  intros w0 run Hv Hne. split_and!.
  - intros Hall. destruct run as [[] w'|e w'] eqn:H; [by left; eauto|].
    right. exists e, w'. split; [done|].
    by apply (run_raise_limit host can_cast cast_bits compress ds vs w0 e w'
                              []) in H.
  - intros w' H. unfold run in H. mbind H E u w1. destruct u.
    destruct (writes_spec host can_cast cast_bits ds vs w0 w1 [] E)
      as (Hc & _ & _ & Hl); [done..|].
    destruct (close_spec compress ds w1 w' _ H Hc) as (out & Hf & Hd & _).
    { intros He. rewrite He in Hl. destruct vs; [done|]. cbn in Hl. lia. }
    exists out. split; [done|]. by rewrite Hd.
  - intros values values' w. apply write_dict_order.
Qed.

(** Two examples, [[1, -2]] then [[7]]: the file decodes to them in that
    order. *)
Lemma order_preserved_witness :
  exists w' out,
    (forM_ [Example_int.good; Example_int.other]
           (_write LittleEndianHost Example_int.can_cast Example_int.cast_bits
                   Example_int.schema) ;;
     close Example_int.compress Example_int.schema) Example_int.fresh
    = Ok tt w'
    /\ shard_file w' = Some out
    /\ Reader.decode_shard out
       = Some [[[Byte.x01; Byte.x00; Byte.x00; Byte.x00;
                 Byte.xfe; Byte.xff; Byte.xff; Byte.xff]];
               [[Byte.x07; Byte.x00; Byte.x00; Byte.x00]]].
Proof.
  destruct (order_preserved
              LittleEndianHost Example_int.can_cast Example_int.cast_bits
              Example_int.compress Example_int.schema
              [Example_int.good; Example_int.other]
              Example_int.store None)
    as (_ & Hfile & _).
  - repeat constructor.
  - discriminate.
  - destruct ((forM_ [Example_int.good; Example_int.other]
                 (_write LittleEndianHost Example_int.can_cast
                         Example_int.cast_bits Example_int.schema) ;;
               close Example_int.compress Example_int.schema)
                Example_int.fresh)
      as [[] w'|] eqn:E; [|by vm_compute in E].
    destruct (Hfile w' E) as (out & Hf & Hd).
    exists w', out. split_and!; [done|exact Hf|exact Hd].
Defined.

(** C5.  The empty shard.  On a writer whose list of examples is empty,
    [close] changes nothing, however it ends: no file is created, the
    builder is not touched, and the compression collaborator plays no
    part in the outcome; it returns when no file is there.  The same holds
    after a [_write] on that writer that raised: the list is still empty,
    the file system is as it was, and [close] changes nothing and returns
    when no file is there. *)
Theorem empty_close_creates_no_file
    host can_cast cast_bits compress ds w :
  _examples w = [] ->
  final_state (close compress ds w) = w
  /\ (shard_file w = None -> close compress ds w = Ok tt w)
  /\ (forall compress', close compress' ds w = close compress ds w)
  /\ (forall values e w1,
        _write host can_cast cast_bits ds values w = Raise e w1 ->
        _examples w1 = [] /\ shard_file w1 = shard_file w
        /\ final_state (close compress ds w1) = w1
        /\ (shard_file w = None -> close compress ds w1 = Ok tt w1)).
Proof.
  intros He.
  assert (Hc : forall w0, _examples w0 = [] ->
             final_state (close compress ds w0) = w0
             /\ (shard_file w0 = None -> close compress ds w0 = Ok tt w0)).
  { intros w0 He0. rewrite (close_empty compress ds w0 He0).
    destruct (shard_file w0); [done|]. by split. }
  split_and!.
  - by apply Hc.
  - by apply Hc.
  - intros compress'. by rewrite !close_empty.
  - intros values e w1 E.
    apply write_raise_keeps in E as (_ & Hf & Hex).
    rewrite He in Hex. destruct (Hc w1 Hex) as (? & Hr).
    split_and!; try done. intros Hn. apply Hr. congruence.
Qed.

(** A writer that was just made: [close] returns and there is no file. *)
Lemma empty_close_creates_no_file_witness :
  close Example_int.compress Example_int.schema Example_int.fresh
  = Ok tt Example_int.fresh
  /\ shard_file Example_int.fresh = None.
Proof.
  destruct (empty_close_creates_no_file
              LittleEndianHost Example_int.can_cast Example_int.cast_bits
              Example_int.compress Example_int.schema Example_int.fresh
              eq_refl)
    as (_ & Hreturns & _).
  split; [exact (Hreturns eq_refl)|reflexivity].
Defined.

(** C6.  Non-mutation.  An array object that the caller holds when
    [_write] is called is, after the call, whether it returned or raised,
    the array it was: the same dtype with the same byte order, the same
    shape and the same bytes, hence the same elements.  The same holds for
    a call of the encoder alone: it works on the copy it makes, and the
    byte swap builds a new array. *)
Theorem caller_arrays_unchanged
    host can_cast cast_bits ds values w (l : nat) :
  (l < length (arrays w))%nat ->
  deref (final_state (_write host can_cast cast_bits ds values w)) l
  = deref w l
  /\ (forall attribute value,
        deref (final_state
                 (save_numpy_vector_as_bytearray host can_cast cast_bits
                                                 attribute value w)) l
        = deref w l).
Proof.
  intros Hl. split.
  - apply store_extends_deref; [|done]. apply write_keeps.
  - intros attribute value. apply store_extends_deref; [|done].
    apply save_keeps.
Qed.

(** The caller's big-endian array after a [_write] that encoded it. *)
Lemma caller_arrays_unchanged_witness :
  deref (final_state
           (_write LittleEndianHost Example_int.can_cast
                   Example_int.cast_bits Example_int.schema Example_int.good
                   Example_int.fresh)) 0
  = Example_int.arr Example_int.int16_be [1; 65534].
Proof.
  destruct (caller_arrays_unchanged
              LittleEndianHost Example_int.can_cast Example_int.cast_bits
              Example_int.schema Example_int.good Example_int.fresh 0%nat)
    as (Hw & _).
  - cbn. lia.
  - exact Hw.
Defined.

(** C7, the claim as stated fails: a [_write] after a [close] that wrote
    the shard returns and appends a handle to the list of examples. *)
Lemma closed_writer_accepts_write :
  let write := _write LittleEndianHost Example_int.can_cast
                      Example_int.cast_bits Example_int.schema in
  exists w1 w2 w3,
    write Example_int.good Example_int.fresh = Ok tt w1
    /\ close Example_int.compress Example_int.schema w1 = Ok tt w2
    /\ is_Some (shard_file w2)
    /\ write Example_int.other w2 = Ok tt w3
    /\ length (_examples w2) = 1%nat
    /\ length (_examples w3) = 2%nat.
Proof.
  cbv zeta. do 3 eexists.
  split; [vm_compute; reflexivity|].
  split; [vm_compute; reflexivity|].
  split; [by eexists|].
  split; [vm_compute; reflexivity|].
  split; reflexivity.
Qed.

(** C7, amended.  [close] leaves no mark that [_write] looks at.  After
    a [close] that returned, the list of examples is the one it was and,
    when a shard was written, the writer has no builder; a [_write] that
    follows is not turned away: without a builder it runs exactly as on
    the same writer with a new builder, as the first [_write] of a writer
    does; however it ends, it leaves the file as [close] left it. *)
Theorem write_after_close
    host can_cast cast_bits compress ds values w w' :
  close compress ds w = Ok tt w' ->
  _examples w' = _examples w
  /\ (_examples w <> [] -> _builder w' = None)
  /\ (_builder w' = None ->
      _write host can_cast cast_bits ds values w'
      = _write host can_cast cast_bits ds values
               (with_builder (Some (Builder.init 0)) w'))
  /\ shard_file (final_state (_write host can_cast cast_bits ds values w'))
     = shard_file w'.
Proof.
  intros H. split_and!.
  - destruct (_examples w) as [|e0 es] eqn:He.
    + rewrite (close_empty compress ds w He) in H.
      destruct (shard_file w); [done|]. injection H as <-. done.
    + rewrite <- He. apply (close_Ok_inv compress ds w w' H). by rewrite He.
  - intros Hne. by apply (close_Ok_inv compress ds w w' H).
  - apply write_without_builder.
  - apply write_keeps.
Qed.

(** One example written and closed, then another [_write]: it returns, and
    the file is the one [close] wrote. *)
Lemma write_after_close_witness :
  exists w' w'',
    close Example_int.compress Example_int.schema
          (final_state
             (_write LittleEndianHost Example_int.can_cast
                     Example_int.cast_bits Example_int.schema
                     Example_int.good Example_int.fresh))
    = Ok tt w'
    /\ _builder w' = None
    /\ _write LittleEndianHost Example_int.can_cast Example_int.cast_bits
              Example_int.schema Example_int.other w' = Ok tt w''
    /\ shard_file w'' = shard_file w'.
Proof.
  destruct (close Example_int.compress Example_int.schema
              (final_state
                 (_write LittleEndianHost Example_int.can_cast
                         Example_int.cast_bits Example_int.schema
                         Example_int.good Example_int.fresh)))
    as [[] w'|] eqn:E; [|by vm_compute in E].
  destruct (write_after_close
              LittleEndianHost Example_int.can_cast Example_int.cast_bits
              Example_int.compress Example_int.schema Example_int.other
              _ w' E)
    as (_ & Hnone & _ & Hfile).
  destruct (_write LittleEndianHost Example_int.can_cast
              Example_int.cast_bits Example_int.schema Example_int.other w')
    as [[] w''|] eqn:E2.
  - exists w', w''. split_and!; [done| |done|exact Hfile].
    apply Hnone. by vm_compute.
  - exfalso. vm_compute in E. injection E as <-. by vm_compute in E2.
Defined.

(** C8.  Byte-order normalization.  When the byte-order character of the
    declared dtype, which is the dtype of the array the cast step
    produces, is one of NumPy's four ("=", "<", ">", "|"), the encoder
    never raises the [ValueError] of an unexpected byte order, nor the one
    of an unexpected [sys.byteorder].  On a builder between two calls, a
    value that casts safely makes it return, unless it stops at the size
    limit of the builder; and whenever it returns, the bytes it embeds are
    those of the converted array swapped once when its dtype is big-endian
    (">", or "=" on a big-endian host) and those of the converted array as
    it is otherwise. *)
Theorem byte_order_normalization
    host can_cast cast_bits attribute value w :
  let T := dtype attribute in
  let converted := np.array cast_bits host (deref w value) T in
  numpy_byteorder (np.byteorder T) ->
  (forall e w',
     save_numpy_vector_as_bytearray host can_cast cast_bits attribute value w
     = Raise e w' ->
     e <> ValueError_byteorder /\ e <> ValueError_sys_byteorder)
  /\ (forall b e w',
        _builder w = Some b -> idle b ->
        can_cast (np.arr_dtype (deref w value)) T = true ->
        save_numpy_vector_as_bytearray host can_cast cast_bits attribute
                                       value w = Raise e w' ->
        limit_error e = true)
  /\ (forall off w' b,
        save_numpy_vector_as_bytearray host can_cast cast_bits attribute
                                       value w = Ok off w' ->
        _builder w = Some b -> idle b ->
        exists b',
          _builder w' = Some b'
          /\ bytes_at (written b') off
               (np.tobytes (if np.is_big_endian host T
                            then np.byteswap converted else converted))).
Proof.
  intros T converted Hbo. split_and!.
  2:{ intros b e w' Hb Hidle Hcast H.
      by apply (save_raise_limit _ _ _ _ _ _ b) in H. }
  - intros e w' H. destruct (_builder w) as [b|] eqn:Hb.
    + apply save_raise with (b := b) in H
        as [(-> & _)|[(_ & _ & Hn & _)|(Hi & _)]]; [by split|done| |done].
      split; intros ->; discriminate.
    + unfold save_numpy_vector_as_bytearray in H.
      rewrite bind_unfold in H. unfold gets in H. rewrite Hb in H.
      cbn in H. injection H as <- _. by split.
  - intros off w' b H Hb Hidle.
    destruct (save_spec _ _ _ _ _ _ _ _ _ H Hb Hidle)
      as (b' & pad & w1 & _ & -> & Hi' & Ew & -> & _ & _ & _ & Hr).
    exists b'. split; [done|].
    replace (np.tobytes _)
      with (expected_bytes cast_bits host (deref w value) T).
    + rewrite (offset_written b') by apply Hi'. rewrite Ew.
      by apply bytes_at_front.
    + unfold converted. destruct (np.is_big_endian host T) eqn:Hbig.
      * by rewrite tobytes_byteswap_array_big.
      * by rewrite tobytes_array_little.
Qed.

(** On a big-endian host the native int32 array is swapped once: the
    same eight bytes as on a little-endian host. *)
Lemma byte_order_normalization_witness :
  exists off w' b',
    save_numpy_vector_as_bytearray
      BigEndianHost Example_int.can_cast Example_int.cast_bits
      Example_int.x 0%nat Example_int.ready = Ok off w'
    /\ _builder w' = Some b'
    /\ bytes_at (written b') off
         [Byte.x01; Byte.x00; Byte.x00; Byte.x00;
          Byte.xfe; Byte.xff; Byte.xff; Byte.xff].
Proof.
  destruct (byte_order_normalization
              BigEndianHost Example_int.can_cast Example_int.cast_bits
              Example_int.x 0%nat Example_int.ready (or_introl eq_refl))
    as (_ & _ & Hswapped).
  destruct (save_numpy_vector_as_bytearray
              BigEndianHost Example_int.can_cast Example_int.cast_bits
              Example_int.x 0%nat Example_int.ready) as [off w'|] eqn:E;
    [|by vm_compute in E].
  destruct (Hswapped off w' (Builder.init 0) eq_refl eq_refl idle_init)
    as (b' & Hb' & Hat).
  exists off, w', b'. split_and!; [done|exact Hb'|exact Hat].
Defined.

(** C9.  The second assignment of [vectorNumElems] (line 195) changes
    nothing: on every world, for every attribute and value, the encoder
    and the encoder without that statement end the same way, with the same
    returned offset or the same exception, and leave the same world, hence
    the same builder, byte for byte, with the same cursor. *)
Theorem vectorNumElems_reassignment_noop
    host can_cast cast_bits attribute value w :
  save_numpy_vector_as_bytearray host can_cast cast_bits attribute value w
  = save_numpy_vector_as_bytearray_without_reassignment
      host can_cast cast_bits attribute value w.
Proof.
  unfold save_numpy_vector_as_bytearray,
    save_numpy_vector_as_bytearray_without_reassignment.
  do 5 (apply bind_ext; intros).
  destruct (negb _); [done|].
  do 5 (apply bind_ext; intros).
  cbv zeta.
  match goal with
  | |- bind (onB ?A) (fun _ => bind (onB ?B) (fun _ => bind (onB ?C)
         (fun _ => bind (onB ?D) (fun _ => onB ?E)))) ?s = _ =>
      transitivity (onB (A ;; B ;; C ;; D ;; E)%M s);
      [ symmetry; repeat (rewrite onB_bind; apply bind_ext; intros); done
      | transitivity (onB (A ;; B ;; C ;; E)%M s);
        [ apply onB_ext, vector_calls_without_reassignment
        | repeat (rewrite onB_bind; apply bind_ext; intros); done ] ]
  end.
Qed.

(** C10.  Orphaned bytes.  A fresh writer; examples [vs1] written; then
    a [_write] of [bad] that raises the [ValueError] of the cast check or
    the [KeyError] of a missing name, the attributes [done] at the front
    of the schema being present and safe to cast; then examples [vs2]
    written, and [close].  The failing call has put the byte vectors of
    [done] in front of what the builder held and has left them there: the
    cursor stays that many bytes further.  It has added no example.  The
    later calls return when the encoder accepts the examples of [vs2],
    unless one of them stops at the size limit of the builder; and
    whenever they return, the file decodes to the examples of [vs1] and
    [vs2], in order, and to nothing else. *)
Theorem orphaned_bytes_unreachable
    host can_cast cast_bits compress ds
    (vs1 vs2 : list ExampleT) (bad : ExampleT) (done rest : list Attribute)
    arrays0 file0 w1 e w2 :
  let w0 := init_writer arrays0 file0 in
  let write := _write host can_cast cast_bits ds in
  let later := (forM_ vs2 write ;; close compress ds) w2 in
  let content := fun values =>
    map (fun attribute =>
           expected_bytes cast_bits host (example_value w0 values attribute)
                          (dtype attribute))
        (saved_data_description ds) in
  Forall (valid_example w0) (vs1 ++ bad :: vs2) ->
  saved_data_description ds = done ++ rest ->
  Forall (fun a => is_Some (dict_get bad (name a))
                   /\ can_cast (np.arr_dtype (example_value w0 bad a))
                               (dtype a) = true) done ->
  forM_ vs1 write w0 = Ok tt w1 ->
  write bad w1 = Raise e w2 ->
  e = ValueError_cannot_cast \/ e = KeyError ->
  vs1 ++ vs2 <> [] ->
  (exists b1 b2 orphan,
     (_builder w1 = Some b1 \/ _builder w1 = None /\ b1 = Builder.init 0)
     /\ _builder w2 = Some b2
     /\ written b2 = orphan ++ written b1
     /\ offset_of b2 = offset_of b1 + len orphan
     /\ Forall (fun a => embedded orphan
                           (expected_bytes cast_bits host
                              (example_value w0 bad a) (dtype a))) done)
  /\ _examples w2 = _examples w1
  /\ (Forall (fun values =>
                Forall (encodable can_cast w0 values)
                       (saved_data_description ds)) vs2 ->
      (exists w3, later = Ok tt w3)
      \/ (exists e3 w3, later = Raise e3 w3 /\ limit_error e3 = true))
  /\ (forall w3,
        later = Ok tt w3 ->
        exists out,
          shard_file w3 = Some (compress (compression ds) out)
          /\ Reader.decode_shard out = Some (map content (vs1 ++ vs2))).
Proof.
  intros w0 write later content Hv Hs Hdone H1 H2 He Hne.
  apply Forall_app in Hv as (Hv1 & Hv2).
  apply Forall_cons in Hv2 as (Hvb & Hv2).
  assert (Hce : caller_error e = true) by (by destruct He as [-> | ->]).
  destruct (writes_spec host can_cast cast_bits ds vs1 w0 w1 [] H1)
    as (Hc1 & S1 & _ & L1); [done..|].
  cbn [app] in Hc1.
  destruct (write_raise host can_cast cast_bits ds bad w1 e w2 _ H2 Hce Hc1)
    as (Hc2 & S2 & Hex & _).
  assert (S02 : store_extends w0 w2) by eauto using store_extends_trans.
  assert (Hv2' : Forall (valid_example w2) vs2).
  { eapply Forall_impl; [exact Hv2|]. intros v.
    by apply valid_example_extends. }
  assert (Hsome : forall w2',
             length (_examples w2')
             = (length (_examples w2) + length vs2)%nat ->
             _examples w2' <> []).
  { intros w2' L3 Hnil. rewrite Hnil, Hex, L1 in L3. cbn in L3.
    destruct vs1, vs2; cbn in *; (done || lia). }
  split_and!; [|done| |].
  - eapply write_raise_orphan in H2
      as (b1 & b2 & orphan & Hb1 & Hb2 & Ew & Ho & Hall); eauto.
    + exists b1, b2, orphan. split_and!; try done.
      eapply Forall_impl; [exact Hall|]. intros a Ha. cbv beta in Ha.
      by rewrite (example_value_extends w0 w1) in Ha.
    + by eapply valid_example_extends.
    + eapply Forall_impl; [exact Hdone|]. intros a Ha. cbv beta in Ha |- *.
      by rewrite (example_value_extends w0 w1).
  - intros Hall. destruct later as [[] w3|e3 w3] eqn:H3; [by left; eauto|].
    right. exists e3, w3. split; [done|]. unfold later in H3.
    rbind H3 E u w2'.
    + apply (writes_raise_limit _ _ _ _ _ _ _ _ _ H3 Hc2 Hv2').
      apply Forall_forall. intros x Hx. rewrite Forall_forall in Hv2, Hall.
      eapply Forall_impl; [exact (Hall x Hx)|]. intros a.
      apply encodable_extends; auto.
    + destruct u.
      destruct (writes_spec host can_cast cast_bits ds vs2 w2 w2' _ E Hc2
                            Hv2') as (Hc3 & _ & _ & L3).
      by apply (close_raise_limit _ _ _ _ _ _ H3 Hc3), Hsome.
  - intros w3 H3. unfold later in H3. mbind H3 E u w2'. destruct u.
    destruct (writes_spec host can_cast cast_bits ds vs2 w2 w2' _ E Hc2 Hv2')
      as (Hc3 & _ & _ & L3).
    destruct (close_spec compress ds w2' w3 _ H3 Hc3) as (out & Hf & Hd & _);
      [by apply Hsome|].
    exists out. split; [done|]. rewrite Hd, map_app. do 2 f_equal.
    apply map_ext_Forall. eapply Forall_impl; [exact Hv2|]. intros v Hvv.
    by apply example_content_extends.
Qed.

(** An example written, one whose second attribute does not cast, and
    the first example again: the file decodes to the two that were
    written. *)
Lemma orphaned_bytes_unreachable_witness :
  let write := _write LittleEndianHost Example_int.can_cast
                      Example_int.cast_bits Example_int.schema_xy in
  let w1 := final_state (forM_ [Example_int.good_xy] write Example_int.fresh) in
  let w2 := final_state (write Example_int.bad_xy w1) in
  let w3 := final_state
              ((forM_ [Example_int.good_xy] write ;;
                close Example_int.compress Example_int.schema_xy) w2) in
  write Example_int.bad_xy w1 = Raise ValueError_cannot_cast w2
  /\ exists out,
       shard_file w3 = Some out
       /\ Reader.decode_shard out
          = Some [[[Byte.x01; Byte.x00; Byte.x00; Byte.x00;
                    Byte.xfe; Byte.xff; Byte.xff; Byte.xff];
                   [Byte.x07; Byte.x00; Byte.x00; Byte.x00]];
                  [[Byte.x01; Byte.x00; Byte.x00; Byte.x00;
                    Byte.xfe; Byte.xff; Byte.xff; Byte.xff];
                   [Byte.x07; Byte.x00; Byte.x00; Byte.x00]]].
Proof.
  intros write w1 w2 w3.
  assert (H2 : write Example_int.bad_xy w1 = Raise ValueError_cannot_cast w2)
    by (vm_compute; reflexivity).
  split; [exact H2|].
  destruct (orphaned_bytes_unreachable
              LittleEndianHost Example_int.can_cast Example_int.cast_bits
              Example_int.compress Example_int.schema_xy
              [Example_int.good_xy] [Example_int.good_xy] Example_int.bad_xy
              [Example_int.x] [Example_int.y] Example_int.store None
              w1 ValueError_cannot_cast w2)
    as (_ & _ & _ & Hfile).
  - repeat constructor.
  - reflexivity.
  - repeat constructor. by eexists.
  - vm_compute; reflexivity.
  - exact H2.
  - by left.
  - discriminate.
  - destruct (Hfile w3) as (out & Hf & Hd).
    + vm_compute; reflexivity.
    + exists out. split; [exact Hf|exact Hd].
Defined.

(** * Further properties of the writer *)

(** ** What [_write] reads and what it appends *)

Lemma kept_examples_alloc w a :
  kept_examples w (with_arrays (arrays w ++ [a]) w).
Proof. split_and!; [by exists [a]|done..]. Qed.

Lemma kept_examples_builder w v : kept_examples w (with_builder v w).
Proof. split_and!; [by exists []; rewrite app_nil_r|done..]. Qed.

Lemma kept_of_frames {A} (m : M World A) w a w' :
  frames kept_examples m -> m w = Ok a w' -> kept_examples w w'.
Proof. intros Hm E. specialize (Hm w). by rewrite E in Hm. Qed.

Lemma kept_examples_onB {A} (m : M Builder.t A) :
  frames kept_examples (onB m).
Proof.
  apply frames_onB; auto using kept_examples_refl, kept_examples_builder.
Qed.

Lemma kept_examples_prepare (c : bool) v :
  frames kept_examples (when c (modify (with_builder v))).
Proof.
  apply frames_when; [apply kept_examples_refl|].
  apply frames_set_builder, kept_examples_builder.
Qed.

Section Appends.
Variable host : Platform.
Variable can_cast : np.dtype -> np.dtype -> bool.
Variable cast_bits : np.dtype -> np.dtype -> Z -> Z.
Variable dataset_structure : DatasetStructure.

Lemma kept_examples_collect values attrs acc :
  frames kept_examples
         (collectM attrs (save_attribute host can_cast cast_bits values) acc).
Proof.
  apply frames_collectM;
    try first [exact kept_examples_refl | exact kept_examples_trans].
  intros a. apply frames_save_attribute;
    first [exact kept_examples_refl | exact kept_examples_trans
          | exact kept_examples_alloc | exact kept_examples_builder].
Qed.

Lemma kept_examples_loop (xs : list Z) (f : Z -> M Builder.t unit) :
  frames kept_examples (forM_ xs (fun x => onB (f x))).
Proof.
  apply frames_forM_;
    try first [exact kept_examples_refl | exact kept_examples_trans].
  intros x. apply kept_examples_onB.
Qed.
End Appends.

(** X4.  A [_write] that returns has appended exactly one handle to the
    list of examples, whatever state the writer was in: the list it leaves
    is the list it found with one handle at the end (lines 62-99; the only
    statement that touches the list is the [append] of line 99). *)
Theorem write_appends_one_handle
    host can_cast cast_bits ds values w w' :
  _write host can_cast cast_bits ds values w = Ok tt w' ->
  exists handle, _examples w' = _examples w ++ [handle].
Proof.
  intros H. unfold _write in H.
  mbind H E0 bld w0. unfold gets in E0. injection E0 as <- <-.
  mbind H E1 u1 w1. apply kept_of_frames in E1 as (_ & _ & K1);
    [|apply kept_examples_prepare].
  mbind H E2 saved w2. apply kept_of_frames in E2 as (_ & _ & K2);
    [|apply kept_examples_collect].
  mbind H E3 r w3. apply kept_of_frames in E3 as (_ & _ & K3);
    [|apply kept_examples_onB].
  mbind H E4 u4 w4. apply kept_of_frames in E4 as (_ & _ & K4);
    [|apply kept_examples_loop].
  mbind H E5 v w5. apply kept_of_frames in E5 as (_ & _ & K5);
    [|apply kept_examples_onB].
  mbind H E6 u6 w6. apply kept_of_frames in E6 as (_ & _ & K6);
    [|apply kept_examples_onB].
  mbind H E7 u7 w7. apply kept_of_frames in E7 as (_ & _ & K7);
    [|apply kept_examples_onB].
  mbind H E8 handle w8. apply kept_of_frames in E8 as (_ & _ & K8);
    [|apply kept_examples_onB].
  unfold modify in H. injection H as <-. exists handle. cbn. congruence.
Qed.

(** The first [_write] of a writer: one handle. *)
Lemma write_appends_one_handle_witness :
  exists w' handle,
    _write LittleEndianHost Example_int.can_cast Example_int.cast_bits
           Example_int.schema Example_int.good Example_int.fresh = Ok tt w'
    /\ _examples w' = [handle].
Proof.
  destruct (_write LittleEndianHost Example_int.can_cast
              Example_int.cast_bits Example_int.schema Example_int.good
              Example_int.fresh) as [[] w'|] eqn:E; [|by vm_compute in E].
  destruct (write_appends_one_handle
              LittleEndianHost Example_int.can_cast Example_int.cast_bits
              Example_int.schema Example_int.good Example_int.fresh w' E)
    as (handle & Hh).
  exists w', handle. split; [reflexivity|exact Hh].
Defined.

(** X3.  Writing is buffered: no [_write] call reaches the file system.
    After any number of calls on any writer, each carried on from where
    the one before stopped, whether it returned or raised, the file at the
    shard's path is what it was (lines 62-99). *)
Theorem writes_leave_file
    host can_cast cast_bits ds (vs : list ExampleT) w :
  shard_file
    (fold_left
       (fun w values =>
          final_state (_write host can_cast cast_bits ds values w))
       vs w)
  = shard_file w.
Proof.
  revert w. induction vs as [|v vs IH]; intros w; cbn; [done|].
  rewrite IH. apply write_keeps.
Qed.

Lemma collectM_ext_In {S A B} (xs : list A) (f g : A -> M S B) acc s :
  (forall x s', In x xs -> f x s' = g x s') ->
  collectM xs f acc s = collectM xs g acc s.
Proof.
  revert acc s. induction xs as [|x xs IH]; intros acc s H; [done|].
  cbn. rewrite !bind_unfold, (H x s) by (by left).
  destruct (g x s); [|done]. apply IH. intros y s' Hy. apply H. by right.
Qed.

(** X2.  [_write] looks the caller's dict up at the names of the schema
    and nowhere else (line 79): two dicts that give the same answer for
    every attribute name of the schema make [_write] end the same way, in
    the same state.  Entries under other names are ignored. *)
Theorem write_reads_schema_names
    host can_cast cast_bits ds values values' w :
  (forall a, In a (saved_data_description ds) ->
             dict_get values (name a) = dict_get values' (name a)) ->
  _write host can_cast cast_bits ds values w
  = _write host can_cast cast_bits ds values' w.
Proof.
  intros Hsame. unfold _write.
  do 2 (apply bind_ext; intros).
  rewrite !bind_unfold.
  rewrite (collectM_ext_In _ _ (save_attribute host can_cast cast_bits
                                               values')).
  - done.
  - intros x s Hx. unfold save_attribute, dict_getitem.
    by rewrite (Hsame x Hx).
Qed.

(** An example with an entry that the schema does not name. *)
Lemma write_reads_schema_names_witness :
  _write LittleEndianHost Example_int.can_cast Example_int.cast_bits
         Example_int.schema Example_int.good_xy Example_int.fresh
  = _write LittleEndianHost Example_int.can_cast Example_int.cast_bits
           Example_int.schema Example_int.good Example_int.fresh.
Proof.
  apply write_reads_schema_names.
  intros a [<-|[]]. reflexivity.
Defined.

(** ** [close] and the file *)

Lemma kept_all_but_builder_refl w : kept_all_but_builder w w.
Proof. done. Qed.

Lemma kept_all_but_builder_trans w1 w2 w3 :
  kept_all_but_builder w1 w2 -> kept_all_but_builder w2 w3 ->
  kept_all_but_builder w1 w3.
Proof.
  intros (? & ? & ?) (? & ? & ?). split_and!; congruence.
Qed.

Lemma kept_all_but_builder_onB {A} (m : M Builder.t A) :
  frames kept_all_but_builder (onB m).
Proof. by apply frames_onB. Qed.

Lemma kept_all_but_builder_loop (xs : list Z) (f : Z -> M Builder.t unit) :
  frames kept_all_but_builder (forM_ xs (fun x => onB (f x))).
Proof.
  apply frames_forM_;
    try first [exact kept_all_but_builder_refl
              | exact kept_all_but_builder_trans].
  intros x. apply kept_all_but_builder_onB.
Qed.

Lemma Finish_finished root b h b' :
  Finish root b = Ok h b' -> finished b' = true.
Proof.
  unfold Finish, Head. intros H.
  mbind H E0 u0 s0. mbind H E1 ma s1. mbind H E2 u2 s2.
  mbind H E3 u3 s3. mbind H E4 u4 s4.
  unfold modify in E4. injection E4 as _ <-.
  unfold gets in H. by injection H as _ <-.
Qed.

(** X5.  A [close] that raises has not touched the file: the file at the
    shard's path, the list of examples and the arrays are what they were.
    The file is opened only once the buffer is finished, and nothing after
    that point can fail (lines 200-229). *)
Theorem close_raise_keeps_file compress ds w e w' :
  close compress ds w = Raise e w' ->
  shard_file w' = shard_file w /\ _examples w' = _examples w
  /\ arrays w' = arrays w.
Proof.
  intros H.
  assert (K : forall {A} (m : M World A) w0 e0 w0',
             m w0 = Raise e0 w0' -> frames kept_all_but_builder m ->
             kept_all_but_builder w0 w0').
  { intros A m w0 e0 w0' E Hm. specialize (Hm w0). by rewrite E in Hm. }
  assert (K' : forall {A} (m : M World A) w0 a w0',
             m w0 = Ok a w0' -> frames kept_all_but_builder m ->
             kept_all_but_builder w0 w0').
  { intros A m w0 a w0' E Hm. specialize (Hm w0). by rewrite E in Hm. }
  cut (kept_all_but_builder w w').
  { intros (? & ? & ?). by split_and!. }
  unfold close in H.
  rbind H E0 exs w0; [discriminate|].
  unfold gets in E0. injection E0 as <- <-.
  destruct (_examples w) as [|e0 es] eqn:Hex; cbv iota in H.
  { rbind H E1 f w1; [discriminate|]. unfold gets in E1.
    injection E1 as <- <-.
    destruct (shard_file w); [|discriminate]. by injection H as _ <-. }
  rbind H E1 r w1.
  { apply (K _ _ _ _ _ H), kept_all_but_builder_onB. }
  apply K' in E1; [|apply kept_all_but_builder_onB].
  rbind H E2 u2 w2.
  { eapply kept_all_but_builder_trans; [exact E1|].
    apply (K _ _ _ _ _ H), kept_all_but_builder_loop. }
  apply K' in E2; [|apply kept_all_but_builder_loop].
  assert (K2 := kept_all_but_builder_trans _ _ _ E1 E2).
  rbind H E3 v w3.
  { eapply kept_all_but_builder_trans; [exact K2|].
    apply (K _ _ _ _ _ H), kept_all_but_builder_onB. }
  apply K' in E3; [|apply kept_all_but_builder_onB].
  assert (K3 := kept_all_but_builder_trans _ _ _ K2 E3).
  rbind H E4 u4 w4.
  { eapply kept_all_but_builder_trans; [exact K3|].
    apply (K _ _ _ _ _ H), kept_all_but_builder_onB. }
  apply K' in E4; [|apply kept_all_but_builder_onB].
  assert (K4 := kept_all_but_builder_trans _ _ _ K3 E4).
  rbind H E5 u5 w5.
  { eapply kept_all_but_builder_trans; [exact K4|].
    apply (K _ _ _ _ _ H), kept_all_but_builder_onB. }
  apply K' in E5; [|apply kept_all_but_builder_onB].
  assert (K5 := kept_all_but_builder_trans _ _ _ K4 E5).
  rbind H E6 root w6.
  { eapply kept_all_but_builder_trans; [exact K5|].
    apply (K _ _ _ _ _ H), kept_all_but_builder_onB. }
  apply K' in E6; [|apply kept_all_but_builder_onB].
  assert (K6 := kept_all_but_builder_trans _ _ _ K5 E6).
  rbind H E7 h w7.
  { eapply kept_all_but_builder_trans; [exact K6|].
    apply (K _ _ _ _ _ H), kept_all_but_builder_onB. }
  exfalso.
  apply onB_Ok_inv in E7 as (b6 & b7 & Hb6 & EF & ->).
  apply Finish_finished in EF.
  rbind H E8 u8 w8; [discriminate|]. unfold modify in E8.
  injection E8 as _ <-.
  rbind H E9 out w9.
  { apply onB_Raise_inv in H as [(Hn & _)|(b7' & b8 & Hb7 & EP & _)];
      [discriminate|].
    cbn in Hb7. injection Hb7 as <-.
    apply Output_raise in EP. congruence. }
  apply onB_Ok_inv in E9 as (b7' & b8 & Hb7 & EP & ->).
  rbind H E10 u10 w10; [discriminate|]. unfold modify in E10.
  injection E10 as _ <-.
  rbind H E11 u11 w11; [discriminate|]. unfold modify in E11.
  injection E11 as _ <-.
  rbind H E12 fl w12; [discriminate|]. unfold gets in E12.
  injection E12 as <- <-. discriminate.
Qed.

(** A second [close] of the writer that wrote one example. *)
Lemma close_raise_keeps_file_witness :
  let closed :=
    final_state
      ((_write LittleEndianHost Example_int.can_cast Example_int.cast_bits
               Example_int.schema Example_int.good ;;
        close Example_int.compress Example_int.schema) Example_int.fresh) in
  exists e w',
    close Example_int.compress Example_int.schema closed = Raise e w'
    /\ shard_file w' = shard_file closed.
Proof.
  intros closed.
  destruct (close Example_int.compress Example_int.schema closed)
    as [|e w'] eqn:E; [by vm_compute in E|].
  exists e, w'. split; [reflexivity|].
  by destruct (close_raise_keeps_file _ _ _ _ _ E).
Defined.

(** X6.  [close] cannot be called twice on a writer that holds examples: a
    [close] that returned has set the builder to [None] and kept the
    list, so a second [close] calls a method on [None], raises the
    [AttributeError], and changes nothing (lines 203-213 and 228). *)
Theorem close_twice_raises compress ds w w' :
  close compress ds w = Ok tt w' ->
  _examples w <> [] ->
  close compress ds w' = Raise AttributeError w'.
Proof.
  intros H Hne.
  destruct (close_Ok_inv compress ds w w' H Hne) as (Hb & Hex & _).
  unfold close. rewrite bind_unfold. unfold gets at 1.
  destruct (_examples w') as [|e0 es] eqn:He; [congruence|]. cbv iota.
  rewrite bind_unfold. unfold onB at 1. by rewrite Hb.
Qed.

(** One example written, the writer closed, and closed again. *)
Lemma close_twice_raises_witness :
  let closed :=
    final_state
      ((_write LittleEndianHost Example_int.can_cast Example_int.cast_bits
               Example_int.schema Example_int.good ;;
        close Example_int.compress Example_int.schema) Example_int.fresh) in
  close Example_int.compress Example_int.schema closed
  = Raise AttributeError closed.
Proof.
  intros closed.
  apply (close_twice_raises
           Example_int.compress Example_int.schema
           (final_state
              (_write LittleEndianHost Example_int.can_cast
                      Example_int.cast_bits Example_int.schema
                      Example_int.good Example_int.fresh))).
  - vm_compute; reflexivity.
  - by vm_compute.
Defined.
